(** * ESP32 ProPresenter remote: task/queue orchestration

    A shallow embedding of [M5StickCPlus-ProPresenterRemote.ino].  The sketch
    runs three FreeRTOS tasks and the Arduino [loop()] over two bounded
    queues.  Every C++ function that the properties below talk about is
    written here as a function on an explicit [World] (the sketch's globals
    and function-local statics) that also returns the trace of externally
    visible effects: queue sends, HTTP requests, delays and sprite pushes.

    What the sketch obtains from its libraries (Wi-Fi status, [millis()],
    HTTP replies, the JSON parser, font metrics, panel size) is passed in as
    arguments, in the order the code reads it. *)

From Stdlib Require Import ZArith String Ascii List Lia Bool.
From Stdlib Require Import DecimalString QArith Qround Qminmax.
Import ListNotations.

Open Scope string_scope.
Open Scope Z_scope.

(* ------------------------------------------------------------------ *)
(** ** C-level primitives *)

Module C.

(** [int] is 32 bits on the ESP32; results of [int] arithmetic are
    brought back into range by two's-complement wrap-around. *)
Definition INT_MAX : Z := 2147483647.
Definition INT_MIN : Z := -2147483648.

Definition wrap_int (z : Z) : Z := (z + 2147483648) mod 4294967296 - 2147483648.

Definition iadd (a b : Z) : Z := wrap_int (a + b).
Definition isub (a b : Z) : Z := wrap_int (a - b).
Definition imul (a b : Z) : Z := wrap_int (a * b).
(** C division truncates towards zero. *)
Definition idiv (a b : Z) : Z := wrap_int (Z.quot a b).

(** [uint32_t] / [TickType_t] arithmetic is modulo 2^32. *)
Definition u32 (z : Z) : Z := z mod 4294967296.
Definition u32_add (a b : Z) : Z := u32 (a + b).
Definition u32_sub (a b : Z) : Z := u32 (a - b).

(** First [n] bytes of a string. *)
Fixpoint take (n : nat) (s : string) : string :=
  match n, s with
  | O, _ => ""
  | _, EmptyString => ""
  | S n', String c s' => String c (take n' s')
  end.

(** [strncpy(dst, src, n)] where [dst] has [n+1] bytes and its last byte
    is zero (a zero-initialised struct field or static array): the
    resulting C string is the first [n] bytes of [src]. *)
Definition strncpy (n : nat) (src : string) : string := take n src.

(** [strstr(hay, needle) != NULL]. *)
Fixpoint strstr (hay needle : string) : bool :=
  if String.prefix needle hay then true
  else match hay with
       | EmptyString => false
       | String _ hay' => strstr hay' needle
       end.

(** [strcmp(a, b) != 0]. *)
Definition strcmp_ne (a b : string) : bool := negb (String.eqb a b).

(** The ["%d"] conversion. *)
Definition fmt_d (z : Z) : string := NilZero.string_of_int (Z.to_int z).

(** [snprintf(buf, size, "%d", z)]: at most [size-1] bytes are kept. *)
Definition snprintf_d (size : nat) (z : Z) : string :=
  take (pred size) (fmt_d z).

(** [snprintf(buf, size, "%s %d", p, z)]. *)
Definition snprintf_s_d (size : nat) (p : string) (z : Z) : string :=
  take (pred size) (p ++ " " ++ fmt_d z).

End C.

(* ------------------------------------------------------------------ *)
(** ** FreeRTOS queues *)

Module Queue.

(** Outcome of [xQueueSend(q, &item, ticksToWait)].  With room the item
    is copied to the back of the queue.  On a full queue a zero
    [ticksToWait] makes the call return [errQUEUE_FULL] at once; a
    non-zero one suspends the caller, which is where this model stops. *)
Inductive SendOutcome : Type :=
| Sent
| QueueFull
| Suspended (ticksToWait : Z).

Definition xQueueSend {A : Type} (capacity : nat) (q : list A) (item : A)
           (ticksToWait : Z) : SendOutcome * list A :=
  if (List.length q <? capacity)%nat then (Sent, (q ++ [item])%list)
  else if ticksToWait =? 0 then (QueueFull, q)
  else (Suspended ticksToWait, q).

(** [xQueueReceive]: the front item, if any (an empty queue gives
    [pdFALSE] once the timeout has passed). *)
Definition xQueueReceive {A : Type} (q : list A) : option A * list A :=
  match q with
  | [] => (None, [])
  | x :: q' => (Some x, q')
  end.

Definition is_suspended (o : SendOutcome) : bool :=
  match o with Suspended _ => true | _ => false end.

Definition is_sent (o : SendOutcome) : bool :=
  match o with Sent => true | _ => false end.

End Queue.

(* ------------------------------------------------------------------ *)
(** ** Messages *)

Inductive CmdType : Type := CMD_POLL | CMD_NEXT | CMD_PREV | CMD_NET_UP | CMD_HOME0.

Record CmdMsg : Type := mkCmd { cmd_type : CmdType }.

Inductive UiType : Type := UI_STATUS | UI_SLIDE | UI_WIFI.

Record UiMsg : Type := mkUi {
  ui_type : UiType;
  text : string;               (* char[64] *)
  slideIndexOneBased : Z;      (* int *)
  presName : string            (* char[64] *)
}.

(** [UiMsg m{}]: value-initialised. *)
Definition UiMsg_zero (t : UiType) : UiMsg := mkUi t "" 0 "".

Definition UiType_eqb (a b : UiType) : bool :=
  match a, b with
  | UI_STATUS, UI_STATUS | UI_SLIDE, UI_SLIDE | UI_WIFI, UI_WIFI => true
  | _, _ => false
  end.

(** Queue lengths given to [xQueueCreate] in [setup()]. *)
Definition CMDQ_LEN : nat := 16.
Definition UIQ_LEN : nat := 16.

(* ------------------------------------------------------------------ *)
(** ** Colours *)

Definition COL_BG : Z := 0x0000.      (* TFT_BLACK *)
Definition COL_TEXT : Z := 0xFFFF.    (* TFT_WHITE *)
Definition COL_MUTED : Z := 0x8410.
Definition COL_BORDER : Z := 0xC618.
Definition COL_GOOD : Z := 0x04A0.
Definition COL_BAD : Z := 0xE800.

(* ------------------------------------------------------------------ *)
(** ** JSON values as the sketch sees them through [JSONVar] *)

#[local] Unset Elimination Schemes.
Inductive JSONVar : Type :=
| JUndefined                       (* what [JSON.parse] gives for unparsable text *)
| JNull
| JBool (b : bool)
| JNumber (valueint : Z)           (* the [int] that [(int)] reads from the number *)
| JString (s : string)
| JArray (items : list JSONVar)
| JObject (members : list (string * JSONVar)).
#[local] Set Elimination Schemes.

Module JSON.

Definition typeof (v : JSONVar) : string :=
  match v with
  | JUndefined => "undefined"
  | JNull => "null"
  | JBool _ => "boolean"
  | JNumber _ => "number"
  | JString _ => "string"
  | JArray _ => "array"
  | JObject _ => "object"
  end.

Fixpoint lookup (key : string) (ms : list (string * JSONVar)) : option JSONVar :=
  match ms with
  | [] => None
  | (k, v) :: ms' => if String.eqb k key then Some v else lookup key ms'
  end.

Definition hasOwnProperty (v : JSONVar) (key : string) : bool :=
  match v with
  | JObject ms => match lookup key ms with Some _ => true | None => false end
  | _ => false
  end.

(** [v[key]]; a missing member reads as null. *)
Definition get (v : JSONVar) (key : string) : JSONVar :=
  match v with
  | JObject ms => match lookup key ms with Some x => x | None => JNull end
  | _ => JNull
  end.

(** [(int)v]: the integer value of a number, 0 for anything else. *)
Definition to_int (v : JSONVar) : Z :=
  match v with
  | JNumber n => n
  | _ => 0
  end.

(** [(const char* )v]: the string, or [NULL] for anything else. *)
Definition to_cstr (v : JSONVar) : option string :=
  match v with
  | JString s => Some s
  | _ => None
  end.

End JSON.

(* ------------------------------------------------------------------ *)
(** ** Sprite pushes

    Each drawing routine composes one sprite and pushes it once; the push is
    recorded with what the sprite shows. *)

Inductive DrawOp : Type :=
| PushStatus (shown : string) (bg fg : Z)
| PushCard (digits : string) (panel border : Z) (font scale : Z)
| PushTitleCentered (shown : string) (x : Z)
| PushTitlePaused (shown : string) (x : Z)
| PushTitleScroll (shown : string) (x1 x2 : Z)
| Heartbeat (seconds : Z).

Inductive Region : Type := RStatus | RCard | RTitle | RHeart.

Definition region_of (op : DrawOp) : Region :=
  match op with
  | PushStatus _ _ _ => RStatus
  | PushCard _ _ _ _ _ => RCard
  | PushTitleCentered _ _ | PushTitlePaused _ _ | PushTitleScroll _ _ _ => RTitle
  | Heartbeat _ => RHeart
  end.

Definition Region_eqb (a b : Region) : bool :=
  match a, b with
  | RStatus, RStatus | RCard, RCard | RTitle, RTitle | RHeart, RHeart => true
  | _, _ => false
  end.

(* ------------------------------------------------------------------ *)
(** ** Globals, statics and the effect trace *)

Record Marquee : Type := mkMarquee {
  mq_text : string;
  mq_x : Z;            (* int: current scroll offset *)
  mq_w : Z;            (* int: text width *)
  mq_needed : bool;
  mq_lastTick : Z;     (* uint32_t *)
  mq_pauseStart : Z;   (* uint32_t *)
  mq_inPause : bool
}.

(** [Marquee{}] *)
Definition Marquee_default : Marquee := mkMarquee "" 0 0 false 0 0 false.

Record World : Type := mkWorld {
  (* globals *)
  cmdQ : list CmdMsg;
  uiQ : list UiMsg;
  gProUnreachable : bool;
  millisTime : Z;
  gMarq : Marquee;
  (* static of ensureWiFi *)
  lastAttemptMs : Z;
  (* locals of httpTask that live across iterations *)
  nextForcedPoll : Z;
  lastBgPoll : Z;
  (* statics of loop *)
  lastNetKick : Z;
  lastConn : bool;
  (* statics of uiTask *)
  lastSlide : Z;
  lastTitle : string;
  lastStatus : string;
  wifiConnected : bool;
  lastReachable : bool
}.

Definition set_cmdQ v w := mkWorld v (uiQ w) (gProUnreachable w) (millisTime w) (gMarq w)
  (lastAttemptMs w) (nextForcedPoll w) (lastBgPoll w) (lastNetKick w) (lastConn w)
  (lastSlide w) (lastTitle w) (lastStatus w) (wifiConnected w) (lastReachable w).
Definition set_uiQ v w := mkWorld (cmdQ w) v (gProUnreachable w) (millisTime w) (gMarq w)
  (lastAttemptMs w) (nextForcedPoll w) (lastBgPoll w) (lastNetKick w) (lastConn w)
  (lastSlide w) (lastTitle w) (lastStatus w) (wifiConnected w) (lastReachable w).
Definition set_gProUnreachable v w := mkWorld (cmdQ w) (uiQ w) v (millisTime w) (gMarq w)
  (lastAttemptMs w) (nextForcedPoll w) (lastBgPoll w) (lastNetKick w) (lastConn w)
  (lastSlide w) (lastTitle w) (lastStatus w) (wifiConnected w) (lastReachable w).
Definition set_gMarq v w := mkWorld (cmdQ w) (uiQ w) (gProUnreachable w) (millisTime w) v
  (lastAttemptMs w) (nextForcedPoll w) (lastBgPoll w) (lastNetKick w) (lastConn w)
  (lastSlide w) (lastTitle w) (lastStatus w) (wifiConnected w) (lastReachable w).
Definition set_lastAttemptMs v w := mkWorld (cmdQ w) (uiQ w) (gProUnreachable w) (millisTime w) (gMarq w)
  v (nextForcedPoll w) (lastBgPoll w) (lastNetKick w) (lastConn w)
  (lastSlide w) (lastTitle w) (lastStatus w) (wifiConnected w) (lastReachable w).
Definition set_nextForcedPoll v w := mkWorld (cmdQ w) (uiQ w) (gProUnreachable w) (millisTime w) (gMarq w)
  (lastAttemptMs w) v (lastBgPoll w) (lastNetKick w) (lastConn w)
  (lastSlide w) (lastTitle w) (lastStatus w) (wifiConnected w) (lastReachable w).
Definition set_lastBgPoll v w := mkWorld (cmdQ w) (uiQ w) (gProUnreachable w) (millisTime w) (gMarq w)
  (lastAttemptMs w) (nextForcedPoll w) v (lastNetKick w) (lastConn w)
  (lastSlide w) (lastTitle w) (lastStatus w) (wifiConnected w) (lastReachable w).
Definition set_lastNetKick v w := mkWorld (cmdQ w) (uiQ w) (gProUnreachable w) (millisTime w) (gMarq w)
  (lastAttemptMs w) (nextForcedPoll w) (lastBgPoll w) v (lastConn w)
  (lastSlide w) (lastTitle w) (lastStatus w) (wifiConnected w) (lastReachable w).
Definition set_lastConn v w := mkWorld (cmdQ w) (uiQ w) (gProUnreachable w) (millisTime w) (gMarq w)
  (lastAttemptMs w) (nextForcedPoll w) (lastBgPoll w) (lastNetKick w) v
  (lastSlide w) (lastTitle w) (lastStatus w) (wifiConnected w) (lastReachable w).
Definition set_lastSlide v w := mkWorld (cmdQ w) (uiQ w) (gProUnreachable w) (millisTime w) (gMarq w)
  (lastAttemptMs w) (nextForcedPoll w) (lastBgPoll w) (lastNetKick w) (lastConn w)
  v (lastTitle w) (lastStatus w) (wifiConnected w) (lastReachable w).
Definition set_lastTitle v w := mkWorld (cmdQ w) (uiQ w) (gProUnreachable w) (millisTime w) (gMarq w)
  (lastAttemptMs w) (nextForcedPoll w) (lastBgPoll w) (lastNetKick w) (lastConn w)
  (lastSlide w) v (lastStatus w) (wifiConnected w) (lastReachable w).
Definition set_lastStatus v w := mkWorld (cmdQ w) (uiQ w) (gProUnreachable w) (millisTime w) (gMarq w)
  (lastAttemptMs w) (nextForcedPoll w) (lastBgPoll w) (lastNetKick w) (lastConn w)
  (lastSlide w) (lastTitle w) v (wifiConnected w) (lastReachable w).
Definition set_wifiConnected v w := mkWorld (cmdQ w) (uiQ w) (gProUnreachable w) (millisTime w) (gMarq w)
  (lastAttemptMs w) (nextForcedPoll w) (lastBgPoll w) (lastNetKick w) (lastConn w)
  (lastSlide w) (lastTitle w) (lastStatus w) v (lastReachable w).
Definition set_lastReachable v w := mkWorld (cmdQ w) (uiQ w) (gProUnreachable w) (millisTime w) (gMarq w)
  (lastAttemptMs w) (nextForcedPoll w) (lastBgPoll w) (lastNetKick w) (lastConn w)
  (lastSlide w) (lastTitle w) (lastStatus w) (wifiConnected w) v.
Definition set_millisTime v w := mkWorld (cmdQ w) (uiQ w) (gProUnreachable w) v (gMarq w)
  (lastAttemptMs w) (nextForcedPoll w) (lastBgPoll w) (lastNetKick w) (lastConn w)
  (lastSlide w) (lastTitle w) (lastStatus w) (wifiConnected w) (lastReachable w).

(** The state right after [setup()] has created the queues: every global
    and static at its initialiser. *)
Definition World_init : World :=
  mkWorld [] [] false 0 Marquee_default 0 0 0 0 false (-9999) "" "" false false.

Inductive Event : Type :=
| EvUiSend (m : UiMsg) (o : Queue.SendOutcome)
| EvCmdSend (c : CmdMsg) (o : Queue.SendOutcome)
| EvHttpGet (url : string)
| EvWifiBegin
| EvDelay (ms : Z)
| EvPush (op : DrawOp).

(** A piece of the sketch: reads and updates the world, returns a value and
    the events it caused, oldest first. *)
Definition Task (A : Type) : Type := World -> A * World * list Event.

Definition ret {A} (a : A) : Task A := fun w => (a, w, []).

Definition result_of {A} (r : A * World * list Event) : A := fst (fst r).
Definition world_of {A} (r : A * World * list Event) : World := snd (fst r).
Definition trace_of {A} (r : A * World * list Event) : list Event := snd r.

Definition bind {A B} (m : Task A) (k : A -> Task B) : Task B :=
  fun w =>
    let r1 := m w in
    let r2 := k (result_of r1) (world_of r1) in
    (result_of r2, world_of r2, (trace_of r1 ++ trace_of r2)%list).

Declare Scope task_scope.
Delimit Scope task_scope with task.
Notation "x <- m ;; k" := (bind m (fun x => k))
  (at level 61, m at next level, right associativity) : task_scope.
Notation "' pat <- m ;; k" := (bind m (fun x => match x with pat => k end))
  (at level 61, pat pattern, m at next level, right associativity) : task_scope.
Notation "m ;; k" := (bind m (fun _ => k))
  (at level 61, right associativity) : task_scope.
Open Scope task_scope.

Definition get {A} (f : World -> A) : Task A := fun w => (f w, w, []).
Definition modify (f : World -> World) : Task unit := fun w => (tt, f w, []).
Definition emit (e : Event) : Task unit := fun w => (tt, w, [e]).
Definition when (b : bool) (m : Task unit) : Task unit := if b then m else ret tt.

(** Projections of a trace. *)
Definition ui_offered (tr : list Event) : list UiMsg :=
  flat_map (fun e => match e with EvUiSend m _ => [m] | _ => [] end) tr.

Definition ui_enqueued (tr : list Event) : list UiMsg :=
  flat_map (fun e => match e with EvUiSend m Queue.Sent => [m] | _ => [] end) tr.

Definition http_requests (tr : list Event) : list string :=
  flat_map (fun e => match e with EvHttpGet u => [u] | _ => [] end) tr.

Definition pushes (tr : list Event) : list DrawOp :=
  flat_map (fun e => match e with EvPush op => [op] | _ => [] end) tr.

Definition send_outcomes (tr : list Event) : list Queue.SendOutcome :=
  flat_map (fun e => match e with
                     | EvUiSend _ o => [o]
                     | EvCmdSend _ o => [o]
                     | _ => []
                     end) tr.

(* ------------------------------------------------------------------ *)
(** ** Queue producers *)

(** [xQueueSend(uiQ, &m, 0)] *)
Definition send_ui (m : UiMsg) : Task unit :=
  fun w =>
    let r := Queue.xQueueSend UIQ_LEN (uiQ w) m 0 in
    (tt, set_uiQ (snd r) w, [EvUiSend m (fst r)]).

(** [xQueueSend(cmdQ, &c, 0)] *)
Definition send_cmd (c : CmdMsg) : Task unit :=
  fun w =>
    let r := Queue.xQueueSend CMDQ_LEN (cmdQ w) c 0 in
    (tt, set_cmdQ (snd r) w, [EvCmdSend c (fst r)]).

Definition enqueueStatus (s : string) : Task unit :=
  send_ui (mkUi UI_STATUS (C.strncpy 63 s) 0 "").

Definition enqueueStatusCode (p : string) (c : Z) : Task unit :=
  send_ui (mkUi UI_STATUS (C.snprintf_s_d 64 p c) 0 "").

Definition enqueueWifi (s : string) : Task unit :=
  send_ui (mkUi UI_WIFI (C.strncpy 63 s) 0 "").

(** [nm] is a nullable [const char*]. *)
Definition enqueueSlide (idx1 : Z) (nm : option string) : Task unit :=
  send_ui (mkUi UI_SLIDE "" idx1
                (C.strncpy 63 (match nm with Some s => s | None => "" end))).

(* ------------------------------------------------------------------ *)
(** ** Networking (owned by [httpTask]) *)

Definition HTTP_CODE_OK : Z := 200.
Definition HTTP_CODE_NO_CONTENT : Z := 204.

(** [configTICK_RATE_HZ] is 1000 in the Arduino core for the ESP32. *)
Definition configTICK_RATE_HZ : Z := 1000.
Definition pdMS_TO_TICKS (ms : Z) : Z := C.u32 (ms * configTICK_RATE_HZ / 1000).

Definition kPollIntervalTicks : Z := pdMS_TO_TICKS 500.
Definition kAfterTriggerDelay : Z := pdMS_TO_TICKS 150.

Definition pro7NetworkAddress : string := "192.168.1.7".
Definition pro7NetworkPort : string := "50001".
Definition baseUrl : string := "http://" ++ pro7NetworkAddress ++ ":" ++ pro7NetworkPort.

(** What one use of [HTTPClient] yields: whether [http.begin] accepted the
    URL, the value of [http.GET()] (an HTTP status, or a negative transport
    error) and the body [http.getString()] would return. *)
Record HttpReply : Type := mkReply {
  begin_ok : bool;
  get_code : Z;
  get_string : string
}.

(** What the Wi-Fi driver and the clocks show while one command is served:
    [WiFi.status() == WL_CONNECTED] on entry to [ensureWiFi] and at each
    turn of its wait loop, [millis()], [xTaskGetTickCount()], and the
    replies to the first and (for a poll) the retried request.  Clock
    readings are the [uint32_t] values the calls return. *)
Record NetEnv : Type := mkNetEnv {
  wifi_up : bool;
  wifi_probe : nat -> bool;
  now_ms : Z;
  now_ticks : Z;
  reply1 : HttpReply;
  reply2 : HttpReply
}.

Definition vTaskDelay (ticks : Z) : Task unit := emit (EvDelay ticks).

(** The wait loop of [ensureWiFi]: [n] turns left, [i] done. *)
Fixpoint ensureWiFi_wait (probe : nat -> bool) (i n : nat) : Task bool :=
  match n with
  | O => enqueueWifi "No Wi-Fi" ;; ret false
  | S n' =>
      if probe i then enqueueWifi "Wi-Fi OK" ;; ret true
      else vTaskDelay (pdMS_TO_TICKS 100) ;; ensureWiFi_wait probe (S i) n'
  end.

Definition ensureWiFi (env : NetEnv) : Task bool :=
  if wifi_up env then ret true
  else
    last <- get lastAttemptMs ;;
    let now := now_ms env in
    if C.u32_sub now last <? 2000 then ret false
    else
      modify (set_lastAttemptMs now) ;;
      emit EvWifiBegin ;;
      enqueueWifi "Wi-Fi…" ;;
      ensureWiFi_wait (wifi_probe env) 0 10.

(** [httpGET_once(url, code, body)]; [code] and [body] are the caller's
    variables, returned with the result. *)
Definition httpGET_once (url : string) (r : HttpReply) (code : Z) (body : string)
  : Task (bool * Z * string) :=
  if negb (begin_ok r) then ret (false, -1000, body)
  else
    emit (EvHttpGet url) ;;
    let code := get_code r in
    let body := if 0 <? code then get_string r else body in
    ret (0 <? code, code, body).

Section Poll.

(** [JSON.parse], from the Arduino_JSON library. *)
Variable JSON_parse : string -> JSONVar.

(** Returns the result together with [errMsg]. *)
Definition pollSlideOnce (r : HttpReply) (errMsg : string) : Task (bool * string) :=
  '(ok, code, payload) <- httpGET_once (baseUrl ++ "/v1/presentation/slide_index") r 0 "" ;;
  if negb ok then
    down <- get gProUnreachable ;;
    when (negb down)
         (modify (set_gProUnreachable true) ;; enqueueStatus "Pro Unreachable") ;;
    ret (false, "Poll fail")
  else if code =? HTTP_CODE_OK then
    let obj := JSON_parse payload in
    if String.eqb (JSON.typeof obj) "undefined" then
      down <- get gProUnreachable ;;
      when (negb down)
           (modify (set_gProUnreachable true) ;; enqueueStatus "Pro Unreachable") ;;
      ret (false, "Bad JSON")
    else
      let '(idx1, name) :=
        if JSON.hasOwnProperty obj "presentation_index" then
          let pi := JSON.get obj "presentation_index" in
          let idx1 := if JSON.hasOwnProperty pi "index"
                      then C.iadd (JSON.to_int (JSON.get pi "index")) 1
                      else -1 in
          let name := if JSON.hasOwnProperty pi "presentation_id"
                         && JSON.hasOwnProperty (JSON.get pi "presentation_id") "name"
                      then JSON.to_cstr (JSON.get (JSON.get pi "presentation_id") "name")
                      else Some "" in
          (idx1, name)
        else (-1, Some "") in
      down <- get gProUnreachable ;;
      when down
           (modify (set_gProUnreachable false) ;; enqueueStatus "Pro Connected") ;;
      enqueueSlide idx1 name ;;
      ret (true, errMsg)
  else
    down <- get gProUnreachable ;;
    when (negb down)
         (modify (set_gProUnreachable true) ;; enqueueStatus "Pro Unreachable") ;;
    ret (false, "HTTP").

(** [String err; if (!pollSlideOnce(err)) { vTaskDelay(150 ms); pollSlideOnce(err); }] *)
Definition poll_with_retry (env : NetEnv) : Task unit :=
  '(ok, err) <- pollSlideOnce (reply1 env) "" ;;
  if negb ok then
    vTaskDelay (pdMS_TO_TICKS 150) ;;
    _ <- pollSlideOnce (reply2 env) err ;;
    ret tt
  else ret tt.

(** One of the three trigger cases of the [switch] in [httpTask]. *)
Definition trigger (announce path done : string) (env : NetEnv) : Task unit :=
  enqueueStatus announce ;;
  linked <- ensureWiFi env ;;
  if linked then
    '(ok, code, body) <- httpGET_once (baseUrl ++ path) (reply1 env) 0 "" ;;
    if ok && (code =? HTTP_CODE_NO_CONTENT) then
      enqueueStatus done ;;
      modify (set_nextForcedPoll (C.u32_add (now_ticks env) kAfterTriggerDelay))
    else enqueueStatusCode "Request Failed" code
  else ret tt.

(** The body of the [switch (cmd.type)]. *)
Definition handle_cmd (cmd : CmdMsg) (env : NetEnv) : Task unit :=
  match cmd_type cmd with
  | CMD_NEXT => trigger "NEXT…" "/v1/trigger/next" "NEXT OK" env
  | CMD_PREV => trigger "PREV…" "/v1/trigger/previous" "PREV OK" env
  | CMD_HOME0 => trigger "HOME…" "/v1/presentation/active/0/trigger" "HOME OK" env
  | CMD_NET_UP => _ <- ensureWiFi env ;; ret tt
  | CMD_POLL =>
      linked <- ensureWiFi env ;;
      if linked then poll_with_retry env else ret tt
  end.

(** [xQueueReceive(cmdQ, &cmd, 0)] *)
Definition receive_cmd : Task (option CmdMsg) :=
  fun w => let r := Queue.xQueueReceive (cmdQ w) in (fst r, set_cmdQ (snd r) w, []).

(** The [while] loop that drains [cmdQ]; returns [didWork].  [envs i] is
    what the [i]-th command served in this iteration observes. *)
Fixpoint drain_cmds (envs : nat -> NetEnv) (i : nat) (fuel : nat) : Task bool :=
  match fuel with
  | O => ret false
  | S fuel' =>
      c <- receive_cmd ;;
      match c with
      | None => ret false
      | Some cmd =>
          handle_cmd cmd (envs i) ;;
          _ <- drain_cmds envs (S i) fuel' ;;
          ret true
      end
  end.

(** One turn of the [for(;;)] of [httpTask], for the commands that are in
    the queue when the turn starts. *)
Definition httpTask_iter (envs : nat -> NetEnv) (forced bg : NetEnv) (now : Z)
  : Task unit :=
  pending <- get cmdQ ;;
  didWork <- drain_cmds envs 0 (List.length pending) ;;
  nfp <- get nextForcedPoll ;;
  when (negb (nfp =? 0) && (nfp <=? now))
       (modify (set_nextForcedPoll 0) ;;
        linked <- ensureWiFi forced ;;
        if linked then poll_with_retry forced else ret tt) ;;
  lbp <- get lastBgPoll ;;
  when (negb didWork && (kPollIntervalTicks <=? C.u32_sub now lbp))
       (modify (set_lastBgPoll now) ;;
        linked <- ensureWiFi bg ;;
        if linked then poll_with_retry bg else ret tt) ;;
  vTaskDelay (pdMS_TO_TICKS 10).

End Poll.

(* ------------------------------------------------------------------ *)
(** ** Heartbeat ([statusTask]) *)

(** One turn of [statusTask]; the mutex makes the store atomic. *)
Definition statusTask_iter (now : Z) : Task unit :=
  modify (set_millisTime now) ;;
  vTaskDelay (pdMS_TO_TICKS 700).

(* ------------------------------------------------------------------ *)
(** ** Input sampling ([setup] tail and [loop]) *)

(** What [loop()] samples in one turn: the two click flags, the AXP button
    code, [millis()], and [WiFi.status() == WL_CONNECTED] at its two call
    sites. *)
Record LoopEnv : Type := mkLoopEnv {
  action_click : bool;
  m5_click : bool;
  axp_press : Z;
  loop_ms : Z;
  wifi_at_kick : bool;
  wifi_at_announce : bool
}.

Definition setup_kickoff : Task unit :=
  enqueueWifi "Booting" ;;
  send_cmd (mkCmd CMD_POLL).

Definition loop (env : LoopEnv) : Task unit :=
  when (action_click env) (enqueueStatus "CLICK PREV" ;; send_cmd (mkCmd CMD_PREV)) ;;
  when (m5_click env) (enqueueStatus "CLICK NEXT" ;; send_cmd (mkCmd CMD_NEXT)) ;;
  when (axp_press env =? 2) (enqueueStatus "PWR→HOME" ;; send_cmd (mkCmd CMD_HOME0)) ;;
  kick <- get lastNetKick ;;
  let now := loop_ms env in
  when (3000 <? C.u32_sub now kick)
       (modify (set_lastNetKick now) ;;
        when (negb (wifi_at_kick env)) (send_cmd (mkCmd CMD_NET_UP))) ;;
  conn <- get lastConn ;;
  let nowConn := wifi_at_announce env in
  when (negb (Bool.eqb nowConn conn))
       (modify (set_lastConn nowConn) ;;
        enqueueWifi (if nowConn then "Wi-Fi OK" else "No Wi-Fi")) ;;
  vTaskDelay (pdMS_TO_TICKS 10).

(* ------------------------------------------------------------------ *)
(** ** Rendering (owned by [uiTask]) *)

(** The panel and its fonts, from the display library: panel size after
    [setRotation(0)], and the pixel width of a string and the height of a
    font at text size 1.  At text size [s] both are multiplied by [s]. *)
Record Tft : Type := mkTft {
  lcd_width : Z;
  lcd_height : Z;
  textWidth : Z -> string -> Z;
  fontHeight : Z -> Z
}.

Record Layout : Type := mkLayout {
  LCD_W : Z; LCD_H : Z; PAD : Z;
  STATUS_H : Z; HEART_H : Z; STATUS_Y : Z;
  TITLE_Y : Z; TITLE_H : Z; CARD_Y : Z; CARD_H : Z
}.

(** [int] arithmetic. *)
Infix "[+]" := C.iadd (at level 50, left associativity).
Infix "[-]" := C.isub (at level 50, left associativity).
Infix "[*]" := C.imul (at level 40, left associativity).
Infix "[/]" := C.idiv (at level 40, left associativity).

Definition initLayoutAndSprites (tft : Tft) : Layout :=
  let LCD_W := lcd_width tft in
  let LCD_H := lcd_height tft in
  let PAD := 8 in
  let STATUS_H := 20 in
  let HEART_H := 12 in
  let STATUS_Y := LCD_H [-] HEART_H [-] STATUS_H in
  let CARD_Y := PAD in
  let TITLE_H := 28 in
  let remainingBelowCard := STATUS_Y [-] (CARD_Y [+] PAD [+] TITLE_H [+] PAD) in
  let remainingBelowCard := if remainingBelowCard <? 50 then 50 else remainingBelowCard in
  let innerWidth := LCD_W [-] 2 [*] PAD in
  let CARD_H := Z.min innerWidth remainingBelowCard in
  let CARD_H := if CARD_H <? 50 then 50 else CARD_H in
  let TITLE_Y := CARD_Y [+] CARD_H [+] PAD in
  mkLayout LCD_W LCD_H PAD STATUS_H HEART_H STATUS_Y TITLE_Y TITLE_H CARD_Y CARD_H.

Definition push (op : DrawOp) : Task unit := emit (EvPush op).

Definition drawStatusBar (shown : string) (bg fg : Z) : Task unit :=
  push (PushStatus shown bg fg).

(** The [for] loop over [candidates] with its [break]. *)
Fixpoint first_fit (fits : Z -> bool) (candidates : list Z) : Z :=
  match candidates with
  | [] => 0
  | c :: rest => if fits c then c else first_fit fits rest
  end.

Section Render.

Variable tft : Tft.
Variable lay : Layout.

(** Text [buf] of [drawSlideCard]. *)
Definition card_digits (idx1 : Z) : string :=
  if 0 <? idx1 then C.snprintf_d 8 idx1 else "--".

Definition card_maxW : Z := LCD_W lay [-] PAD lay [*] 2 [-] 2 [*] 2.
Definition card_maxH : Z := CARD_H lay [-] 2 [*] 2.

(** The lambda [fits]; the text size is 1 whenever it runs. *)
Definition fits (buf : string) (font : Z) : bool :=
  (textWidth tft font buf <=? card_maxW) && (fontHeight tft font <=? card_maxH).

(** The font and text size that [drawSlideCard] has set when it reaches
    [drawString].  The two [float] quotients are taken as exact
    rationals; pixel counts are far below 2^24, where the rounded
    quotient has the same floor. *)
Definition card_font_scale (buf : string) : Z * Z :=
  let chosenFont := first_fit (fits buf) [8; 6; 4; 2] in
  if (0 <? chosenFont) && negb (chosenFont =? 2) then (chosenFont, 1)
  else if chosenFont =? 2 then (2, 1)
  else
    let baseW := textWidth tft 2 buf in
    let baseH := fontHeight tft 2 in
    let sx : Q := if 0 <? baseW then (inject_Z card_maxW / inject_Z baseW)%Q else 1%Q in
    let sy : Q := if 0 <? baseH then (inject_Z card_maxH / inject_Z baseH)%Q else 1%Q in
    let scale := Qfloor (Qmin sx sy) in
    let scale := if scale <? 1 then 1 else scale in
    (2, scale).

(** Pixel size of [buf] as [drawString] renders it. *)
Definition measured_width (buf : string) (font scale : Z) : Z :=
  textWidth tft font buf * scale.
Definition measured_height (font scale : Z) : Z :=
  fontHeight tft font * scale.

Definition drawSlideCard (idx1 : Z) (panelColor borderColor : Z) : Task unit :=
  let buf := card_digits idx1 in
  let chosen := card_font_scale buf in
  push (PushCard buf panelColor borderColor (fst chosen) (snd chosen)).

Definition drawTitleMarqueeTick (now : Z) : Task unit :=
  m <- get gMarq ;;
  let maxW := LCD_W lay [-] 2 [*] PAD lay in
  if negb (mq_needed m) then
    let centeredX := PAD lay [+] (maxW [-] mq_w m) [/] 2 in
    let centeredX := if centeredX <? PAD lay then PAD lay else centeredX in
    push (PushTitleCentered (mq_text m) centeredX)
  else
    let stepPx := 2 in
    let tickMs := 75 in
    let spacer := 24 in
    let totalSpan := mq_w m [+] spacer in
    if mq_inPause m then
      when (500 <=? C.u32_sub now (mq_pauseStart m))
           (modify (set_gMarq (mkMarquee (mq_text m) 0 (mq_w m) (mq_needed m)
                                         now (mq_pauseStart m) false))) ;;
      push (PushTitlePaused (mq_text m) (PAD lay))
    else
      when (tickMs <=? C.u32_sub now (mq_lastTick m))
           (let x := mq_x m [-] stepPx in
            if x <? 0 [-] totalSpan
            then modify (set_gMarq (mkMarquee (mq_text m) 0 (mq_w m) (mq_needed m)
                                              now now true))
            else modify (set_gMarq (mkMarquee (mq_text m) x (mq_w m) (mq_needed m)
                                              now (mq_pauseStart m) (mq_inPause m)))) ;;
      m' <- get gMarq ;;
      let x1 := PAD lay [+] mq_x m' in
      let x2 := x1 [+] mq_w m' [+] spacer in
      push (PushTitleScroll (mq_text m') x1 x2).

(** The status colour rules of [uiTask]. *)
Definition status_color (txt : string) : Z :=
  if C.strstr txt "OK" || C.strstr txt "Connected" ||
     C.strstr txt "NEXT" || C.strstr txt "PREV" ||
     C.strstr txt "HOME" || C.strstr txt "Wi-Fi"
  then COL_GOOD
  else if C.strstr txt "Unreachable" || C.strstr txt "Request Failed"
  then COL_BAD
  else COL_MUTED.

(** Boot paint of [uiTask], before its loop. *)
Definition uiTask_boot (now : Z) : Task unit :=
  drawStatusBar "Booting…" COL_BG COL_MUTED ;;
  drawSlideCard (-1) COL_BAD COL_BORDER ;;
  modify (set_gMarq Marquee_default) ;;
  drawTitleMarqueeTick now.

(** [xQueueReceive(uiQ, &msg, UI_TICK)] *)
Definition receive_ui : Task (option UiMsg) :=
  fun w => let r := Queue.xQueueReceive (uiQ w) in (fst r, set_uiQ (snd r) w, []).

(** What [uiTask] does with a message it has received.  [ms_title] is
    [millis()] where the marquee is re-initialised, [ms_tick] is
    [millis()] inside [drawTitleMarqueeTick]. *)
Definition ui_handle (msg : UiMsg) (ms_title ms_tick : Z) : Task unit :=
  match ui_type msg with
  | UI_STATUS | UI_WIFI =>
      when (UiType_eqb (ui_type msg) UI_WIFI)
           (modify (set_wifiConnected
                      (C.strstr (text msg) "OK" || C.strstr (text msg) "Connected"))) ;;
      let fg := status_color (text msg) in
      shown <- get lastStatus ;;
      when (C.strcmp_ne shown (text msg))
           (modify (set_lastStatus (C.strncpy 63 (text msg))) ;;
            shown' <- get lastStatus ;;
            drawStatusBar shown' COL_BG fg) ;;
      wifi <- get wifiConnected ;;
      down <- get gProUnreachable ;;
      let reachable := wifi && negb down in
      painted <- get lastReachable ;;
      when (negb (Bool.eqb reachable painted))
           (modify (set_lastReachable reachable) ;;
            slide <- get lastSlide ;;
            drawSlideCard slide (if reachable then COL_GOOD else COL_BAD) COL_BORDER)
  | UI_SLIDE =>
      wifi <- get wifiConnected ;;
      down <- get gProUnreachable ;;
      let reachable := wifi && negb down in
      slide <- get lastSlide ;;
      when (negb (slideIndexOneBased msg =? slide))
           (modify (set_lastSlide (slideIndexOneBased msg)) ;;
            slide' <- get lastSlide ;;
            drawSlideCard slide' (if reachable then COL_GOOD else COL_BAD) COL_BORDER) ;;
      title <- get lastTitle ;;
      when (negb (String.eqb title (presName msg)))
           (modify (set_lastTitle (presName msg)) ;;
            let w := textWidth tft 4 (presName msg) in
            let maxW := LCD_W lay [-] 2 [*] PAD lay in
            let needed := maxW <? w in
            let lastTick := ms_title in
            modify (set_gMarq (mkMarquee (presName msg) 0 w needed lastTick
                                         (if needed then lastTick else 0) needed)) ;;
            drawTitleMarqueeTick ms_tick)
  end.

(** One turn of the [for(;;)] of [uiTask]. *)
Definition uiTask_iter (ms_title ms_tick : Z) : Task unit :=
  rx <- receive_ui ;;
  match rx with
  | Some msg => ui_handle msg ms_title ms_tick
  | None => drawTitleMarqueeTick ms_tick
  end ;;
  beat <- get millisTime ;;
  push (Heartbeat (beat / 1000)).

End Render.

(* ------------------------------------------------------------------ *)
(** ** Sample inputs used by the examples below *)

Definition dquote : string := String (ascii_of_nat 34) "".

(** [{"presentation_index":{"index":4,"presentation_id":{"name":"Sermon"}}}] *)
Definition payload_sermon : string :=
  "{" ++ dquote ++ "presentation_index" ++ dquote ++ ":{" ++
  dquote ++ "index" ++ dquote ++ ":4," ++
  dquote ++ "presentation_id" ++ dquote ++ ":{" ++
  dquote ++ "name" ++ dquote ++ ":" ++ dquote ++ "Sermon" ++ dquote ++ "}}}".

Definition long_name : string :=
  "Sunday Morning Worship Service Announcements And Welcome Slides 2024".

(** Same shape, with a 68-byte presentation name. *)
Definition payload_long : string :=
  "{" ++ dquote ++ "presentation_index" ++ dquote ++ ":{" ++
  dquote ++ "index" ++ dquote ++ ":0," ++
  dquote ++ "presentation_id" ++ dquote ++ ":{" ++
  dquote ++ "name" ++ dquote ++ ":" ++ dquote ++ long_name ++ dquote ++ "}}}".

Definition slide_index_value (i : Z) (name : string) : JSONVar :=
  JObject [("presentation_index",
            JObject [("index", JNumber i);
                     ("presentation_id", JObject [("name", JString name)])])].

(** A stand-in for [JSON.parse] that knows the payloads above and the empty
    object, and rejects everything else. *)
Definition sample_parse (s : string) : JSONVar :=
  if String.eqb s payload_sermon then slide_index_value 4 "Sermon"
  else if String.eqb s payload_long then slide_index_value 0 long_name
  else if String.eqb s "{}" then JObject []
  else JUndefined.

(** Nominal digit cells of the stock bitmap fonts (width, height):
    font 2 is 8x16, font 4 is 14x26, font 6 is 27x48, font 8 is 55x75. *)
Definition cell_width (font : Z) : Z :=
  if font =? 8 then 55 else if font =? 6 then 27 else if font =? 4 then 14 else 8.
Definition cell_height (font : Z) : Z :=
  if font =? 8 then 75 else if font =? 6 then 48 else if font =? 4 then 26 else 16.

Definition sample_tft (w h : Z) : Tft :=
  mkTft w h (fun font s => cell_width font * Z.of_nat (String.length s)) cell_height.

(** The M5StickC Plus panel in portrait. *)
Definition stick_tft : Tft := sample_tft 135 240.

(* ------------------------------------------------------------------ *)
(** ** Vocabulary of the properties *)

(** The numeric index field of a slide-index payload is there. *)
Definition index_present (obj : JSONVar) : bool :=
  JSON.hasOwnProperty obj "presentation_index"
  && JSON.hasOwnProperty (JSON.get obj "presentation_index") "index".

(** The presentation-name field of a slide-index payload is there. *)
Definition name_present (obj : JSONVar) : bool :=
  JSON.hasOwnProperty obj "presentation_index"
  && JSON.hasOwnProperty (JSON.get obj "presentation_index") "presentation_id"
  && JSON.hasOwnProperty
       (JSON.get (JSON.get obj "presentation_index") "presentation_id") "name".

Definition is_slide_update (m : UiMsg) : bool := UiType_eqb (ui_type m) UI_SLIDE.

Definition status_msg (s : string) : UiMsg := mkUi UI_STATUS s 0 "".
Definition wifi_msg (s : string) : UiMsg := mkUi UI_WIFI s 0 "".
Definition slide_msg (idx1 : Z) (title : string) : UiMsg := mkUi UI_SLIDE "" idx1 title.

Definition msg_unreachable : UiMsg := status_msg "Pro Unreachable".
Definition msg_connected : UiMsg := status_msg "Pro Connected".

Definition UiMsg_eqb (a b : UiMsg) : bool :=
  UiType_eqb (ui_type a) (ui_type b)
  && String.eqb (text a) (text b)
  && (slideIndexOneBased a =? slideIndexOneBased b)
  && String.eqb (presName a) (presName b).

Definition count_msg (m : UiMsg) (l : list UiMsg) : nat :=
  List.length (filter (UiMsg_eqb m) l).

(** Whether a reply makes [pollSlideOnce] take its success path: the GET
    went through with a positive code, the code is 200 and the body parses. *)
Definition poll_succeeds (parse : string -> JSONVar) (r : HttpReply) : bool :=
  begin_ok r && (0 <? get_code r) && (get_code r =? HTTP_CODE_OK)
  && negb (String.eqb (JSON.typeof (parse (get_string r))) "undefined").

(** What happens around the UI queue, seen from the network side: a poll
    with the reply it gets, or the renderer taking one message. *)
Inductive Step : Type :=
| StPoll (r : HttpReply)
| StTake.

Definition run_step (parse : string -> JSONVar) (s : Step) : Task unit :=
  match s with
  | StPoll r => _ <- pollSlideOnce parse r "" ;; ret tt
  | StTake => _ <- receive_ui ;; ret tt
  end.

Fixpoint run_steps (parse : string -> JSONVar) (ss : list Step) : Task unit :=
  match ss with
  | [] => ret tt
  | s :: ss' => run_step parse s ;; run_steps parse ss'
  end.

Definition all_polls (p : HttpReply -> bool) (ss : list Step) : Prop :=
  forall r, In (StPoll r) ss -> p r = true.

(** [needle] occurs somewhere in [txt]. *)
Definition occurs (needle txt : string) : Prop :=
  exists pre post, txt = pre ++ needle ++ post.

(** The sprite push of [drawSlideCard idx1 panel COL_BORDER]. *)
Definition card_push (tft : Tft) (lay : Layout) (idx1 panel : Z) : DrawOp :=
  PushCard (card_digits idx1) panel COL_BORDER
           (fst (card_font_scale tft lay (card_digits idx1)))
           (snd (card_font_scale tft lay (card_digits idx1))).

Definition card_color (reachable : bool) : Z :=
  if reachable then COL_GOOD else COL_BAD.

(** The pushes of a trace that go to one region of the panel. *)
Definition region_pushes (r : Region) (tr : list Event) : list DrawOp :=
  filter (fun op => Region_eqb (region_of op) r) (pushes tr).

(** What belongs to the renderer: the statics of [uiTask] and the marquee.
    Every other part of the world is blanked. *)
Definition ui_owned (w : World) : World :=
  mkWorld [] [] false 0 (gMarq w) 0 0 0 0 false
          (lastSlide w) (lastTitle w) (lastStatus w) (wifiConnected w) (lastReachable w).

(** What [uiTask] reads when it handles a message: what it owns, and the
    network task's flag [gProUnreachable]. *)
Definition ui_reads (w : World) : World :=
  set_gProUnreachable (gProUnreachable w) (ui_owned w).

(** A message handed to the renderer, with the value [gProUnreachable]
    holds when it is handled and the two clock readings. *)
Record UiInput : Type := mkUiInput {
  in_msg : UiMsg;
  in_down : bool;
  in_ms_title : Z;
  in_ms_tick : Z
}.

(** The renderer handling messages one after the other, the network task
    having left the flag at [in_down] by the time each one is handled. *)
Fixpoint ui_feed (tft : Tft) (lay : Layout) (inputs : list UiInput) : Task unit :=
  match inputs with
  | [] => ret tt
  | i :: rest =>
      modify (set_gProUnreachable (in_down i)) ;;
      ui_handle tft lay (in_msg i) (in_ms_title i) (in_ms_tick i) ;;
      ui_feed tft lay rest
  end.

Definition card_colors (tr : list Event) : list Z :=
  flat_map (fun op => match op with PushCard _ panel _ _ _ => [panel] | _ => [] end)
           (pushes tr).

(** Turns of [loop()], one per sample. *)
Fixpoint run_loops (envs : list LoopEnv) : Task unit :=
  match envs with
  | [] => ret tt
  | env :: rest => loop env ;; run_loops rest
  end.

(** A piece of the sketch that is never suspended in a queue send, and
    that leaves a full queue as it found it. *)
Definition never_waits {A} (t : Task A) : Prop :=
  forall w,
    Forall (fun o => Queue.is_suspended o = false) (send_outcomes (trace_of (t w)))
    /\ ((CMDQ_LEN <= List.length (cmdQ w))%nat -> cmdQ (world_of (t w)) = cmdQ w)
    /\ ((UIQ_LEN <= List.length (uiQ w))%nat -> uiQ (world_of (t w)) = uiQ w).

(** Whether [ensureWiFi] reports the link as up. *)
Definition link_up (env : NetEnv) (w : World) : bool := result_of (ensureWiFi env w).

(** The reply makes a trigger request count as done: the GET went through
    with a positive code and the code is 204. *)
Definition trigger_accepted (r : HttpReply) : bool :=
  begin_ok r && (0 <? get_code r) && (get_code r =? HTTP_CODE_NO_CONTENT).

(** The [code] variable of the trigger case after [httpGET_once]. *)
Definition raw_code (r : HttpReply) : Z :=
  if begin_ok r then get_code r else -1000.

Definition is_trigger (c : CmdType) : bool :=
  match c with
  | CMD_NEXT | CMD_PREV | CMD_HOME0 => true
  | _ => false
  end.

Definition mentions_failure (m : UiMsg) : bool := C.strstr (text m) "Request Failed".

(** Marquee ticks at the given clock readings, one after the other. *)
Fixpoint tick_all (lay : Layout) (times : list Z) : Task unit :=
  match times with
  | [] => ret tt
  | t :: rest => drawTitleMarqueeTick lay t ;; tick_all lay rest
  end.

(** Each reading is at least the 75 ms period after the one before. *)
Fixpoint each_elapsed (last : Z) (times : list Z) : Prop :=
  match times with
  | [] => True
  | t :: rest => 75 <= C.u32_sub t last /\ each_elapsed t rest
  end.


(* ------------------------------------------------------------------ *)
(** ** Vocabulary of the further properties *)

(** A piece of the sketch that leaves the part [proj] of the world as it
    found it and causes only events that [ok] admits. *)
Definition keeps {A B} (proj : World -> B) (ok : Event -> bool) (t : Task A) : Prop :=
  forall w, proj (world_of (t w)) = proj w /\ forallb ok (trace_of (t w)) = true.

(** What the network task owns besides the flag. *)
Definition net_locals (w : World) : Z * Z * Z :=
  (lastAttemptMs w, nextForcedPoll w, lastBgPoll w).

(** The statics of [loop()]. *)
Definition loop_statics (w : World) : Z * bool := (lastNetKick w, lastConn w).

Definition is_push (e : Event) : bool :=
  match e with EvPush _ => true | _ => false end.

Definition is_network_io (e : Event) : bool :=
  match e with EvHttpGet _ | EvWifiBegin => true | _ => false end.

Definition is_cmd_send (e : Event) : bool :=
  match e with EvCmdSend _ _ => true | _ => false end.

Definition is_ui_send (e : Event) : bool :=
  match e with EvUiSend _ _ => true | _ => false end.

(** What the network task must not touch: the command queue contents are
    its input, the rest belongs to other tasks. *)
Definition outside_net (w : World) : list CmdMsg * (Z * bool) * Z * World :=
  (cmdQ w, loop_statics w, millisTime w, ui_owned w).

(** What the renderer must not touch. *)
Definition outside_ui (w : World) : list CmdMsg * list UiMsg * bool * (Z * Z * Z) * (Z * bool) * Z :=
  (cmdQ w, uiQ w, gProUnreachable w, net_locals w, loop_statics w, millisTime w).

(** The ticks a trace spends in [vTaskDelay]. *)
Definition total_delay (tr : list Event) : Z :=
  fold_right Z.add 0 (flat_map (fun e => match e with EvDelay t => [t] | _ => [] end) tr).

(** The connection attempt of [ensureWiFi] sees the link come up at one of
    its ten looks. *)
Definition comes_up (probe : nat -> bool) (from n : nat) : Prop :=
  exists j, (from <= j < from + n)%nat /\ probe j = true.

Definition poll_url : string := baseUrl ++ "/v1/presentation/slide_index".

(** The text [pollSlideOnce] leaves in [errMsg]. *)
Definition poll_error (parse : string -> JSONVar) (r : HttpReply) (errMsg : string) : string :=
  if poll_succeeds parse r then errMsg
  else if negb (begin_ok r && (0 <? get_code r)) then "Poll fail"
  else if get_code r =? HTTP_CODE_OK then "Bad JSON"
  else "HTTP".

Definition slide_updates (tr : list Event) : list UiMsg :=
  filter is_slide_update (ui_offered tr).

(** The endpoint and the success text of a trigger command. *)
Definition trigger_url (c : CmdType) : string :=
  baseUrl ++ match c with
             | CMD_NEXT => "/v1/trigger/next"
             | CMD_PREV => "/v1/trigger/previous"
             | CMD_HOME0 => "/v1/presentation/active/0/trigger"
             | _ => ""
             end.

Definition trigger_done (c : CmdType) : string :=
  match c with
  | CMD_NEXT => "NEXT OK"
  | CMD_PREV => "PREV OK"
  | CMD_HOME0 => "HOME OK"
  | _ => ""
  end.

Definition not_slide_send (e : Event) : bool :=
  match e with
  | EvUiSend m _ => negb (is_slide_update m)
  | _ => true
  end.



(** The two poll checks of a turn of [httpTask], after the commands. *)
Definition forced_poll_part (parse : string -> JSONVar) (forced : NetEnv) (now : Z)
  : Task unit :=
  nfp <- get nextForcedPoll ;;
  when (negb (nfp =? 0) && (nfp <=? now))
       (modify (set_nextForcedPoll 0) ;;
        linked <- ensureWiFi forced ;;
        if linked then poll_with_retry parse forced else ret tt).

Definition bg_poll_part (parse : string -> JSONVar) (bg : NetEnv) (now : Z) (didWork : bool)
  : Task unit :=
  lbp <- get lastBgPoll ;;
  when (negb didWork && (kPollIntervalTicks <=? C.u32_sub now lbp))
       (modify (set_lastBgPoll now) ;;
        linked <- ensureWiFi bg ;;
        if linked then poll_with_retry parse bg else ret tt).

(** The texts of the WifiState messages a trace offers, in order. *)
Definition wifi_texts (tr : list Event) : list string :=
  map text (filter (fun m => UiType_eqb (ui_type m) UI_WIFI) (ui_offered tr)).

(** Announcements that alternate, starting from the opposite of [conn]. *)
Fixpoint alternates (conn : bool) (texts : list string) : Prop :=
  match texts with
  | [] => True
  | t :: rest => t = (if conn then "No Wi-Fi" else "Wi-Fi OK") /\ alternates (negb conn) rest
  end.

(** The message fits the two 64-byte fields of [UiMsg]. *)
Definition fits_fields (m : UiMsg) : bool :=
  (String.length (text m) <=? 63)%nat && (String.length (presName m) <=? 63)%nat.

Definition sends_fitting (e : Event) : bool :=
  match e with EvUiSend m _ => fits_fields m | _ => true end.

Definition sends_good (e : Event) : bool :=
  match e with EvUiSend m _ => status_color (text m) =? COL_GOOD | _ => true end.

(** A character that starts none of the positive markers of the colour
    rule ("OK", "Connected", "NEXT", "PREV", "HOME", "Wi-Fi"). *)
Definition starts_no_marker (c : ascii) : bool :=
  negb (existsb (Ascii.eqb c) ["O"; "C"; "N"; "P"; "H"; "W"]%char).

Fixpoint all_chars (p : ascii -> bool) (s : string) : bool :=
  match s with
  | EmptyString => true
  | String c s' => p c && all_chars p s'
  end.

(* ================================================================== *)
(** * Properties *)

(** ** Basic facts about the primitives *)

Lemma wrap_int_small (z : Z) :
  C.INT_MIN <= z <= C.INT_MAX -> C.wrap_int z = z.
Proof.
  unfold C.wrap_int, C.INT_MIN, C.INT_MAX. intros H.
  rewrite Z.mod_small; lia.
Qed.

Lemma take_length (n : nat) (s : string) :
  String.length (C.take n s) = Nat.min n (String.length s).
Proof.
  revert s. induction n as [|n IH]; intros [|c s]; simpl; auto.
Qed.

Lemma take_all (n : nat) (s : string) :
  (String.length s <= n)%nat -> C.take n s = s.
Proof.
  revert s. induction n as [|n IH]; intros [|c s]; simpl; intros H; try lia; auto.
  f_equal. apply IH. lia.
Qed.

Lemma prefix_split (p s : string) :
  String.prefix p s = true <-> exists post, s = p ++ post.
Proof.
  revert s. induction p as [|a p IH]; intros s; simpl.
  - split; [intros _; now exists s | destruct s; auto].
  - destruct s as [|b s].
    + split; [discriminate | intros [post H]; discriminate].
    + simpl. destruct (ascii_dec a b) as [->|Hab].
      * rewrite IH. split; intros [post H]; exists post.
        -- now rewrite H.
        -- now inversion H.
      * split; [discriminate | intros [post H]; inversion H; subst; now elim Hab].
Qed.

(** [strstr] finds the needle exactly when it occurs somewhere in the text. *)
Lemma strstr_occurs (hay needle : string) :
  C.strstr hay needle = true <-> exists pre post, hay = pre ++ needle ++ post.
Proof.
  induction hay as [|c hay IH].
  - change (C.strstr "" needle) with (if String.prefix needle "" then true else false).
    destruct (String.prefix needle "") eqn:E.
    + split; [intros _ | reflexivity]. apply prefix_split in E.
      destruct E as [post E]. exists "", post. exact E.
    + split; [discriminate|]. intros [pre [post H]].
      destruct pre; simpl in H; [|discriminate].
      assert (String.prefix needle "" = true) by (apply prefix_split; now exists post).
      congruence.
  - change (C.strstr (String c hay) needle)
      with (if String.prefix needle (String c hay) then true else C.strstr hay needle).
    destruct (String.prefix needle (String c hay)) eqn:E.
    + split; [intros _ | reflexivity]. apply prefix_split in E.
      destruct E as [post E]. exists "", post. exact E.
    + rewrite IH. split.
      * intros [pre [post H]]. exists (String c pre), post. simpl. now rewrite H.
      * intros [pre [post H]]. destruct pre as [|d pre]; simpl in H.
        -- assert (String.prefix needle (String c hay) = true)
             by (apply prefix_split; now exists post).
           congruence.
        -- inversion H. now exists pre, post.
Qed.

Lemma UiMsg_eqb_eq (a b : UiMsg) : UiMsg_eqb a b = true <-> a = b.
Proof.
  destruct a as [ta xa ia na], b as [tb xb ib nb]. unfold UiMsg_eqb. simpl.
  rewrite !andb_true_iff, !String.eqb_eq, Z.eqb_eq. split.
  - intros [[[Ht ->] ->] ->]. destruct ta, tb; try discriminate; reflexivity.
  - intros H. inversion H. subst. destruct tb; auto.
Qed.

(** ** The poll ([pollSlideOnce]) *)

Ltac run_poll :=
  cbn -[JSON.hasOwnProperty JSON.get JSON.typeof JSON.to_int JSON.to_cstr
        C.iadd String.eqb C.take Queue.xQueueSend baseUrl].

Section PollFacts.

Variable parse : string -> JSONVar.

(** A reply with success status whose body does not parse: failure, the
    Unreachable transition, and nothing but the banner is offered. *)
Lemma poll_unparsable (r : HttpReply) (errMsg : string) (w : World) :
  begin_ok r = true -> get_code r = HTTP_CODE_OK ->
  JSON.typeof (parse (get_string r)) = "undefined" ->
  let out := pollSlideOnce parse r errMsg w in
  result_of out = (false, "Bad JSON")
  /\ gProUnreachable (world_of out) = true
  /\ ui_offered (trace_of out) =
       (if gProUnreachable w then [] else [msg_unreachable]).
Proof.
  intros Hb Hc Ht. unfold pollSlideOnce, httpGET_once. rewrite Hb, Hc.
  apply String.eqb_eq in Ht. run_poll. rewrite Ht.
  destruct (gProUnreachable w) eqn:E; run_poll; rewrite ?E; auto.
Qed.

(** A reply with success status whose body parses: success, the Reachable
    transition, and one SlideUpdate whose index is -1 without an index
    field and whose title is empty without a name field. *)
Lemma poll_parsed (r : HttpReply) (errMsg : string) (w : World) :
  begin_ok r = true -> get_code r = HTTP_CODE_OK ->
  JSON.typeof (parse (get_string r)) <> "undefined" ->
  let obj := parse (get_string r) in
  let out := pollSlideOnce parse r errMsg w in
  result_of out = (true, errMsg)
  /\ gProUnreachable (world_of out) = false
  /\ exists idx1 title,
       ui_offered (trace_of out) =
         ((if gProUnreachable w then [msg_connected] else [])
            ++ [slide_msg idx1 title])%list
       /\ (index_present obj = false -> idx1 = -1)
       /\ (name_present obj = false -> title = "").
Proof.
  intros Hb Hc Ht. unfold pollSlideOnce, httpGET_once, index_present, name_present.
  rewrite Hb, Hc. apply String.eqb_neq in Ht. run_poll. rewrite Ht.
  destruct (JSON.hasOwnProperty (parse (get_string r)) "presentation_index");
    run_poll.
  - destruct (JSON.hasOwnProperty _ "index"),
             (JSON.hasOwnProperty _ "presentation_id"); run_poll;
      try destruct (JSON.hasOwnProperty _ "name"); run_poll;
      (destruct (gProUnreachable w) eqn:E; run_poll; rewrite ?E;
       repeat split; eauto 7; eexists _, _; repeat split; eauto; discriminate).
  - destruct (gProUnreachable w) eqn:E; run_poll; rewrite ?E;
      repeat split; eauto; exists (-1), ""; auto.
Qed.

End PollFacts.

(** C1, as the code has it.  For every poll whose reply has the success
    status: a body that does not parse makes the poll fail, applies the
    Unreachable transition (flag set, banner offered unless already
    unreachable) and offers no SlideUpdate; a body that parses but lacks the
    index or the name field is NOT a failure: the poll returns success,
    clears the unreachable flag and offers a SlideUpdate, with index -1 when
    the index is absent and an empty title when the name is absent. *)
Theorem poll_success_status_outcomes
        (parse : string -> JSONVar) (r : HttpReply) (errMsg : string) (w : World) :
  begin_ok r = true -> get_code r = HTTP_CODE_OK ->
  let obj := parse (get_string r) in
  let out := pollSlideOnce parse r errMsg w in
  (JSON.typeof obj = "undefined" ->
     result_of out = (false, "Bad JSON")
     /\ gProUnreachable (world_of out) = true
     /\ ui_offered (trace_of out) = (if gProUnreachable w then [] else [msg_unreachable])
     /\ filter is_slide_update (ui_offered (trace_of out)) = [])
  /\ (JSON.typeof obj <> "undefined" ->
      index_present obj = false \/ name_present obj = false ->
      result_of out = (true, errMsg)
      /\ gProUnreachable (world_of out) = false
      /\ exists idx1 title,
           ui_offered (trace_of out) =
             ((if gProUnreachable w then [msg_connected] else [])
                ++ [slide_msg idx1 title])%list
           /\ (index_present obj = false -> idx1 = -1)
           /\ (name_present obj = false -> title = "")).
Proof.
  intros Hb Hc obj out. split.
  - intros Ht. destruct (poll_unparsable parse r errMsg w Hb Hc Ht) as (H1 & H2 & H3).
    repeat split; auto. fold out in H3. rewrite H3.
    destruct (gProUnreachable w); reflexivity.
  - intros Ht _. exact (poll_parsed parse r errMsg w Hb Hc Ht).
Qed.

Lemma poll_success_status_outcomes_witness :
  begin_ok (mkReply true 200 "{}") = true
  /\ get_code (mkReply true 200 "{}") = HTTP_CODE_OK
  /\ result_of (pollSlideOnce sample_parse (mkReply true 200 "{}") "" World_init)
     = (true, "").
Proof.
  split; [reflexivity | split; [reflexivity|]].
  destruct (poll_success_status_outcomes sample_parse (mkReply true 200 "{}") ""
              World_init eq_refl eq_refl) as [_ H].
  apply H.
  - discriminate.
  - left. reflexivity.
Defined.

(** C1 as stated fails: the body [{}] has status 200 and neither field, yet
    the poll returns success, leaves the flag clear and offers a
    SlideUpdate. *)
Lemma malformed_poll_counterexample :
  let r := mkReply true 200 "{}" in
  let out := pollSlideOnce sample_parse r "" World_init in
  index_present (sample_parse (get_string r)) = false
  /\ name_present (sample_parse (get_string r)) = false
  /\ ~ (fst (result_of out) = false
        /\ gProUnreachable (world_of out) = true
        /\ filter is_slide_update (ui_offered (trace_of out)) = []).
Proof.
  repeat split. intros (H & _). vm_compute in H. discriminate.
Qed.

(** ** Reachability banners *)

Section BannerFacts.

Variable parse : string -> JSONVar.

Lemma poll_failure_effect (r : HttpReply) (errMsg : string) (w : World) :
  poll_succeeds parse r = false ->
  let out := pollSlideOnce parse r errMsg w in
  fst (result_of out) = false
  /\ gProUnreachable (world_of out) = true
  /\ ui_offered (trace_of out) = (if gProUnreachable w then [] else [msg_unreachable]).
Proof.
  unfold poll_succeeds, pollSlideOnce, httpGET_once. intros H.
  destruct (begin_ok r); run_poll.
  - destruct (0 <? get_code r); run_poll.
    + destruct (get_code r =? HTTP_CODE_OK); run_poll.
      * simpl in H. apply negb_false_iff in H. rewrite H.
        destruct (gProUnreachable w) eqn:E; run_poll; rewrite ?E; auto.
      * destruct (gProUnreachable w) eqn:E; run_poll; rewrite ?E; auto.
    + destruct (gProUnreachable w) eqn:E; run_poll; rewrite ?E; auto.
  - destruct (gProUnreachable w) eqn:E; run_poll; rewrite ?E; auto.
Qed.

Lemma poll_success_effect (r : HttpReply) (errMsg : string) (w : World) :
  poll_succeeds parse r = true ->
  let out := pollSlideOnce parse r errMsg w in
  fst (result_of out) = true
  /\ gProUnreachable (world_of out) = false
  /\ exists idx1 title,
       ui_offered (trace_of out) =
         ((if gProUnreachable w then [msg_connected] else [])
            ++ [slide_msg idx1 title])%list.
Proof.
  unfold poll_succeeds. rewrite !andb_true_iff, negb_true_iff.
  intros [[[Hb Hp] Hc] Ht]. apply Z.eqb_eq in Hc. apply String.eqb_neq in Ht.
  destruct (poll_parsed parse r errMsg w Hb Hc Ht) as (H1 & H2 & idx1 & title & H3 & _).
  cbv zeta. rewrite H1. repeat split; auto. now exists idx1, title.
Qed.

End BannerFacts.

Lemma trace_bind {A B} (m : Task A) (k : A -> Task B) (w : World) :
  trace_of (bind m k w)
  = (trace_of (m w) ++ trace_of (k (result_of (m w)) (world_of (m w))))%list.
Proof. reflexivity. Qed.

Lemma world_bind {A B} (m : Task A) (k : A -> Task B) (w : World) :
  world_of (bind m k w) = world_of (k (result_of (m w)) (world_of (m w))).
Proof. reflexivity. Qed.

Lemma result_bind {A B} (m : Task A) (k : A -> Task B) (w : World) :
  result_of (bind m k w) = result_of (k (result_of (m w)) (world_of (m w))).
Proof. reflexivity. Qed.

Lemma ui_offered_app (t1 t2 : list Event) :
  ui_offered (t1 ++ t2) = (ui_offered t1 ++ ui_offered t2)%list.
Proof. apply flat_map_app. Qed.

Lemma ui_enqueued_app (t1 t2 : list Event) :
  ui_enqueued (t1 ++ t2) = (ui_enqueued t1 ++ ui_enqueued t2)%list.
Proof. apply flat_map_app. Qed.

Lemma count_msg_app (m : UiMsg) (l1 l2 : list UiMsg) :
  count_msg m (l1 ++ l2) = (count_msg m l1 + count_msg m l2)%nat.
Proof. unfold count_msg. now rewrite filter_app, length_app. Qed.

(** What reaches the queue is part of what was offered. *)
Lemma enqueued_le_offered (m : UiMsg) (tr : list Event) :
  (count_msg m (ui_enqueued tr) <= count_msg m (ui_offered tr))%nat.
Proof.
  induction tr as [|e tr IH]; [apply Nat.le_refl|].
  change (e :: tr) with ([e] ++ tr)%list.
  rewrite ui_enqueued_app, ui_offered_app, !count_msg_app.
  apply Nat.add_le_mono; [|exact IH].
  destruct e as [u o| | | | |]; try apply Nat.le_refl.
  destruct o; simpl; unfold count_msg; simpl; try destruct (UiMsg_eqb m u); simpl; lia.
Qed.

Lemma count_banner_self :
  count_msg msg_unreachable [msg_unreachable] = 1%nat
  /\ count_msg msg_connected [msg_connected] = 1%nat.
Proof. split; reflexivity. Qed.

Lemma count_banner_slide (m : UiMsg) (idx1 : Z) (title : string) :
  ui_type m = UI_STATUS -> count_msg m [slide_msg idx1 title] = 0%nat.
Proof. intros H. unfold count_msg, UiMsg_eqb. simpl. now rewrite H. Qed.

Section RunFacts.

Variable parse : string -> JSONVar.

Lemma run_steps_app (a b : list Step) (w : World) :
  trace_of (run_steps parse (a ++ b) w)
  = (trace_of (run_steps parse a w)
       ++ trace_of (run_steps parse b (world_of (run_steps parse a w))))%list
  /\ world_of (run_steps parse (a ++ b) w)
     = world_of (run_steps parse b (world_of (run_steps parse a w))).
Proof.
  revert w. induction a as [|s a IH]; intros w; [split; reflexivity|].
  change (run_steps parse ((s :: a) ++ b))
    with (run_step parse s ;; run_steps parse (a ++ b)).
  change (run_steps parse (s :: a)) with (run_step parse s ;; run_steps parse a).
  rewrite !trace_bind, !world_bind.
  destruct (IH (world_of (run_step parse s w))) as [Ht Hw].
  rewrite Ht, Hw, app_assoc. split; reflexivity.
Qed.

Lemma run_step_poll (r : HttpReply) (w : World) :
  trace_of (run_step parse (StPoll r) w) = trace_of (pollSlideOnce parse r "" w)
  /\ world_of (run_step parse (StPoll r) w) = world_of (pollSlideOnce parse r "" w).
Proof.
  unfold run_step. rewrite trace_bind, world_bind. split; [apply app_nil_r | reflexivity].
Qed.

Lemma failing_run_banner (run : list Step) (w : World) :
  all_polls (fun r => negb (poll_succeeds parse r)) run ->
  (count_msg msg_unreachable (ui_offered (trace_of (run_steps parse run w)))
   <= if gProUnreachable w then 0 else 1)%nat.
Proof.
  revert w. induction run as [|s run IH]; intros w Hall.
  - cbn. destruct (gProUnreachable w); lia.
  - change (run_steps parse (s :: run)) with (run_step parse s ;; run_steps parse run).
    rewrite trace_bind, ui_offered_app, count_msg_app.
    assert (Hrest : all_polls (fun r => negb (poll_succeeds parse r)) run)
      by (intros r Hr; apply Hall; now right).
    specialize (IH (world_of (run_step parse s w)) Hrest).
    destruct s as [r|].
    + destruct (run_step_poll r w) as [Ht Hw]. rewrite Ht, Hw. rewrite Hw in IH.
      assert (Hf : poll_succeeds parse r = false)
        by (apply negb_true_iff, Hall; now left).
      destruct (poll_failure_effect parse r "" w Hf) as (_ & Hflag & Hoff).
      rewrite Hflag in IH. rewrite Hoff.
      destruct (gProUnreachable w);
        [change (count_msg msg_unreachable []) with 0%nat
        | rewrite (proj1 count_banner_self)]; lia.
    + cbn in IH |- *. exact IH.
Qed.

Lemma succeeding_run_banner (run : list Step) (w : World) :
  all_polls (poll_succeeds parse) run ->
  (count_msg msg_connected (ui_offered (trace_of (run_steps parse run w)))
   <= if gProUnreachable w then 1 else 0)%nat.
Proof.
  revert w. induction run as [|s run IH]; intros w Hall.
  - cbn. destruct (gProUnreachable w); lia.
  - change (run_steps parse (s :: run)) with (run_step parse s ;; run_steps parse run).
    rewrite trace_bind, ui_offered_app, count_msg_app.
    assert (Hrest : all_polls (poll_succeeds parse) run)
      by (intros r Hr; apply Hall; now right).
    specialize (IH (world_of (run_step parse s w)) Hrest).
    destruct s as [r|].
    + destruct (run_step_poll r w) as [Ht Hw]. rewrite Ht, Hw. rewrite Hw in IH.
      assert (Hs : poll_succeeds parse r = true) by (apply Hall; now left).
      destruct (poll_success_effect parse r "" w Hs)
        as (_ & Hflag & idx1 & title & Hoff).
      rewrite Hflag in IH. rewrite Hoff, count_msg_app.
      rewrite (count_banner_slide msg_connected idx1 title eq_refl).
      destruct (gProUnreachable w);
        [rewrite (proj2 count_banner_self)
        | change (count_msg msg_connected []) with 0%nat]; lia.
    + cbn in IH |- *. exact IH.
Qed.

End RunFacts.

(** C2.  Take any sequence of polls and renderer receives and any
    contiguous part [run] of it.  The trace of the whole sequence is the
    trace before, the trace of [run] and the trace after; if every poll in
    [run] fails, the "Pro Unreachable" status is offered, and so enqueued,
    at most once within [run]; if every poll in [run] succeeds, the same
    holds for "Pro Connected". *)
Theorem banner_at_most_once_per_run
        (parse : string -> JSONVar) (w : World) (pre run post : list Step) :
  let w1 := world_of (run_steps parse pre w) in
  let w2 := world_of (run_steps parse run w1) in
  let seg := trace_of (run_steps parse run w1) in
  trace_of (run_steps parse (pre ++ run ++ post) w)
  = (trace_of (run_steps parse pre w) ++ seg ++ trace_of (run_steps parse post w2))%list
  /\ (all_polls (fun r => negb (poll_succeeds parse r)) run ->
      (count_msg msg_unreachable (ui_offered seg) <= 1)%nat
      /\ (count_msg msg_unreachable (ui_enqueued seg) <= 1)%nat)
  /\ (all_polls (poll_succeeds parse) run ->
      (count_msg msg_connected (ui_offered seg) <= 1)%nat
      /\ (count_msg msg_connected (ui_enqueued seg) <= 1)%nat).
Proof.
  intros w1 w2 seg. split; [|split].
  - destruct (run_steps_app parse pre (run ++ post) w) as [Ht _]. rewrite Ht.
    destruct (run_steps_app parse run post w1) as [Ht' _]. fold w1. rewrite Ht'.
    reflexivity.
  - intros Hall.
    assert (H := failing_run_banner parse run w1 Hall). fold seg in H.
    assert (H' := enqueued_le_offered msg_unreachable seg).
    destruct (gProUnreachable w1); lia.
  - intros Hall.
    assert (H := succeeding_run_banner parse run w1 Hall). fold seg in H.
    assert (H' := enqueued_le_offered msg_connected seg).
    destruct (gProUnreachable w1); lia.
Qed.

Lemma banner_at_most_once_per_run_witness :
  let run := [StPoll (mkReply false 0 ""); StTake; StPoll (mkReply true 500 "")] in
  let w1 := world_of (run_steps sample_parse [StPoll (mkReply true 200 "{}")] World_init) in
  all_polls (fun r => negb (poll_succeeds sample_parse r)) run
  /\ (count_msg msg_unreachable
        (ui_enqueued (trace_of (run_steps sample_parse run w1))) <= 1)%nat.
Proof.
  intros run w1.
  assert (Hall : all_polls (fun r => negb (poll_succeeds sample_parse r)) run).
  { unfold all_polls, run. simpl.
    intros r [H | [H | [H | []]]]; inversion H; reflexivity. }
  split; [exact Hall|].
  destruct (banner_at_most_once_per_run sample_parse World_init
              [StPoll (mkReply true 200 "{}")] run []) as (_ & Hfail & _).
  apply (Hfail Hall).
Defined.

(** Two polls in a row that both fail at transport level, starting
    reachable: one banner in all. *)
Example two_failed_polls_one_banner :
  let fail := mkReply true (-1) "" in
  ui_enqueued (trace_of (run_steps sample_parse [StPoll fail; StPoll fail] World_init))
  = [msg_unreachable].
Proof. reflexivity. Qed.

(** ** Recovery poll *)


Section RecoveryFacts.

Variable parse : string -> JSONVar.


End RecoveryFacts.




(** ** Card font selection *)

Section CardFacts.

Variable tft : Tft.
Variable lay : Layout.

Lemma first_fit_sound (p : Z -> bool) (cs : list Z) :
  first_fit p cs <> 0 -> p (first_fit p cs) = true /\ In (first_fit p cs) cs.
Proof.
  induction cs as [|c cs IH]; simpl; [congruence|].
  destruct (p c) eqn:E; [auto|]. intros H. destruct (IH H). auto.
Qed.

Lemma first_fit_none (p : Z -> bool) (cs : list Z) :
  ~ In 0 cs -> first_fit p cs = 0 -> forall c, In c cs -> p c = false.
Proof.
  induction cs as [|c cs IH]; simpl; [tauto|].
  intros Hz. destruct (p c) eqn:E.
  - intros ->. tauto.
  - intros H0 d [<- | Hd]; auto.
Qed.

(** When one of the four fonts fits, the card uses the first that does,
    at text size 1, and the digits are inside the inner box. *)
Lemma card_font_fits (buf : string) :
  first_fit (fits tft lay buf) [8; 6; 4; 2] <> 0 ->
  let chosen := card_font_scale tft lay buf in
  snd chosen = 1
  /\ measured_width tft buf (fst chosen) (snd chosen) <= card_maxW lay
  /\ measured_height tft (fst chosen) (snd chosen) <= card_maxH lay.
Proof.
  intros Hne. destruct (first_fit_sound _ _ Hne) as [Hfit Hin].
  unfold card_font_scale. cbv zeta.
  destruct Hin as [H | [H | [H | [H | []]]]]; rewrite <- H in *; simpl;
    unfold measured_width, measured_height, fits in *;
    apply andb_true_iff in Hfit as [Hw Hh]; apply Z.leb_le in Hw, Hh;
    repeat split; lia.
Qed.

(** When none of the four fonts fits, the fallback computes text size 1
    for font 2, whatever the box: the digits are drawn at the size that
    was just found not to fit. *)
Lemma card_fallback_size_one (buf : string) :
  first_fit (fits tft lay buf) [8; 6; 4; 2] = 0 ->
  card_font_scale tft lay buf = (2, 1)
  /\ (card_maxW lay < measured_width tft buf 2 1
      \/ card_maxH lay < measured_height tft 2 1).
Proof.
  intros H0.
  assert (Hno : fits tft lay buf 2 = false).
  { apply (first_fit_none _ [8; 6; 4; 2]); simpl; auto.
    intros [H | [H | [H | [H | []]]]]; discriminate. }
  assert (Hbig : card_maxW lay < textWidth tft 2 buf
                 \/ card_maxH lay < fontHeight tft 2).
  { unfold fits in Hno. apply andb_false_iff in Hno as [H | H];
      apply Z.leb_gt in H; auto. }
  split.
  - unfold card_font_scale. rewrite H0. simpl.
    set (sx := if 0 <? textWidth tft 2 buf
               then (inject_Z (card_maxW lay) / inject_Z (textWidth tft 2 buf))%Q
               else 1%Q).
    set (sy := if 0 <? fontHeight tft 2
               then (inject_Z (card_maxH lay) / inject_Z (fontHeight tft 2))%Q
               else 1%Q).
    assert (Hq : forall a b : Z, a < b ->
               ((if 0 <? b then inject_Z a / inject_Z b else 1) <= 1)%Q).
    { intros a b Hab. destruct (Z.ltb_spec 0 b) as [Hb | Hb]; [|apply Qle_refl].
      apply Qle_shift_div_r.
      - change 0%Q with (inject_Z 0). now rewrite <- Zlt_Qlt.
      - rewrite Qmult_1_l. rewrite <- Zle_Qle. lia. }
    assert (Hmin : (Qmin sx sy <= 1)%Q).
    { destruct Hbig as [Hw | Hh].
      - eapply Qle_trans; [apply Q.le_min_l | apply Hq, Hw].
      - eapply Qle_trans; [apply Q.le_min_r | apply Hq, Hh]. }
    apply Qfloor_resp_le in Hmin. change (Qfloor 1) with 1 in Hmin.
    destruct (Z.ltb_spec (Qfloor (Qmin sx sy)) 1); [reflexivity | f_equal; lia].
  - unfold measured_width, measured_height. lia.
Qed.

End CardFacts.


(** On the 135 by 240 panel every slide number finds a font: the buffer
    holds at most seven digits, 56 pixels in font 2, and the box is 115
    pixels wide. *)
Example card_fits_on_stick :
  let lay := initLayoutAndSprites stick_tft in
  card_font_scale stick_tft lay (card_digits 7) = (8, 1)
  /\ card_font_scale stick_tft lay (card_digits 123) = (6, 1)
  /\ card_font_scale stick_tft lay (card_digits 2147483647) = (4, 1)
  /\ card_font_scale stick_tft lay (card_digits (-1)) = (8, 1).
Proof. vm_compute. repeat split. Qed.

(** ** Status colour and the Wi-Fi flag *)

Lemma strstr_false (txt needle : string) :
  C.strstr txt needle = false <-> ~ occurs needle txt.
Proof.
  unfold occurs. rewrite <- strstr_occurs.
  destruct (C.strstr txt needle); split; congruence.
Qed.

Ltac run_ui :=
  cbn -[card_font_scale card_digits status_color C.strstr C.take String.eqb
        C.u32_sub C.iadd C.isub C.imul C.idiv Z.leb Z.ltb Z.eqb Z.div].

Section UiFacts.

Variable tft : Tft.
Variable lay : Layout.

(** Everything [uiTask] does with a StatusText or WifiState message. *)
Lemma ui_handle_text (msg : UiMsg) (t1 t2 : Z) (w : World) :
  ui_type msg <> UI_SLIDE ->
  let wifi := if UiType_eqb (ui_type msg) UI_WIFI
              then C.strstr (text msg) "OK" || C.strstr (text msg) "Connected"
              else wifiConnected w in
  let reachable := wifi && negb (gProUnreachable w) in
  let changed := C.strcmp_ne (lastStatus w) (text msg) in
  let flipped := negb (Bool.eqb reachable (lastReachable w)) in
  let out := ui_handle tft lay msg t1 t2 w in
  pushes (trace_of out)
  = ((if changed
      then [PushStatus (C.take 63 (text msg)) COL_BG (status_color (text msg))]
      else [])
       ++ (if flipped then [card_push tft lay (lastSlide w) (card_color reachable)] else []))%list
  /\ wifiConnected (world_of out) = wifi
  /\ lastStatus (world_of out) = (if changed then C.take 63 (text msg) else lastStatus w)
  /\ lastReachable (world_of out) = reachable
  /\ lastSlide (world_of out) = lastSlide w
  /\ lastTitle (world_of out) = lastTitle w
  /\ gMarq (world_of out) = gMarq w
  /\ gProUnreachable (world_of out) = gProUnreachable w.
Proof.
  intros Hty. unfold ui_handle, C.strcmp_ne, card_push, card_color.
  destruct w as [cq uq down mt mq la nf lb lk lc ls lt lst wc lr].
  destruct (ui_type msg) eqn:Ety; [ | congruence | ]; run_ui;
    destruct (String.eqb lst (text msg)); run_ui;
    try destruct (C.strstr (text msg) "OK" || C.strstr (text msg) "Connected");
    destruct down, lr; try destruct wc; run_ui; repeat split.
Qed.

End UiFacts.

(** C10.  The status colour is picked by substring search, the positive
    markers first: a text in which one of "OK", "Connected", "NEXT", "PREV",
    "HOME", "Wi-Fi" occurs is good; otherwise one in which "Unreachable" or
    "Request Failed" occurs is bad; otherwise muted.  So every text in which
    "Wi-Fi" occurs, "No Wi-Fi" among them, is good.  A status or Wi-Fi
    message that is redrawn is pushed in that colour, and after a WifiState
    message the Wi-Fi flag is true exactly when "OK" or "Connected" occurs in
    its text (a StatusText leaves the flag alone). *)
Theorem status_color_and_wifi_flag
        (tft : Tft) (lay : Layout) (msg : UiMsg) (t1 t2 : Z) (w : World) :
  let txt := text msg in
  let positive := occurs "OK" txt \/ occurs "Connected" txt \/ occurs "NEXT" txt
                  \/ occurs "PREV" txt \/ occurs "HOME" txt \/ occurs "Wi-Fi" txt in
  let negative := occurs "Unreachable" txt \/ occurs "Request Failed" txt in
  let out := ui_handle tft lay msg t1 t2 w in
  (positive -> status_color txt = COL_GOOD)
  /\ (~ positive -> negative -> status_color txt = COL_BAD)
  /\ (~ positive -> ~ negative -> status_color txt = COL_MUTED)
  /\ (occurs "Wi-Fi" txt -> status_color txt = COL_GOOD)
  /\ status_color "No Wi-Fi" = COL_GOOD
  /\ (ui_type msg <> UI_SLIDE ->
      forall shown bg fg, In (PushStatus shown bg fg) (pushes (trace_of out)) ->
                          fg = status_color txt)
  /\ (ui_type msg = UI_WIFI ->
      (wifiConnected (world_of out) = true <-> occurs "OK" txt \/ occurs "Connected" txt))
  /\ (ui_type msg = UI_STATUS -> wifiConnected (world_of out) = wifiConnected w).
Proof.
  intros txt positive negative out.
  assert (Hpos : positive <->
                 C.strstr txt "OK" || C.strstr txt "Connected" ||
                 C.strstr txt "NEXT" || C.strstr txt "PREV" ||
                 C.strstr txt "HOME" || C.strstr txt "Wi-Fi" = true).
  { unfold positive, occurs. rewrite !orb_true_iff, !strstr_occurs. tauto. }
  assert (Hneg : negative <->
                 C.strstr txt "Unreachable" || C.strstr txt "Request Failed" = true).
  { unfold negative, occurs. rewrite !orb_true_iff, !strstr_occurs. tauto. }
  assert (Hgood : positive -> status_color txt = COL_GOOD).
  { intros H. apply Hpos in H. unfold status_color. now rewrite H. }
  assert (Hbad : ~ positive -> negative -> status_color txt = COL_BAD).
  { intros Hp Hn. unfold status_color.
    destruct (C.strstr txt "OK" || C.strstr txt "Connected" ||
              C.strstr txt "NEXT" || C.strstr txt "PREV" ||
              C.strstr txt "HOME" || C.strstr txt "Wi-Fi") eqn:E.
    - elim Hp. now apply Hpos.
    - apply Hneg in Hn. now rewrite Hn. }
  assert (Hmuted : ~ positive -> ~ negative -> status_color txt = COL_MUTED).
  { intros Hp Hn. unfold status_color.
    destruct (C.strstr txt "OK" || C.strstr txt "Connected" ||
              C.strstr txt "NEXT" || C.strstr txt "PREV" ||
              C.strstr txt "HOME" || C.strstr txt "Wi-Fi") eqn:E.
    - elim Hp. now apply Hpos.
    - destruct (C.strstr txt "Unreachable" || C.strstr txt "Request Failed") eqn:E'.
      + elim Hn. now apply Hneg.
      + reflexivity. }
  assert (Hwifi : occurs "Wi-Fi" txt -> status_color txt = COL_GOOD).
  { intros H. apply Hgood. unfold positive. tauto. }
  assert (Hpush : ui_type msg <> UI_SLIDE ->
                  forall shown bg fg,
                    In (PushStatus shown bg fg) (pushes (trace_of out)) ->
                    fg = status_color txt).
  { intros Hty shown bg fg Hin.
    destruct (ui_handle_text tft lay msg t1 t2 w Hty) as (Hp & _).
    fold out in Hp. rewrite Hp in Hin. apply in_app_or in Hin.
    destruct Hin as [Hin | Hin].
    - destruct (C.strcmp_ne (lastStatus w) (text msg)); simpl in Hin.
      + destruct Hin as [Hin | []]. now inversion Hin.
      + contradiction.
    - destruct (negb _); simpl in Hin;
        [destruct Hin as [Hin | []]; discriminate | contradiction]. }
  assert (Hflag : ui_type msg = UI_WIFI ->
                  (wifiConnected (world_of out) = true
                   <-> occurs "OK" txt \/ occurs "Connected" txt)).
  { intros Hty.
    assert (Hns : ui_type msg <> UI_SLIDE) by (rewrite Hty; discriminate).
    destruct (ui_handle_text tft lay msg t1 t2 w Hns) as (_ & Hw & _).
    fold out in Hw. rewrite Hw, Hty. simpl. unfold occurs.
    rewrite orb_true_iff, !strstr_occurs. tauto. }
  assert (Hkeep : ui_type msg = UI_STATUS ->
                  wifiConnected (world_of out) = wifiConnected w).
  { intros Hty.
    assert (Hns : ui_type msg <> UI_SLIDE) by (rewrite Hty; discriminate).
    destruct (ui_handle_text tft lay msg t1 t2 w Hns) as (_ & Hw & _).
    fold out in Hw. rewrite Hw, Hty. reflexivity. }
  exact (conj Hgood (conj Hbad (conj Hmuted (conj Hwifi
          (conj eq_refl (conj Hpush (conj Hflag Hkeep))))))).
Qed.

Lemma status_color_and_wifi_flag_witness :
  occurs "Wi-Fi" (text (wifi_msg "No Wi-Fi"))
  /\ status_color (text (wifi_msg "No Wi-Fi")) = COL_GOOD.
Proof.
  assert (H : occurs "Wi-Fi" (text (wifi_msg "No Wi-Fi")))
    by (exists "No ", ""; reflexivity).
  split; [exact H|].
  exact (proj1 (proj2 (proj2 (proj2
    (status_color_and_wifi_flag stick_tft (initLayoutAndSprites stick_tft)
       (wifi_msg "No Wi-Fi") 0 0 World_init)))) H).
Defined.

(** ** Title marquee *)

Section MarqueeFacts.

Variable tft : Tft.
Variable lay : Layout.

(** A tick pushes the title sprite once and touches nothing but [gMarq]. *)
Lemma title_tick_frame (now : Z) (w : World) :
  let out := drawTitleMarqueeTick lay now w in
  (exists op, trace_of out = [EvPush op] /\ region_of op = RTitle)
  /\ world_of out = set_gMarq (gMarq (world_of out)) w.
Proof.
  unfold drawTitleMarqueeTick.
  destruct w as [cq uq down mt [tx x wd nd ltk ps ip] la nf lb lk lc ls lt lst wc lr].
  destruct nd; run_ui.
  - destruct ip; run_ui.
    + destruct (500 <=? C.u32_sub now ps); run_ui; split; eauto.
    + destruct (75 <=? C.u32_sub now ltk); run_ui; [|split; eauto].
      destruct (_ <? _); run_ui; split; eauto.
  - split; eauto.
Qed.

End MarqueeFacts.

(** One elapsed tick of the scroll phase. *)
Lemma scroll_tick (lay : Layout) (now : Z) (w : World) :
  let m := gMarq w in
  let W := mq_w m in
  let S := 24 in
  mq_needed m = true -> mq_inPause m = false ->
  75 <= C.u32_sub now (mq_lastTick m) ->
  C.INT_MIN + 2 <= mq_x m <= C.INT_MAX ->
  C.INT_MIN + 24 < W <= C.INT_MAX - 24 ->
  let m' := gMarq (world_of (drawTitleMarqueeTick lay now w)) in
  (- (W + S) <= mq_x m - 2 ->
     mq_x m' = mq_x m - 2 /\ mq_x m' < mq_x m /\ mq_inPause m' = false)
  /\ (mq_x m - 2 < - (W + S) ->
      mq_x m' = 0 /\ mq_inPause m' = true /\ mq_pauseStart m' = now)
  /\ mq_w m' = W /\ mq_text m' = mq_text m /\ mq_needed m' = true
  /\ mq_lastTick m' = now.
Proof.
  intros m W S. subst m W S. unfold drawTitleMarqueeTick.
  destruct w as [cq uq down mt [tx x wd nd ltk ps ip] la nf lb lk lc ls lt lst wc lr].
  cbn [gMarq mq_needed mq_inPause mq_lastTick mq_x mq_w mq_text].
  intros -> -> Hel Hx Hw. run_ui.
  apply Z.leb_le in Hel. rewrite Hel. run_ui.
  assert (Hsub : C.isub x 2 = x - 2)
    by (apply wrap_int_small; unfold C.INT_MIN, C.INT_MAX in *; lia).
  assert (Hspan : C.isub 0 (C.iadd wd 24) = - (wd + 24)).
  { unfold C.isub, C.iadd. rewrite (wrap_int_small (wd + 24));
      [rewrite wrap_int_small|]; unfold C.INT_MIN, C.INT_MAX in *; lia. }
  rewrite Hsub, Hspan.
  destruct (Z.ltb_spec (x - 2) (- (wd + 24))); run_ui;
    repeat split; intros; try reflexivity; lia.
Qed.


(** C5.  In the scroll phase (scrolling needed, not pausing), on a tick for
    which the 75 ms period has elapsed, the offset goes down by exactly the
    2-pixel step and the scroll phase continues, unless the lowered offset
    is below [-(W + 24)]: then the offset is set to 0, the pause phase is
    entered and its start is the current time.  The text and its width do
    not change.  ([int] arithmetic is assumed not to overflow.) *)
Theorem marquee_scroll_step (lay : Layout) (now : Z) (w : World) :
  let m := gMarq w in
  let W := mq_w m in
  let S := 24 in
  mq_needed m = true -> mq_inPause m = false ->
  75 <= C.u32_sub now (mq_lastTick m) ->
  C.INT_MIN + 2 <= mq_x m <= C.INT_MAX ->
  C.INT_MIN + 24 < W <= C.INT_MAX - 24 ->
  let m' := gMarq (world_of (drawTitleMarqueeTick lay now w)) in
  (- (W + S) <= mq_x m - 2 ->
     mq_x m' = mq_x m - 2 /\ mq_x m' < mq_x m /\ mq_inPause m' = false)
  /\ (mq_x m - 2 < - (W + S) ->
      mq_x m' = 0 /\ mq_inPause m' = true /\ mq_pauseStart m' = now)
  /\ mq_w m' = W /\ mq_text m' = mq_text m /\ mq_needed m' = true
  /\ mq_lastTick m' = now.
Proof. exact (scroll_tick lay now w). Qed.

(** Ticks that have all elapsed, as long as the offset stays at or above
    [-(W + 24)]: after [k] of them the offset has gone down by [2 * k] and
    the marquee is still scrolling. *)
Lemma marquee_scroll_run (lay : Layout) (times : list Z) (w : World) :
  let m := gMarq w in
  mq_needed m = true -> mq_inPause m = false ->
  each_elapsed (mq_lastTick m) times ->
  C.INT_MIN + 24 < mq_w m <= C.INT_MAX - 24 ->
  mq_x m <= C.INT_MAX ->
  - (mq_w m + 24) <= mq_x m - 2 * Z.of_nat (List.length times) ->
  let m' := gMarq (world_of (tick_all lay times w)) in
  mq_x m' = mq_x m - 2 * Z.of_nat (List.length times)
  /\ mq_inPause m' = false /\ mq_needed m' = true /\ mq_w m' = mq_w m.
Proof.
  revert w. induction times as [|t rest IH]; intros w m Hn Hp Hel Hw Hx Hlow.
  - subst m. cbn in *. repeat split; try assumption; lia.
  - destruct Hel as [Ht Hrest].
    change (tick_all lay (t :: rest))
      with (drawTitleMarqueeTick lay t ;; tick_all lay rest).
    rewrite world_bind.
    assert (Hlen : Z.of_nat (List.length (t :: rest)) = 1 + Z.of_nat (List.length rest))
      by (simpl List.length; lia).
    rewrite Hlen in *.
    assert (Hx' : C.INT_MIN + 2 <= mq_x m <= C.INT_MAX)
      by (unfold C.INT_MIN, C.INT_MAX in *; lia).
    destruct (scroll_tick lay t w Hn Hp Ht Hx' Hw)
      as (Hstep & _ & Hw' & _ & Hn' & Hlt).
    destruct Hstep as (Hx1 & _ & Hp1); [subst m; lia|].
    set (w1 := world_of (drawTitleMarqueeTick lay t w)) in *.
    fold m in Hx1, Hw'.
    destruct (IH w1) as (Hx2 & Hp2 & Hn2 & Hw2); auto.
    + now rewrite Hlt.
    + now rewrite Hw'.
    + rewrite Hx1. unfold C.INT_MAX in *. lia.
    + rewrite Hx1, Hw'. lia.
    + cbv zeta in Hx2, Hp2, Hn2, Hw2 |- *.
      rewrite Hx2, Hx1, Hw2, Hw'. repeat split; auto. lia.
Qed.

Lemma marquee_scroll_step_witness :
  let w := set_gMarq (mkMarquee "A long title" (-120) 100 true 1000 0 false) World_init in
  let m' := gMarq (world_of (drawTitleMarqueeTick (initLayoutAndSprites stick_tft) 1080 w)) in
  75 <= C.u32_sub 1080 1000
  /\ mq_x m' = -122 /\ mq_inPause m' = false.
Proof.
  intros w m'.
  assert (Hel : 75 <= C.u32_sub 1080 (mq_lastTick (gMarq w)))
    by (vm_compute; discriminate).
  assert (Hx : C.INT_MIN + 2 <= mq_x (gMarq w) <= C.INT_MAX)
    by (vm_compute; split; discriminate).
  assert (Hw : C.INT_MIN + 24 < mq_w (gMarq w) <= C.INT_MAX - 24)
    by (vm_compute; split; [reflexivity | discriminate]).
  split; [exact Hel|].
  destruct (marquee_scroll_step (initLayoutAndSprites stick_tft) 1080 w
              eq_refl eq_refl Hel Hx Hw) as (H & _).
  destruct H as (H1 & _ & H3); [vm_compute; discriminate|].
  split; [exact H1 | exact H3].
Defined.

(** The step that passes the wrap threshold: from -124 with [W + 24 = 124]
    the offset returns to 0 and the pause begins. *)
Example marquee_wraps :
  let w := set_gMarq (mkMarquee "A long title" (-124) 100 true 1000 0 false) World_init in
  gMarq (world_of (drawTitleMarqueeTick (initLayoutAndSprites stick_tft) 1080 w))
  = mkMarquee "A long title" 0 100 true 1080 1080 true.
Proof. reflexivity. Qed.

(** ** Redraw caching *)

Ltac run_slide :=
  cbn -[card_font_scale card_digits drawTitleMarqueeTick
        C.isub C.imul Z.ltb Z.eqb String.eqb].

Section CacheFacts.

Variable tft : Tft.
Variable lay : Layout.

(** Everything [uiTask] does with a SlideUpdate message, up to the title
    sprite, whose pushes are only said to be title pushes. *)
Lemma ui_handle_slide (msg : UiMsg) (t1 t2 : Z) (w : World) :
  ui_type msg = UI_SLIDE ->
  let reachable := wifiConnected w && negb (gProUnreachable w) in
  let fresh := negb (slideIndexOneBased msg =? lastSlide w) in
  let out := ui_handle tft lay msg t1 t2 w in
  (exists title_ops,
      pushes (trace_of out)
      = ((if fresh
          then [card_push tft lay (slideIndexOneBased msg) (card_color reachable)]
          else []) ++ title_ops)%list
      /\ Forall (fun op => region_of op = RTitle) title_ops
      /\ (lastTitle w = presName msg -> title_ops = []))
  /\ lastSlide (world_of out) = slideIndexOneBased msg
  /\ lastTitle (world_of out) = presName msg
  /\ lastStatus (world_of out) = lastStatus w
  /\ wifiConnected (world_of out) = wifiConnected w
  /\ lastReachable (world_of out) = lastReachable w
  /\ gProUnreachable (world_of out) = gProUnreachable w.
Proof.
  intros Hty. unfold ui_handle, card_push, card_color. rewrite Hty.
  destruct w as [cq uq down mt mq la nf lb lk lc ls lt lst wc lr]. run_slide.
  destruct (Z.eqb_spec (slideIndexOneBased msg) ls) as [Hs | Hs]; run_slide;
    (destruct (String.eqb_spec lt (presName msg)) as [Ht | Ht]; run_slide;
     [ split; [exists []; repeat split; auto | repeat split; auto]
     | match goal with
       | |- context [drawTitleMarqueeTick lay t2 ?w'] =>
           destruct (title_tick_frame lay t2 w') as ((op & Htr & Hop) & Hw);
           rewrite Htr, Hw
       end;
       run_slide;
       (split; [exists [op]; repeat split; auto; intros; congruence
               | repeat split; auto]) ]).
Qed.

End CacheFacts.

Lemma region_pushes_other (r r' : Region) (ops : list DrawOp) :
  Forall (fun op => region_of op = r') ops -> Region_eqb r' r = false ->
  filter (fun op => Region_eqb (region_of op) r) ops = [].
Proof.
  intros Hall Hne. induction Hall as [|op ops Hop _ IH]; [reflexivity|].
  simpl. now rewrite Hop, Hne.
Qed.

Lemma strcmp_ne_same (s : string) : C.strcmp_ne s s = false.
Proof. unfold C.strcmp_ne. now rewrite String.eqb_refl. Qed.

(** C7.  A StatusText (or WifiState) whose text is the cached status text
    causes no push to the status region, and a SlideUpdate whose index is
    the cached slide index causes no push to the card region.  So of two
    identical messages handled one after the other, the second pushes
    nothing to the status region (any text that fits the 64-byte field),
    and a repeated SlideUpdate pushes nothing at all. *)
Theorem redraw_suppressed
        (tft : Tft) (lay : Layout) (msg : UiMsg) (t1 t2 t3 t4 : Z) (w : World) :
  let out := ui_handle tft lay msg t1 t2 w in
  let again := ui_handle tft lay msg t3 t4 (world_of out) in
  (ui_type msg <> UI_SLIDE -> text msg = lastStatus w ->
     region_pushes RStatus (trace_of out) = [])
  /\ (ui_type msg = UI_SLIDE -> slideIndexOneBased msg = lastSlide w ->
      region_pushes RCard (trace_of out) = [])
  /\ (ui_type msg <> UI_SLIDE -> (String.length (text msg) <= 63)%nat ->
      region_pushes RStatus (trace_of again) = [])
  /\ (ui_type msg = UI_SLIDE -> pushes (trace_of again) = []).
Proof.
  intros out again.
  assert (Hstatus : forall t t' w0, ui_type msg <> UI_SLIDE -> text msg = lastStatus w0 ->
                      region_pushes RStatus (trace_of (ui_handle tft lay msg t t' w0)) = []).
  { intros t t' w0 Hty Heq.
    destruct (ui_handle_text tft lay msg t t' w0 Hty) as (Hp & _).
    unfold region_pushes. rewrite Hp, <- Heq, strcmp_ne_same. simpl.
    destruct (negb _); reflexivity. }
  assert (Hcard : forall t t' w0, ui_type msg = UI_SLIDE ->
                    slideIndexOneBased msg = lastSlide w0 ->
                    region_pushes RCard (trace_of (ui_handle tft lay msg t t' w0)) = []).
  { intros t t' w0 Hty Heq.
    destruct (ui_handle_slide tft lay msg t t' w0 Hty) as ((ops & Hp & Hall & _) & _).
    unfold region_pushes. rewrite Hp, <- Heq, Z.eqb_refl. simpl.
    now apply (region_pushes_other RCard RTitle). }
  split; [apply Hstatus | split; [apply Hcard | split]].
  - intros Hty Hlen. apply Hstatus; [exact Hty|].
    destruct (ui_handle_text tft lay msg t1 t2 w Hty) as (_ & _ & Hls & _).
    fold out in Hls. rewrite Hls, take_all by exact Hlen.
    unfold C.strcmp_ne. destruct (String.eqb_spec (lastStatus w) (text msg)); auto.
  - intros Hty.
    destruct (ui_handle_slide tft lay msg t1 t2 w Hty) as (_ & Hsl & Htl & _).
    fold out in Hsl, Htl.
    destruct (ui_handle_slide tft lay msg t3 t4 (world_of out) Hty)
      as ((ops & Hp & _ & Hnil) & _).
    fold again in Hp. rewrite Hp, Hsl, Z.eqb_refl, (Hnil Htl). reflexivity.
Qed.

Lemma redraw_suppressed_witness :
  let lay := initLayoutAndSprites stick_tft in
  let w := set_lastStatus "NEXT OK" (set_lastSlide 5 World_init) in
  text (status_msg "NEXT OK") = lastStatus w
  /\ region_pushes RStatus (trace_of (ui_handle stick_tft lay (status_msg "NEXT OK") 0 0 w)) = []
  /\ slideIndexOneBased (slide_msg 5 "Sermon") = lastSlide w
  /\ region_pushes RCard (trace_of (ui_handle stick_tft lay (slide_msg 5 "Sermon") 0 0 w)) = [].
Proof.
  intros lay w.
  split; [reflexivity|]. split.
  - apply (proj1 (redraw_suppressed stick_tft lay (status_msg "NEXT OK") 0 0 0 0 w));
      [discriminate | reflexivity].
  - split; [reflexivity|].
    apply (proj1 (proj2 (redraw_suppressed stick_tft lay (slide_msg 5 "Sermon") 0 0 0 0 w)));
      reflexivity.
Defined.

(** The same status twice, then the same slide twice, right after boot:
    each region is pushed once. *)
Example duplicates_draw_once :
  let lay := initLayoutAndSprites stick_tft in
  let feed := [status_msg "NEXT OK"; status_msg "NEXT OK";
               slide_msg 5 "Sermon"; slide_msg 5 "Sermon"] in
  let run := fold_left (fun w m => world_of (ui_handle stick_tft lay m 0 0 w)) in
  let trace := fun w m => pushes (trace_of (ui_handle stick_tft lay m 0 0 w)) in
  let w1 := run [status_msg "NEXT OK"] World_init in
  let w3 := run [slide_msg 5 "Sermon"] (run [status_msg "NEXT OK"] w1) in
  trace World_init (status_msg "NEXT OK") = [PushStatus "NEXT OK" COL_BG COL_GOOD]
  /\ trace w1 (status_msg "NEXT OK") = []
  /\ trace w3 (slide_msg 5 "Sermon") = [].
Proof. vm_compute. repeat split. Qed.

(** ** What the renderer reads *)

Ltac split_ifs :=
  repeat (match goal with
          | |- context [if ?c then _ else _] => destruct c eqn:?
          end; run_ui).

Section ReadFacts.

Variable tft : Tft.
Variable lay : Layout.

(** Handling a message looks at nothing but [ui_reads], and changes
    nothing but what the renderer owns. *)
Lemma ui_handle_reads (msg : UiMsg) (t1 t2 : Z) (w : World) :
  trace_of (ui_handle tft lay msg t1 t2 w)
  = trace_of (ui_handle tft lay msg t1 t2 (ui_reads w))
  /\ ui_reads (world_of (ui_handle tft lay msg t1 t2 w))
     = world_of (ui_handle tft lay msg t1 t2 (ui_reads w)).
Proof.
  unfold ui_handle, drawTitleMarqueeTick, when, ui_reads, ui_owned.
  destruct w as [cq uq down mt [tx x wd nd ltk ps ip] la nf lb lk lc ls lt lst wc lr].
  destruct (ui_type msg); run_ui; split_ifs; split; reflexivity.
Qed.

Lemma ui_reads_flag (b : bool) (w1 w2 : World) :
  ui_owned w1 = ui_owned w2 ->
  ui_reads (set_gProUnreachable b w1) = ui_reads (set_gProUnreachable b w2).
Proof.
  unfold ui_reads, ui_owned. destruct w1, w2. simpl. intros H.
  inversion H. reflexivity.
Qed.

Lemma ui_owned_reads (w1 w2 : World) :
  ui_reads w1 = ui_reads w2 -> ui_owned w1 = ui_owned w2.
Proof.
  unfold ui_reads, ui_owned. destruct w1, w2. simpl. intros H.
  inversion H. reflexivity.
Qed.

Lemma ui_feed_owned (inputs : list UiInput) (w1 w2 : World) :
  ui_owned w1 = ui_owned w2 ->
  trace_of (ui_feed tft lay inputs w1) = trace_of (ui_feed tft lay inputs w2)
  /\ ui_owned (world_of (ui_feed tft lay inputs w1))
     = ui_owned (world_of (ui_feed tft lay inputs w2)).
Proof.
  revert w1 w2. induction inputs as [|i rest IH]; intros w1 w2 Hown.
  - split; [reflexivity | exact Hown].
  - assert (Hr := ui_reads_flag (in_down i) w1 w2 Hown).
    destruct (ui_handle_reads (in_msg i) (in_ms_title i) (in_ms_tick i)
                (set_gProUnreachable (in_down i) w1)) as [Ht1 Hw1].
    destruct (ui_handle_reads (in_msg i) (in_ms_title i) (in_ms_tick i)
                (set_gProUnreachable (in_down i) w2)) as [Ht2 Hw2].
    rewrite Hr in Ht1, Hw1.
    assert (Hnext : ui_owned (world_of (ui_handle tft lay (in_msg i) (in_ms_title i)
                                 (in_ms_tick i) (set_gProUnreachable (in_down i) w1)))
                    = ui_owned (world_of (ui_handle tft lay (in_msg i) (in_ms_title i)
                                 (in_ms_tick i) (set_gProUnreachable (in_down i) w2))))
      by (apply ui_owned_reads; congruence).
    destruct (IH _ _ Hnext) as [Ht Hw].
    change (ui_feed tft lay (i :: rest))
      with (modify (set_gProUnreachable (in_down i)) ;;
            ui_handle tft lay (in_msg i) (in_ms_title i) (in_ms_tick i) ;;
            ui_feed tft lay rest).
    rewrite !trace_bind, !world_bind.
    change (world_of (modify (set_gProUnreachable (in_down i)) w1))
      with (set_gProUnreachable (in_down i) w1).
    change (world_of (modify (set_gProUnreachable (in_down i)) w2))
      with (set_gProUnreachable (in_down i) w2).
    change (trace_of (modify (set_gProUnreachable (in_down i)) w1)) with (@nil Event).
    change (trace_of (modify (set_gProUnreachable (in_down i)) w2)) with (@nil Event).
    rewrite Ht, Ht1, Ht2, Hw. split; reflexivity.
Qed.

(** The colour of every card pushed while a message is handled. *)
Lemma card_color_formula (msg : UiMsg) (t1 t2 : Z) (w : World) :
  let out := ui_handle tft lay msg t1 t2 w in
  forall panel, In panel (card_colors (trace_of out)) ->
    panel = card_color (wifiConnected (world_of out) && negb (gProUnreachable w)).
Proof.
  intros out panel. unfold card_colors.
  destruct (ui_type msg) eqn:Hty.
  - assert (Hns : ui_type msg <> UI_SLIDE) by congruence.
    destruct (ui_handle_text tft lay msg t1 t2 w Hns) as (Hp & Hw & _).
    fold out in Hp, Hw. rewrite Hp, Hw, flat_map_app.
    destruct (C.strcmp_ne _ _), (negb _); simpl; intuition.
  - destruct (ui_handle_slide tft lay msg t1 t2 w Hty)
      as ((ops & Hp & Hall & _) & _ & _ & _ & Hw & _).
    fold out in Hp, Hw. rewrite Hp, Hw, flat_map_app.
    assert (Hnone : flat_map (fun op => match op with
                                        | PushCard _ p _ _ _ => [p]
                                        | _ => []
                                        end) ops = []).
    { clear Hp. induction Hall as [|op ops Hop _ IH]; [reflexivity|].
      simpl. rewrite IH. destruct op; try discriminate; reflexivity. }
    rewrite Hnone. destruct (negb _); simpl; intuition.
  - assert (Hns : ui_type msg <> UI_SLIDE) by congruence.
    destruct (ui_handle_text tft lay msg t1 t2 w Hns) as (Hp & Hw & _).
    fold out in Hp, Hw. rewrite Hp, Hw, flat_map_app.
    destruct (C.strcmp_ne _ _), (negb _); simpl; intuition.
Qed.

End ReadFacts.

(** C4, as the code has it.  [uiTask] reads the network task's flag
    [gProUnreachable] itself, each time it handles a message.  Two runs of
    the renderer that start from the same renderer state and are given the
    same messages together with the same flag values produce the same
    pushes (so the same card colours) and end in the same renderer state;
    nothing else of the world matters.  The colour of a pushed card is good
    exactly when the Wi-Fi flag kept from the WifiState messages is set and
    the flag read from the network task is clear. *)
Theorem render_depends_on_messages_and_flag
        (tft : Tft) (lay : Layout) (inputs : list UiInput) (w1 w2 : World) :
  ui_owned w1 = ui_owned w2 ->
  trace_of (ui_feed tft lay inputs w1) = trace_of (ui_feed tft lay inputs w2)
  /\ ui_owned (world_of (ui_feed tft lay inputs w1))
     = ui_owned (world_of (ui_feed tft lay inputs w2))
  /\ (forall msg t1 t2 w panel,
        In panel (card_colors (trace_of (ui_handle tft lay msg t1 t2 w))) ->
        panel = card_color (wifiConnected (world_of (ui_handle tft lay msg t1 t2 w))
                            && negb (gProUnreachable w))).
Proof.
  intros Hown. destruct (ui_feed_owned tft lay inputs w1 w2 Hown) as [Ht Hw].
  split; [exact Ht | split; [exact Hw|]].
  intros msg t1 t2 w. apply card_color_formula.
Qed.

Lemma render_depends_on_messages_and_flag_witness :
  let lay := initLayoutAndSprites stick_tft in
  let inputs := [mkUiInput (wifi_msg "Wi-Fi OK") false 0 0;
                 mkUiInput (slide_msg 3 "Hymn") true 10 10] in
  let w1 := World_init in
  let w2 := set_cmdQ [mkCmd CMD_NEXT] (set_nextForcedPoll 77 World_init) in
  ui_owned w1 = ui_owned w2
  /\ card_colors (trace_of (ui_feed stick_tft lay inputs w1))
     = card_colors (trace_of (ui_feed stick_tft lay inputs w2)).
Proof.
  intros lay inputs w1 w2. split; [reflexivity|].
  now rewrite (proj1 (render_depends_on_messages_and_flag stick_tft lay inputs w1 w2
                        eq_refl)).
Defined.

(** C4 as stated fails.  The renderer receives the same two messages in
    both runs and starts from the same renderer state; only the network
    task's flag differs.  With the flag clear it paints the card good twice,
    with the flag set it paints slide 3 on a bad card. *)
Lemma card_color_counterexample :
  let lay := initLayoutAndSprites stick_tft in
  let msgs := [wifi_msg "Wi-Fi OK"; slide_msg 3 "Hymn"] in
  let w1 := set_uiQ msgs World_init in
  let w2 := set_gProUnreachable true w1 in
  let two_turns := uiTask_iter stick_tft lay 0 0 ;; uiTask_iter stick_tft lay 0 0 in
  uiQ w1 = uiQ w2
  /\ ui_owned w1 = ui_owned w2
  /\ card_colors (trace_of (two_turns w1)) = [COL_GOOD; COL_GOOD]
  /\ card_colors (trace_of (two_turns w2)) = [COL_BAD]
  /\ card_colors (trace_of (two_turns w1)) <> card_colors (trace_of (two_turns w2)).
Proof.
  vm_compute. repeat split. discriminate.
Qed.

(** ** Non-blocking queue sends *)

Lemma xQueueSend_zero {A} (cap : nat) (q : list A) (item : A) :
  Queue.is_suspended (fst (Queue.xQueueSend cap q item 0)) = false
  /\ ((cap <= List.length q)%nat ->
      Queue.xQueueSend cap q item 0 = (Queue.QueueFull, q)).
Proof.
  unfold Queue.xQueueSend. destruct (Nat.ltb_spec (List.length q) cap); simpl.
  - split; [reflexivity | lia].
  - split; reflexivity.
Qed.

Lemma never_waits_ret {A} (a : A) : never_waits (ret a).
Proof. intros w. simpl. auto. Qed.

Lemma never_waits_get {A} (f : World -> A) : never_waits (get f).
Proof. intros w. simpl. auto. Qed.

Lemma never_waits_delay (ticks : Z) : never_waits (vTaskDelay ticks).
Proof. intros w. simpl. auto. Qed.

Lemma never_waits_modify (f : World -> World) :
  (forall w, cmdQ (f w) = cmdQ w /\ uiQ (f w) = uiQ w) -> never_waits (modify f).
Proof. intros Hf w. destruct (Hf w). simpl. auto. Qed.

Lemma never_waits_send_cmd (c : CmdMsg) : never_waits (send_cmd c).
Proof.
  intros w. destruct (xQueueSend_zero CMDQ_LEN (cmdQ w) c) as [Hs Hfull].
  unfold send_cmd. cbn -[Queue.xQueueSend CMDQ_LEN UIQ_LEN]. repeat split; auto.
  intros H. now rewrite (Hfull H).
Qed.

Lemma never_waits_send_ui (m : UiMsg) : never_waits (send_ui m).
Proof.
  intros w. destruct (xQueueSend_zero UIQ_LEN (uiQ w) m) as [Hs Hfull].
  unfold send_ui. cbn -[Queue.xQueueSend CMDQ_LEN UIQ_LEN]. repeat split; auto.
  intros H. now rewrite (Hfull H).
Qed.

Lemma send_outcomes_app (t1 t2 : list Event) :
  send_outcomes (t1 ++ t2) = (send_outcomes t1 ++ send_outcomes t2)%list.
Proof. apply flat_map_app. Qed.

Lemma never_waits_bind {A B} (m : Task A) (k : A -> Task B) :
  never_waits m -> (forall a, never_waits (k a)) -> never_waits (bind m k).
Proof.
  intros Hm Hk w. destruct (Hm w) as (Hm1 & Hm2 & Hm3).
  destruct (Hk (result_of (m w)) (world_of (m w))) as (Hk1 & Hk2 & Hk3).
  rewrite trace_bind, world_bind, send_outcomes_app. repeat split.
  - apply Forall_app. auto.
  - intros H. rewrite Hk2; rewrite Hm2; auto.
  - intros H. rewrite Hk3; rewrite Hm3; auto.
Qed.

Lemma never_waits_when (b : bool) (m : Task unit) :
  never_waits m -> never_waits (when b m).
Proof. intros Hm. destruct b; [exact Hm | apply never_waits_ret]. Qed.

Create HintDb nowait.
#[local] Hint Resolve never_waits_ret never_waits_get never_waits_delay
  never_waits_send_cmd never_waits_send_ui never_waits_when : nowait.
#[local] Hint Extern 1 (never_waits (bind _ _)) =>
  apply never_waits_bind; [|intros ?] : nowait.
#[local] Hint Extern 1 (never_waits (modify _)) =>
  apply never_waits_modify; intros []; split; reflexivity : nowait.
#[local] Hint Extern 1 (never_waits (enqueueStatus _)) => apply never_waits_send_ui : nowait.
#[local] Hint Extern 1 (never_waits (enqueueWifi _)) => apply never_waits_send_ui : nowait.

Lemma never_waits_loop (env : LoopEnv) : never_waits (loop env).
Proof. unfold loop. auto 20 with nowait. Qed.

Lemma never_waits_run_loops (envs : list LoopEnv) : never_waits (run_loops envs).
Proof.
  induction envs as [|env rest IH]; simpl.
  - apply never_waits_ret.
  - apply never_waits_bind; [apply never_waits_loop | intros _; exact IH].
Qed.

(** C8.  Every queue send of the input sampler passes a zero wait, so
    whatever the buttons, the clock and the Wi-Fi state do over any number
    of turns of [loop()], no send suspends it; and while the command queue
    (or the UI queue) is full, what is offered to it is dropped: the queue
    is left exactly as it was. *)
Theorem input_sampler_never_blocks (envs : list LoopEnv) (w : World) :
  let out := run_loops envs w in
  Forall (fun o => Queue.is_suspended o = false) (send_outcomes (trace_of out))
  /\ ((CMDQ_LEN <= List.length (cmdQ w))%nat -> cmdQ (world_of out) = cmdQ w)
  /\ ((UIQ_LEN <= List.length (uiQ w))%nat -> uiQ (world_of out) = uiQ w)
  /\ (forall (c : CmdMsg) (q : list CmdMsg),
        (CMDQ_LEN <= List.length q)%nat ->
        Queue.xQueueSend CMDQ_LEN q c 0 = (Queue.QueueFull, q)).
Proof.
  destruct (never_waits_run_loops envs w) as (H1 & H2 & H3).
  repeat split; auto. intros c q. apply xQueueSend_zero.
Qed.

Lemma input_sampler_never_blocks_witness :
  let full := repeat (mkCmd CMD_POLL) 16 in
  let w := set_cmdQ full World_init in
  let env := mkLoopEnv true true 2 5000 false false in
  (CMDQ_LEN <= List.length (cmdQ w))%nat
  /\ cmdQ (world_of (run_loops [env; env] w)) = full.
Proof.
  intros full w env.
  assert (H : (CMDQ_LEN <= List.length (cmdQ w))%nat) by (vm_compute; lia).
  split; [exact H|].
  exact (proj1 (proj2 (input_sampler_never_blocks [env; env] w)) H).
Defined.

(** A click on a full command queue: the status line is offered and
    taken, the command is offered and refused at once. *)
Example click_on_full_queue :
  let w := set_cmdQ (repeat (mkCmd CMD_POLL) 16) World_init in
  let env := mkLoopEnv false true 0 0 true false in
  trace_of (loop env w)
  = [EvUiSend (status_msg "CLICK NEXT") Queue.Sent;
     EvCmdSend (mkCmd CMD_NEXT) Queue.QueueFull;
     EvDelay 10].
Proof. reflexivity. Qed.

(** ** Trigger commands *)

Lemma http_requests_app (t1 t2 : list Event) :
  http_requests (t1 ++ t2) = (http_requests t1 ++ http_requests t2)%list.
Proof. apply flat_map_app. Qed.

Ltac run_net :=
  cbn -[ensureWiFi_wait ensureWiFi C.strstr C.take C.snprintf_s_d C.u32_sub C.u32_add
        Queue.xQueueSend baseUrl Z.ltb Z.eqb].

(** The wait loop of [ensureWiFi] sends no request, offers only Wi-Fi
    announcements, leaves the reachability flag and the forced-poll
    schedule alone, and does not look at the UI queue. *)
Lemma ensureWiFi_wait_frame (probe : nat -> bool) (n i : nat) (w : World) :
  let out := ensureWiFi_wait probe i n w in
  http_requests (trace_of out) = []
  /\ Forall (fun m => mentions_failure m = false) (ui_offered (trace_of out))
  /\ gProUnreachable (world_of out) = gProUnreachable w
  /\ nextForcedPoll (world_of out) = nextForcedPoll w
  /\ (forall q, result_of (ensureWiFi_wait probe i n (set_uiQ q w)) = result_of out).
Proof.
  revert i w. induction n as [|n IH]; intros i w.
  - cbn -[Queue.xQueueSend]. repeat split; auto.
  - change (ensureWiFi_wait probe i (S n))
      with (if probe i then enqueueWifi "Wi-Fi OK" ;; ret true
            else vTaskDelay (pdMS_TO_TICKS 100) ;; ensureWiFi_wait probe (S i) n).
    destruct (probe i).
    + cbn -[Queue.xQueueSend]. repeat split; auto.
    + destruct (IH (S i) w) as (H1 & H2 & H3 & H4 & H5).
      run_net. repeat split; auto.
Qed.

Lemma ensureWiFi_frame (env : NetEnv) (w : World) :
  let out := ensureWiFi env w in
  http_requests (trace_of out) = []
  /\ Forall (fun m => mentions_failure m = false) (ui_offered (trace_of out))
  /\ gProUnreachable (world_of out) = gProUnreachable w
  /\ nextForcedPoll (world_of out) = nextForcedPoll w
  /\ (forall q, result_of (ensureWiFi env (set_uiQ q w)) = result_of out).
Proof.
  unfold ensureWiFi. destruct (wifi_up env); [run_net; repeat split; auto|].
  run_net. destruct (C.u32_sub (now_ms env) (lastAttemptMs w) <? 2000);
    [run_net; repeat split; auto|].
  run_net.
  match goal with
  | |- context [trace_of (ensureWiFi_wait ?p 0 10 ?w')] =>
      destruct (ensureWiFi_wait_frame p 10 0 w') as (H1 & H2 & H3 & H4 & _)
  end.
  destruct (ensureWiFi_wait_frame (wifi_probe env) 10 0
              (set_lastAttemptMs (now_ms env) w)) as (_ & _ & _ & _ & H5).
  unfold http_requests, ui_offered in H1, H2.
  rewrite H1, H3, H4. repeat split; auto.
  intros q.
  transitivity (result_of (ensureWiFi_wait (wifi_probe env) 0 10
                             (set_lastAttemptMs (now_ms env) w))).
  - apply (H5 (snd (Queue.xQueueSend UIQ_LEN q (wifi_msg (C.strncpy 63 "Wi-Fi…")) 0))).
  - symmetry.
    apply (H5 (snd (Queue.xQueueSend UIQ_LEN (uiQ w) (wifi_msg (C.strncpy 63 "Wi-Fi…")) 0))).
Qed.

Lemma filter_none {A} (p : A -> bool) (l : list A) :
  Forall (fun x => p x = false) l -> filter p l = [].
Proof.
  induction 1 as [|x l Hx _ IH]; [reflexivity|]. simpl. now rewrite Hx.
Qed.

(** What one trigger case does when it does not succeed. *)
Lemma trigger_effects (announce path done : string) (env : NetEnv) (w : World) :
  C.strstr (C.strncpy 63 announce) "Request Failed" = false ->
  let out := trigger announce path done env w in
  let r := reply1 env in
  (link_up env w = false ->
     http_requests (trace_of out) = []
     /\ filter mentions_failure (ui_offered (trace_of out)) = []
     /\ nextForcedPoll (world_of out) = nextForcedPoll w
     /\ gProUnreachable (world_of out) = gProUnreachable w)
  /\ (link_up env w = true -> trigger_accepted r = false ->
      (exists before,
          ui_offered (trace_of out)
          = (before ++ [status_msg (C.snprintf_s_d 64 "Request Failed" (raw_code r))])%list)
      /\ http_requests (trace_of out) = (if begin_ok r then [baseUrl ++ path] else [])
      /\ nextForcedPoll (world_of out) = nextForcedPoll w
      /\ gProUnreachable (world_of out) = gProUnreachable w).
Proof.
  intros Hann out r. subst out r. unfold trigger, link_up, trigger_accepted, raw_code.
  set (w1 := world_of (enqueueStatus announce w)).
  destruct (ensureWiFi_frame env w1) as (H1 & H2 & H3 & H4 & _).
  destruct (ensureWiFi_frame env w) as (_ & _ & _ & _ & H5).
  assert (Hlink : result_of (ensureWiFi env w1) = result_of (ensureWiFi env w))
    by (apply (H5 (uiQ w1))).
  assert (Ha1 : filter mentions_failure (ui_offered (trace_of (enqueueStatus announce w))) = [])
    by (cbn -[C.strstr C.strncpy Queue.xQueueSend mentions_failure];
        unfold mentions_failure; cbn [text]; now rewrite Hann).
  assert (Ha2 : http_requests (trace_of (enqueueStatus announce w)) = [])
    by reflexivity.
  rewrite ?trace_bind, ?world_bind, ?result_bind. fold w1. rewrite Hlink.
  change (nextForcedPoll w1) with (nextForcedPoll w) in H4.
  change (gProUnreachable w1) with (gProUnreachable w) in H3.
  set (ta := trace_of (enqueueStatus announce w)) in *.
  set (tw := trace_of (ensureWiFi env w1)) in *.
  set (w2 := world_of (ensureWiFi env w1)) in *.
  clearbody ta tw w2. clear w1 Hlink H5.
  split.
  - intros Hdown. rewrite Hdown.
    change (trace_of (ret tt w2)) with (@nil Event).
    change (world_of (ret tt w2)) with w2.
    rewrite !app_nil_r, http_requests_app, ui_offered_app, filter_app.
    rewrite Ha1, Ha2, H1, (filter_none _ _ H2), H3, H4. repeat split.
  - intros Hup Hrej. rewrite Hup. unfold httpGET_once.
    rewrite !http_requests_app, !ui_offered_app, Ha2, H1.
    destruct (begin_ok (reply1 env)); simpl in Hrej.
    + cbn -[C.snprintf_s_d Queue.xQueueSend baseUrl Z.ltb Z.eqb HTTP_CODE_NO_CONTENT append].
      rewrite Hrej.
      cbn -[C.snprintf_s_d Queue.xQueueSend baseUrl append].
      rewrite H3, H4. repeat split; auto.
      eexists. rewrite app_assoc. reflexivity.
    + cbn -[C.snprintf_s_d Queue.xQueueSend baseUrl append].
      rewrite H3, H4. repeat split; auto.
      eexists. rewrite app_assoc. reflexivity.
Qed.

(** C9, as the code has it.  For a Next, Previous or JumpHome command:
    when link establishment fails, no request is sent and NO "Request
    Failed" status is offered (only the command's announcement and the
    Wi-Fi announcements of the attempt); when the link is up and the
    request does not complete with a positive code equal to 204, the last
    status offered is "Request Failed" followed by the raw code (-1000 when
    the client could not be set up), and at most one request was sent, so
    nothing is retried.  In both cases the forced-poll schedule and the
    reachability flag are as before. *)
Theorem failed_trigger_effects
        (parse : string -> JSONVar) (cmd : CmdMsg) (env : NetEnv) (w : World) :
  is_trigger (cmd_type cmd) = true ->
  let out := handle_cmd parse cmd env w in
  let r := reply1 env in
  (link_up env w = false ->
     http_requests (trace_of out) = []
     /\ filter mentions_failure (ui_offered (trace_of out)) = []
     /\ nextForcedPoll (world_of out) = nextForcedPoll w
     /\ gProUnreachable (world_of out) = gProUnreachable w)
  /\ (link_up env w = true -> trigger_accepted r = false ->
      (exists before,
          ui_offered (trace_of out)
          = (before ++ [status_msg (C.snprintf_s_d 64 "Request Failed" (raw_code r))])%list)
      /\ (List.length (http_requests (trace_of out)) <= 1)%nat
      /\ nextForcedPoll (world_of out) = nextForcedPoll w
      /\ gProUnreachable (world_of out) = gProUnreachable w).
Proof.
  intros Htrig out r. subst out r. unfold handle_cmd.
  destruct (cmd_type cmd); try discriminate;
    match goal with
    | |- context [trigger ?a ?p ?d env w] =>
        destruct (trigger_effects a p d env w eq_refl) as [Hdown Hup]
    end;
    (split; [exact Hdown|]; intros Hl Hr;
     destruct (Hup Hl Hr) as (Hmsg & Hreq & Hnf & Hflag);
     repeat split; auto; rewrite Hreq; destruct (begin_ok (reply1 env)); simpl; lia).
Qed.

Lemma failed_trigger_effects_witness :
  let env := mkNetEnv true (fun _ => false) 0 7 (mkReply true 404 "") (mkReply true 404 "") in
  let out := handle_cmd sample_parse (mkCmd CMD_NEXT) env World_init in
  is_trigger CMD_NEXT = true
  /\ link_up env World_init = true
  /\ trigger_accepted (reply1 env) = false
  /\ nextForcedPoll (world_of out) = nextForcedPoll World_init
  /\ gProUnreachable (world_of out) = gProUnreachable World_init.
Proof.
  intros env out.
  split; [reflexivity|]. split; [reflexivity|]. split; [reflexivity|].
  exact (proj2 (proj2 (proj2
    (failed_trigger_effects sample_parse (mkCmd CMD_NEXT) env World_init eq_refl)
      eq_refl eq_refl))).
Defined.

(** C9 as stated fails when the link cannot be established.  The Next
    command is served with Wi-Fi down and the connection attempt timing
    out: the announcement and the two Wi-Fi messages are all that is
    offered, and none of them is a "Request Failed" status. *)
Lemma link_failure_counterexample :
  let env := mkNetEnv false (fun _ => false) 5000 7
                      (mkReply true 204 "") (mkReply true 204 "") in
  let out := handle_cmd sample_parse (mkCmd CMD_NEXT) env World_init in
  link_up env World_init = false
  /\ ui_offered (trace_of out)
     = [status_msg "NEXT…"; wifi_msg "Wi-Fi…"; wifi_msg "No Wi-Fi"]
  /\ ~ exists m, In m (ui_offered (trace_of out)) /\ mentions_failure m = true.
Proof.
  repeat split. intros (m & Hin & Hm). vm_compute in Hin.
  destruct Hin as [<- | [<- | [<- | []]]]; vm_compute in Hm; discriminate.
Qed.

(** The failure texts: a refused request carries its HTTP status, a client
    that could not be set up carries -1000. *)
Example request_failed_texts :
  let up := fun r => mkNetEnv true (fun _ => false) 0 7 r r in
  let last_text := fun r =>
    map text (ui_offered (trace_of
      (handle_cmd sample_parse (mkCmd CMD_HOME0) (up r) World_init))) in
  last_text (mkReply true 404 "") = ["HOME…"; "Request Failed 404"]
  /\ last_text (mkReply false 0 "") = ["HOME…"; "Request Failed -1000"]
  /\ last_text (mkReply true (-1) "") = ["HOME…"; "Request Failed -1"]
  /\ last_text (mkReply true 200 "") = ["HOME…"; "Request Failed 200"]
  /\ last_text (mkReply true 204 "") = ["HOME…"; "HOME OK"].
Proof. vm_compute. repeat split. Qed.

(** ** Title scenarios *)

(** A title wider than the panel starts the marquee in its pause; a short
    one is centred and needs no marquee. *)
Example title_scenarios :
  let lay := initLayoutAndSprites stick_tft in
  let long := slide_msg 1 "A Very Long Presentation Title That Overflows" in
  let short := slide_msg 1 "Short" in
  let after := fun m => gMarq (world_of (ui_handle stick_tft lay m 100 100 World_init)) in
  let drawn := fun m =>
    region_pushes RTitle (trace_of (ui_handle stick_tft lay m 100 100 World_init)) in
  mq_needed (after long) = true
  /\ mq_inPause (after long) = true
  /\ drawn long = [PushTitlePaused "A Very Long Presentation Title That Overflows" 8]
  /\ mq_needed (after short) = false
  /\ drawn short = [PushTitleCentered "Short" 32].
Proof. vm_compute. repeat split. Qed.

(* ================================================================== *)
(** * Further properties of the code *)

(** ** Ownership *)

Lemma keeps_ret {A B} (proj : World -> B) (ok : Event -> bool) (a : A) :
  keeps proj ok (ret a).
Proof. intros w. split; reflexivity. Qed.

Lemma keeps_get {A B} (proj : World -> B) (ok : Event -> bool) (f : World -> A) :
  keeps proj ok (get f).
Proof. intros w. split; reflexivity. Qed.

Lemma keeps_emit {B} (proj : World -> B) (ok : Event -> bool) (e : Event) :
  ok e = true -> keeps proj ok (emit e).
Proof. intros H w. split; [reflexivity | simpl; now rewrite H]. Qed.

Lemma keeps_modify {B} (proj : World -> B) (ok : Event -> bool) (f : World -> World) :
  (forall w, proj (f w) = proj w) -> keeps proj ok (modify f).
Proof. intros H w. split; [apply H | reflexivity]. Qed.

Lemma keeps_send_ui {B} (proj : World -> B) (ok : Event -> bool) (m : UiMsg) :
  (forall q w, proj (set_uiQ q w) = proj w) ->
  (forall o, Queue.is_suspended o = false -> ok (EvUiSend m o) = true) ->
  keeps proj ok (send_ui m).
Proof.
  intros Hp Hok w. unfold send_ui. cbn -[Queue.xQueueSend]. split; [apply Hp|].
  rewrite Hok; [reflexivity | apply xQueueSend_zero].
Qed.

Lemma keeps_send_cmd {B} (proj : World -> B) (ok : Event -> bool) (c : CmdMsg) :
  (forall q w, proj (set_cmdQ q w) = proj w) ->
  (forall o, Queue.is_suspended o = false -> ok (EvCmdSend c o) = true) ->
  keeps proj ok (send_cmd c).
Proof.
  intros Hp Hok w. unfold send_cmd. cbn -[Queue.xQueueSend]. split; [apply Hp|].
  rewrite Hok; [reflexivity | apply xQueueSend_zero].
Qed.


Lemma keeps_bind {A B C} (proj : World -> C) (ok : Event -> bool)
      (m : Task A) (k : A -> Task B) :
  keeps proj ok m -> (forall a, keeps proj ok (k a)) -> keeps proj ok (bind m k).
Proof.
  intros Hm Hk w. destruct (Hm w) as [Hm1 Hm2].
  destruct (Hk (result_of (m w)) (world_of (m w))) as [Hk1 Hk2].
  rewrite world_bind, trace_bind, forallb_app, Hm2, Hk2, Hk1, Hm1. split; reflexivity.
Qed.

Lemma keeps_when {B} (proj : World -> B) (ok : Event -> bool) (b : bool) (m : Task unit) :
  keeps proj ok m -> keeps proj ok (when b m).
Proof. intros H. destruct b; [exact H | apply keeps_ret]. Qed.

Ltac keeps_side :=
  first [ solve [intros []; reflexivity]
        | solve [intros ? []; reflexivity]
        | solve [intros; reflexivity]
        | solve [intros; auto]
        | solve [intros; cbn;
                 match goal with
                 | H : Queue.is_suspended _ = false |- _ => rewrite H
                 end; reflexivity] ].

Ltac keeps_step :=
  cbv beta;
  match goal with
  | |- keeps _ _ (bind _ _) => apply keeps_bind; [|intros ?]
  | |- keeps _ _ (ret _) => apply keeps_ret
  | |- keeps _ _ (get _) => apply keeps_get
  | |- keeps _ _ (when _ _) => apply keeps_when
  | |- keeps _ _ (modify _) => apply keeps_modify; keeps_side
  | |- keeps _ _ (emit _) => apply keeps_emit; keeps_side
  | |- keeps _ _ (vTaskDelay _) => apply keeps_emit; keeps_side
  | |- keeps _ _ (push _) => apply keeps_emit; keeps_side
  | |- keeps _ _ (send_ui _) => apply keeps_send_ui; keeps_side
  | |- keeps _ _ (send_cmd _) => apply keeps_send_cmd; keeps_side
  | |- keeps _ _ (if ?c then _ else _) => destruct c
  | |- keeps _ _ (match ?x with _ => _ end) => destruct x
  | |- keeps _ _ (let _ := _ in _) => cbv zeta
  end.

Ltac keeps_tac := repeat keeps_step.

Lemma keeps_loop (env : LoopEnv) :
  keeps (fun w => (gProUnreachable w, net_locals w, millisTime w, ui_owned w))
        (fun e => negb (is_network_io e) && negb (is_push e))
        (loop env).
Proof.
  unfold loop, enqueueStatus, enqueueWifi. keeps_tac.
Qed.

(** The network side, for any part of the world that its writes do not
    reach and any events that admit what it does. *)
Section NetKeeps.

Context {B : Type}.
Variable proj : World -> B.
Variable ok : Event -> bool.
Hypothesis proj_uiQ : forall q w, proj (set_uiQ q w) = proj w.
Hypothesis proj_attempt : forall v w, proj (set_lastAttemptMs v w) = proj w.
Hypothesis ok_wifi_send :
  forall m o, ui_type m = UI_WIFI -> Queue.is_suspended o = false -> ok (EvUiSend m o) = true.
Hypothesis ok_delay : forall t, ok (EvDelay t) = true.

Lemma keeps_ensureWiFi_wait (probe : nat -> bool) (n i : nat) :
  keeps proj ok (ensureWiFi_wait probe i n).
Proof.
  revert i. induction n as [|n IH]; intros i; cbn [ensureWiFi_wait];
    unfold enqueueWifi; keeps_tac. apply IH.
Qed.

Hypothesis ok_begin : ok EvWifiBegin = true.

Lemma keeps_ensureWiFi (env : NetEnv) : keeps proj ok (ensureWiFi env).
Proof.
  unfold ensureWiFi, enqueueWifi. keeps_tac. apply keeps_ensureWiFi_wait.
Qed.

Hypothesis proj_flag : forall b w, proj (set_gProUnreachable b w) = proj w.
Hypothesis ok_send : forall m o, Queue.is_suspended o = false -> ok (EvUiSend m o) = true.
Hypothesis ok_get : forall u, ok (EvHttpGet u) = true.

Lemma keeps_pollSlideOnce (parse : string -> JSONVar) (r : HttpReply) (errMsg : string) :
  keeps proj ok (pollSlideOnce parse r errMsg).
Proof.
  unfold pollSlideOnce, httpGET_once, enqueueStatus, enqueueSlide. keeps_tac.
Qed.

Lemma keeps_poll_with_retry (parse : string -> JSONVar) (env : NetEnv) :
  keeps proj ok (poll_with_retry parse env).
Proof.
  unfold poll_with_retry. keeps_tac; apply keeps_pollSlideOnce.
Qed.

Hypothesis proj_forced : forall v w, proj (set_nextForcedPoll v w) = proj w.

Lemma keeps_handle_cmd (parse : string -> JSONVar) (cmd : CmdMsg) (env : NetEnv) :
  keeps proj ok (handle_cmd parse cmd env).
Proof.
  unfold handle_cmd, trigger, httpGET_once, enqueueStatus, enqueueStatusCode.
  keeps_tac; try apply keeps_ensureWiFi; try apply keeps_poll_with_retry.
Qed.

Hypothesis proj_cmdQ : forall q w, proj (set_cmdQ q w) = proj w.



Hypothesis proj_bg : forall v w, proj (set_lastBgPoll v w) = proj w.

Lemma keeps_bg_poll_part (parse : string -> JSONVar) (bg : NetEnv) (now : Z) (didWork : bool) :
  keeps proj ok (bg_poll_part parse bg now didWork).
Proof.
  unfold bg_poll_part. keeps_tac;
    first [apply keeps_ensureWiFi | apply keeps_poll_with_retry].
Qed.


End NetKeeps.

Lemma handle_cmd_outside (parse : string -> JSONVar) (cmd : CmdMsg) (env : NetEnv) :
  keeps outside_net (fun e => negb (is_push e) && negb (is_cmd_send e))
        (handle_cmd parse cmd env).
Proof. apply keeps_handle_cmd; keeps_side. Qed.

Lemma admitted_no_pushes (ok : Event -> bool) (tr : list Event) :
  (forall e, ok e = true -> is_push e = false) ->
  forallb ok tr = true -> pushes tr = [].
Proof.
  intros Hok Hall. unfold pushes. induction tr as [|e tr IH]; [reflexivity|].
  simpl in Hall. apply andb_true_iff in Hall as [He Hall].
  simpl. rewrite (IH Hall). apply Hok in He. destruct e; try reflexivity; discriminate.
Qed.

Lemma admitted_no_requests (ok : Event -> bool) (tr : list Event) :
  (forall e, ok e = true -> is_network_io e = false) ->
  forallb ok tr = true -> http_requests tr = [].
Proof.
  intros Hok Hall. unfold http_requests. induction tr as [|e tr IH]; [reflexivity|].
  simpl in Hall. apply andb_true_iff in Hall as [He Hall].
  simpl. rewrite (IH Hall). apply Hok in He. destruct e; try reflexivity; discriminate.
Qed.

Lemma admitted_no_sends (ok : Event -> bool) (tr : list Event) :
  (forall e, ok e = true -> is_ui_send e = false /\ is_cmd_send e = false) ->
  forallb ok tr = true -> send_outcomes tr = [].
Proof.
  intros Hok Hall. unfold send_outcomes. induction tr as [|e tr IH]; [reflexivity|].
  simpl in Hall. apply andb_true_iff in Hall as [He Hall].
  simpl. rewrite (IH Hall). apply Hok in He. destruct He.
  destruct e; try reflexivity; discriminate.
Qed.

(** X1.  The input sampler does no network I/O and draws nothing: a turn of
    [loop()] leaves the reachability flag, the network task's locals, the
    heartbeat counter and everything the renderer owns as they were. *)
Theorem input_sampler_owns_only_its_statics (env : LoopEnv) (w : World) :
  let out := loop env w in
  gProUnreachable (world_of out) = gProUnreachable w
  /\ net_locals (world_of out) = net_locals w
  /\ millisTime (world_of out) = millisTime w
  /\ ui_owned (world_of out) = ui_owned w
  /\ http_requests (trace_of out) = []
  /\ pushes (trace_of out) = [].
Proof.
  destruct (keeps_loop env w) as [Hw Ht]. cbv zeta.
  assert (H1 := f_equal (fun p => fst (fst (fst p))) Hw).
  assert (H2 := f_equal (fun p => snd (fst (fst p))) Hw).
  assert (H3 := f_equal (fun p => snd (fst p)) Hw).
  assert (H4 := f_equal (fun p => snd p) Hw).
  cbn [fst snd] in H1, H2, H3, H4. repeat split; auto.
  - apply (admitted_no_requests _ _ (fun e He =>
             proj1 (negb_true_iff _) (proj1 (proj1 (andb_true_iff _ _) He))) Ht).
  - apply (admitted_no_pushes _ _ (fun e He =>
             proj1 (negb_true_iff _) (proj2 (proj1 (andb_true_iff _ _) He))) Ht).
Qed.

(** X2.  The network task draws nothing and sends no command: serving a command
    leaves the command queue, the statics of [loop()], the heartbeat
    counter and everything the renderer owns as they were. *)
Theorem network_owns_only_its_state
        (parse : string -> JSONVar) (cmd : CmdMsg) (env : NetEnv) (w : World) :
  let out := handle_cmd parse cmd env w in
  outside_net (world_of out) = outside_net w
  /\ pushes (trace_of out) = []
  /\ Forall (fun e => is_cmd_send e = false) (trace_of out).
Proof.
  destruct (handle_cmd_outside parse cmd env w) as [Hw Ht]. cbv zeta.
  split; [exact Hw|]. split.
  - apply (admitted_no_pushes _ _ (fun e He =>
             proj1 (negb_true_iff _) (proj1 (proj1 (andb_true_iff _ _) He))) Ht).
  - rewrite forallb_forall in Ht. apply Forall_forall. intros e He.
    specialize (Ht e He). apply andb_true_iff in Ht as [_ Ht].
    now apply negb_true_iff.
Qed.

Lemma keeps_drawTitleMarqueeTick (lay : Layout) (now : Z) :
  keeps outside_ui is_push (drawTitleMarqueeTick lay now).
Proof. unfold drawTitleMarqueeTick. keeps_tac. Qed.

Lemma keeps_ui_handle (tft : Tft) (lay : Layout) (msg : UiMsg) (t1 t2 : Z) :
  keeps outside_ui is_push (ui_handle tft lay msg t1 t2).
Proof.
  unfold ui_handle, drawStatusBar, drawSlideCard. keeps_tac;
    apply keeps_drawTitleMarqueeTick.
Qed.

(** X3.  The renderer only draws: handling a message sends nothing, requests
    nothing, and leaves both queues, the reachability flag, the network
    task's locals, the statics of [loop()] and the heartbeat counter as
    they were. *)
Theorem renderer_owns_only_its_state
        (tft : Tft) (lay : Layout) (msg : UiMsg) (t1 t2 : Z) (w : World) :
  let out := ui_handle tft lay msg t1 t2 w in
  outside_ui (world_of out) = outside_ui w
  /\ send_outcomes (trace_of out) = []
  /\ http_requests (trace_of out) = [].
Proof.
  destruct (keeps_ui_handle tft lay msg t1 t2 w) as [Hw Ht]. cbv zeta.
  split; [exact Hw|]. split.
  - apply (admitted_no_sends is_push); [|exact Ht].
    intros e He. destruct e; try discriminate; auto.
  - apply (admitted_no_requests is_push); [|exact Ht].
    intros e He. destruct e; try discriminate; auto.
Qed.

(** X4.  One turn of the renderer takes the front message of the UI queue, if
    there is one, and nothing more; everything it does is a push; and the
    turn ends with the heartbeat, showing the whole seconds of the counter
    as the heartbeat task left it. *)
Theorem ui_turn_takes_one_and_beats
        (tft : Tft) (lay : Layout) (t1 t2 : Z) (w : World) :
  let out := uiTask_iter tft lay t1 t2 w in
  uiQ (world_of out) = tl (uiQ w)
  /\ forallb is_push (trace_of out) = true
  /\ exists before, trace_of out = (before ++ [EvPush (Heartbeat (millisTime w / 1000))])%list.
Proof.
  unfold uiTask_iter. cbv zeta.
  rewrite ?trace_bind, ?world_bind, ?result_bind.
  change (trace_of (receive_ui w)) with (@nil Event).
  destruct (uiQ w) as [|m q] eqn:Eq.
  - assert (Hrx : receive_ui w = (None, set_uiQ [] w, []))
      by (unfold receive_ui; rewrite Eq; reflexivity).
    rewrite Hrx. cbn [result_of world_of trace_of fst snd app].
    destruct (keeps_drawTitleMarqueeTick lay t2 (set_uiQ [] w)) as [Hw Ht].
    unfold outside_ui in Hw.
    assert (H2 := f_equal (fun p => snd (fst (fst (fst (fst p))))) Hw).
    assert (H6 := f_equal (fun p => snd p) Hw).
    cbn [fst snd] in H2, H6.
    cbn -[drawTitleMarqueeTick Z.div]. rewrite H2, H6, forallb_app, Ht.
    repeat split. eexists. reflexivity.
  - assert (Hrx : receive_ui w = (Some m, set_uiQ q w, []))
      by (unfold receive_ui; rewrite Eq; reflexivity).
    rewrite Hrx. cbn [result_of world_of trace_of fst snd app].
    destruct (keeps_ui_handle tft lay m t1 t2 (set_uiQ q w)) as [Hw Ht].
    unfold outside_ui in Hw.
    assert (H2 := f_equal (fun p => snd (fst (fst (fst (fst p))))) Hw).
    assert (H6 := f_equal (fun p => snd p) Hw).
    cbn [fst snd] in H2, H6.
    cbn -[ui_handle Z.div]. rewrite H2, H6, forallb_app, Ht.
    repeat split. eexists. reflexivity.
Qed.

(** ** Link establishment ([ensureWiFi]) *)

Lemma total_delay_app (t1 t2 : list Event) :
  total_delay (t1 ++ t2) = total_delay t1 + total_delay t2.
Proof.
  unfold total_delay. rewrite flat_map_app.
  induction (flat_map _ t1) as [|x l IH]; simpl; lia.
Qed.

Lemma wait_no_io (probe : nat -> bool) (n i : nat) :
  keeps (fun _ => tt) (fun e => negb (is_network_io e)) (ensureWiFi_wait probe i n).
Proof. apply keeps_ensureWiFi_wait; keeps_side. Qed.

Lemma ensureWiFi_wait_outcome (probe : nat -> bool) (n i : nat) (w : World) :
  let out := ensureWiFi_wait probe i n w in
  (result_of out = true <-> comes_up probe i n)
  /\ ui_offered (trace_of out)
     = [wifi_msg (if result_of out then "Wi-Fi OK" else "No Wi-Fi")]
  /\ 0 <= total_delay (trace_of out) <= 100 * Z.of_nat n
  /\ (result_of out = false -> total_delay (trace_of out) = 100 * Z.of_nat n)
  /\ lastAttemptMs (world_of out) = lastAttemptMs w.
Proof.
  revert i w. induction n as [|n IH]; intros i w; cbv zeta.
  - cbn -[Queue.xQueueSend]. repeat split; try lia; try discriminate.
    intros (j & Hj & _). lia.
  - change (ensureWiFi_wait probe i (S n))
      with (if probe i then enqueueWifi "Wi-Fi OK" ;; ret true
            else vTaskDelay (pdMS_TO_TICKS 100) ;; ensureWiFi_wait probe (S i) n).
    destruct (probe i) eqn:Hp.
    + cbn -[Queue.xQueueSend Z.of_nat Z.mul]. repeat split; try lia; try discriminate.
      intros _. exists i. split; [lia | exact Hp].
    + destruct (IH (S i) w) as (H1 & H2 & H3 & H4 & H5).
      rewrite result_bind, trace_bind, world_bind.
      change (world_of (vTaskDelay (pdMS_TO_TICKS 100) w)) with w.
      change (trace_of (vTaskDelay (pdMS_TO_TICKS 100) w)) with [EvDelay 100].
      rewrite total_delay_app, ui_offered_app.
      change (total_delay [EvDelay 100]) with 100.
      change (ui_offered [EvDelay 100]) with (@nil UiMsg).
      rewrite H2, H5. cbv zeta in *. repeat split; try lia.
      * intros Hr. apply H1 in Hr. destruct Hr as (j & Hj & Hpj). exists j. split; [lia | exact Hpj].
      * intros (j & Hj & Hpj). apply H1. exists j. split; [|exact Hpj].
        destruct (Nat.eq_dec j i) as [-> | Hne]; [congruence | lia].
      * intros Hr. rewrite (H4 Hr). lia.
Qed.

Lemma ensure_wifi_quiet_cases_aux (env : NetEnv) (w : World) :
  wifi_up env = true ->
  result_of (ensureWiFi env w) = true /\ world_of (ensureWiFi env w) = w.
Proof. unfold ensureWiFi. intros ->. split; reflexivity. Qed.

(** X5.  [ensureWiFi] does nothing when the link is already up, and nothing
    when it is down but the last attempt was less than 2000 ms ago: it
    returns at once (true, respectively false), with no event and the
    world as it was. *)
Theorem ensure_wifi_quiet_cases (env : NetEnv) (w : World) :
  (wifi_up env = true -> ensureWiFi env w = (true, w, []))
  /\ (wifi_up env = false -> C.u32_sub (now_ms env) (lastAttemptMs w) < 2000 ->
      ensureWiFi env w = (false, w, [])).
Proof.
  unfold ensureWiFi. split.
  - intros ->. reflexivity.
  - intros -> Hlt. apply Z.ltb_lt in Hlt. unfold bind at 1, get.
    cbn [result_of world_of trace_of fst snd]. rewrite Hlt. reflexivity.
Qed.

Lemma ensure_wifi_quiet_cases_witness :
  let env := mkNetEnv false (fun _ => true) 1500 0 (mkReply true 204 "") (mkReply true 204 "") in
  let w := set_lastAttemptMs 1000 World_init in
  wifi_up env = false
  /\ C.u32_sub (now_ms env) (lastAttemptMs w) < 2000
  /\ ensureWiFi env w = (false, w, []).
Proof.
  intros env w.
  assert (H : C.u32_sub (now_ms env) (lastAttemptMs w) < 2000) by (vm_compute; reflexivity).
  split; [reflexivity|]. split; [exact H|].
  exact (proj2 (ensure_wifi_quiet_cases env w) eq_refl H).
Defined.

(** X6.  A connection attempt (link down, at least 2000 ms since the last
    attempt) records its time, starts the driver once and offers exactly
    two Wi-Fi messages: the announcement of the attempt and its outcome.
    It succeeds exactly when the link is seen up at one of ten looks, and
    it waits at most ten times 100 ticks, all ten when it fails. *)
Theorem ensure_wifi_attempt (env : NetEnv) (w : World) :
  wifi_up env = false ->
  2000 <= C.u32_sub (now_ms env) (lastAttemptMs w) ->
  let out := ensureWiFi env w in
  lastAttemptMs (world_of out) = now_ms env
  /\ (result_of out = true <-> comes_up (wifi_probe env) 0 10)
  /\ ui_offered (trace_of out)
     = [wifi_msg "Wi-Fi…"; wifi_msg (if result_of out then "Wi-Fi OK" else "No Wi-Fi")]
  /\ filter is_network_io (trace_of out) = [EvWifiBegin]
  /\ 0 <= total_delay (trace_of out) <= 1000
  /\ (result_of out = false -> total_delay (trace_of out) = 1000).
Proof.
  intros Hup Hdue. unfold ensureWiFi. rewrite Hup.
  assert (Hlt : (C.u32_sub (now_ms env) (lastAttemptMs w) <? 2000) = false)
    by (apply Z.ltb_ge; exact Hdue).
  cbn -[C.u32_sub Z.ltb ensureWiFi_wait Queue.xQueueSend]. rewrite Hlt.
  cbn -[C.u32_sub Z.ltb ensureWiFi_wait Queue.xQueueSend].
  match goal with
  | |- context [trace_of (ensureWiFi_wait ?p 0 10 ?w')] =>
      destruct (ensureWiFi_wait_outcome p 10 0 w') as (H1 & H2 & H3 & H4 & H5);
      destruct (wait_no_io p 10 0 w') as [_ Hk]
  end.
  cbv zeta in *. unfold ui_offered in H2. rewrite H2, H5.
  change (100 * Z.of_nat 10) with 1000 in *.
  split; [reflexivity|]. split; [exact H1|]. split; [reflexivity|]. split.
  - f_equal. clear -Hk.
    induction (trace_of _) as [|e tr IH]; [reflexivity|].
    simpl in Hk. apply andb_true_iff in Hk as [He Hk]. simpl.
    apply negb_true_iff in He. rewrite He. exact (IH Hk).
  - split.
    + unfold total_delay in *. cbn [flat_map app] in *. exact H3.
    + intros Hr. unfold total_delay in *. cbn [flat_map app]. exact (H4 Hr).
Qed.

Lemma ensure_wifi_attempt_witness :
  let env := mkNetEnv false (fun i => (3 <=? i)%nat) 5000 0
                      (mkReply true 204 "") (mkReply true 204 "") in
  let out := ensureWiFi env World_init in
  wifi_up env = false
  /\ 2000 <= C.u32_sub (now_ms env) (lastAttemptMs World_init)
  /\ lastAttemptMs (world_of out) = 5000
  /\ (result_of out = true <-> comes_up (wifi_probe env) 0 10).
Proof.
  intros env out.
  assert (H : 2000 <= C.u32_sub (now_ms env) (lastAttemptMs World_init))
    by (vm_compute; discriminate).
  split; [reflexivity|]. split; [exact H|].
  destruct (ensure_wifi_attempt env World_init eq_refl H) as (H1 & H2 & _).
  split; [exact H1 | exact H2].
Defined.

(** ** Poll outcome and retry *)

Ltac split_poll :=
  repeat (match goal with
          | |- context [if ?c then _ else _] => destruct c eqn:?
          end; run_poll).

Lemma poll_summary (parse : string -> JSONVar) (r : HttpReply) (errMsg : string) (w : World) :
  let out := pollSlideOnce parse r errMsg w in
  let ok := poll_succeeds parse r in
  result_of out = (ok, poll_error parse r errMsg)
  /\ gProUnreachable (world_of out) = negb ok
  /\ http_requests (trace_of out) = (if begin_ok r then [poll_url] else [])
  /\ List.length (slide_updates (trace_of out)) = (if ok then 1 else 0)%nat
  /\ nextForcedPoll (world_of out) = nextForcedPoll w
  /\ lastBgPoll (world_of out) = lastBgPoll w.
Proof.
  unfold poll_error, poll_succeeds, pollSlideOnce, httpGET_once, poll_url, slide_updates, when.
  destruct (begin_ok r); run_poll;
    [destruct (0 <? get_code r); run_poll;
     [destruct (get_code r =? HTTP_CODE_OK); run_poll;
      [destruct (String.eqb (JSON.typeof (parse (get_string r))) "undefined"); run_poll|]|]|];
    destruct (gProUnreachable w) eqn:Hd; run_poll; rewrite ?Hd;
    try (repeat split; reflexivity);
    destruct (JSON.hasOwnProperty (parse (get_string r)) "presentation_index"); run_poll;
    rewrite ?Hd; repeat split; cbn; rewrite ?Hd; reflexivity.
Qed.

(** X7.  Whatever the reply and the state before: the poll returns success
    exactly when the request went through with status 200 and a body that
    parses; the unreachable flag afterwards is the negation of the result;
    at most one request is sent; exactly one SlideUpdate is offered on
    success and none on failure; and on failure [errMsg] names the cause
    ("Poll fail", "Bad JSON" or "HTTP"). *)
Theorem poll_outcome (parse : string -> JSONVar) (r : HttpReply) (errMsg : string) (w : World) :
  let out := pollSlideOnce parse r errMsg w in
  let ok := poll_succeeds parse r in
  result_of out = (ok, poll_error parse r errMsg)
  /\ gProUnreachable (world_of out) = negb ok
  /\ http_requests (trace_of out) = (if begin_ok r then [poll_url] else [])
  /\ List.length (slide_updates (trace_of out)) = (if ok then 1 else 0)%nat.
Proof.
  destruct (poll_summary parse r errMsg w) as (H1 & H2 & H3 & H4 & _).
  cbv zeta. auto.
Qed.

Lemma slide_updates_app (t1 t2 : list Event) :
  slide_updates (t1 ++ t2) = (slide_updates t1 ++ slide_updates t2)%list.
Proof. unfold slide_updates. now rewrite ui_offered_app, filter_app. Qed.

Lemma poll_no_delay (parse : string -> JSONVar) (r : HttpReply) (errMsg : string) (w : World) :
  total_delay (trace_of (pollSlideOnce parse r errMsg w)) = 0.
Proof.
  assert (H : keeps (fun _ => tt) (fun e => match e with EvDelay _ => false | _ => true end)
                    (pollSlideOnce parse r errMsg))
    by (unfold pollSlideOnce, httpGET_once, enqueueStatus, enqueueSlide; keeps_tac).
  destruct (H w) as [_ Hall]. unfold total_delay.
  induction (trace_of _) as [|e tr IH]; [reflexivity|].
  simpl in Hall. apply andb_true_iff in Hall as [He Hall]. simpl.
  destruct e; try discriminate; simpl; auto.
Qed.

Lemma poll_banner_count (parse : string -> JSONVar) (r : HttpReply) (errMsg : string) (w : World) :
  count_msg msg_unreachable (ui_offered (trace_of (pollSlideOnce parse r errMsg w)))
  = (if poll_succeeds parse r || gProUnreachable w then 0 else 1)%nat.
Proof.
  destruct (poll_succeeds parse r) eqn:Hs.
  - destruct (poll_success_effect parse r errMsg w Hs) as (_ & _ & idx1 & title & Hoff).
    rewrite Hoff, count_msg_app, (count_banner_slide msg_unreachable idx1 title eq_refl).
    destruct (gProUnreachable w); reflexivity.
  - destruct (poll_failure_effect parse r errMsg w Hs) as (_ & _ & Hoff).
    rewrite Hoff. destruct (gProUnreachable w); reflexivity.
Qed.

(** X8.  The poll with its one retry.  A second request is made only when the
    first poll fails, after a 150-tick delay and never more than once; the
    flag afterwards reflects the last poll made; one SlideUpdate is offered
    if either poll succeeds, none otherwise; and the two polls together
    offer the "Pro Unreachable" banner at most once. *)
Theorem poll_retry_budget (parse : string -> JSONVar) (env : NetEnv) (w : World) :
  let out := poll_with_retry parse env w in
  let ok1 := poll_succeeds parse (reply1 env) in
  let ok2 := poll_succeeds parse (reply2 env) in
  (List.length (http_requests (trace_of out)) <= (if ok1 then 1 else 2))%nat
  /\ total_delay (trace_of out) = (if ok1 then 0 else 150)
  /\ gProUnreachable (world_of out) = negb (ok1 || ok2)
  /\ List.length (slide_updates (trace_of out)) = (if ok1 || ok2 then 1 else 0)%nat
  /\ (count_msg msg_unreachable (ui_offered (trace_of out)) <= 1)%nat.
Proof.
  cbv zeta. unfold poll_with_retry.
  destruct (poll_summary parse (reply1 env) "" w) as (R1 & F1 & Q1 & S1 & _).
  assert (B1 := poll_banner_count parse (reply1 env) "" w).
  assert (D1 := poll_no_delay parse (reply1 env) "" w).
  cbv zeta in R1, F1, Q1, S1.
  rewrite trace_bind, world_bind, R1.
  set (o1 := pollSlideOnce parse (reply1 env) "" w) in *.
  destruct (poll_succeeds parse (reply1 env)) eqn:Hok1; cbn [negb orb].
  - change (trace_of (ret tt (world_of o1))) with (@nil Event).
    change (world_of (ret tt (world_of o1))) with (world_of o1).
    rewrite app_nil_r, Q1, S1, D1, F1, B1.
    repeat split; auto. destruct (begin_ok (reply1 env)); simpl; lia.
  - set (err := poll_error parse (reply1 env) "") in *.
    destruct (poll_summary parse (reply2 env) err (world_of o1)) as (R2 & F2 & Q2 & S2 & _).
    assert (B2 := poll_banner_count parse (reply2 env) err (world_of o1)).
    assert (D2 := poll_no_delay parse (reply2 env) err (world_of o1)).
    cbv zeta in R2, F2, Q2, S2.
    rewrite ?trace_bind, ?world_bind.
    set (o2 := pollSlideOnce parse (reply2 env) err (world_of o1)) in *.
    change (trace_of (vTaskDelay (pdMS_TO_TICKS 150) (world_of o1))) with [EvDelay 150].
    change (world_of (vTaskDelay (pdMS_TO_TICKS 150) (world_of o1))) with (world_of o1).
    fold o2.
    change (trace_of (ret tt (world_of o2))) with (@nil Event).
    change (world_of (ret tt (world_of o2))) with (world_of o2).
    rewrite app_nil_r, !http_requests_app, !slide_updates_app, !ui_offered_app,
      !count_msg_app, !total_delay_app, !length_app.
    rewrite Q1, Q2, S1, S2, D1, D2, F2, B1, B2, F1.
    change (http_requests [EvDelay 150]) with (@nil string).
    change (slide_updates [EvDelay 150]) with (@nil UiMsg).
    change (ui_offered [EvDelay 150]) with (@nil UiMsg).
    change (total_delay [EvDelay 150]) with 150.
    change (count_msg msg_unreachable []) with 0%nat.
    rewrite orb_true_r.
    repeat split; auto.
    + destruct (begin_ok (reply1 env)), (begin_ok (reply2 env)); simpl; lia.
    + destruct (gProUnreachable w); simpl; lia.
Qed.

(** ** Commands *)

Lemma trigger_success_effects (announce path done : string) (env : NetEnv) (w : World) :
  link_up env w = true -> trigger_accepted (reply1 env) = true ->
  let out := trigger announce path done env w in
  http_requests (trace_of out) = [baseUrl ++ path]
  /\ nextForcedPoll (world_of out) = C.u32_add (now_ticks env) kAfterTriggerDelay
  /\ gProUnreachable (world_of out) = gProUnreachable w
  /\ exists before, ui_offered (trace_of out)
                    = (before ++ [status_msg (C.strncpy 63 done)])%list.
Proof.
  intros Hup Hacc. cbv zeta. unfold trigger, link_up, trigger_accepted in *.
  set (w1 := world_of (enqueueStatus announce w)).
  destruct (ensureWiFi_frame env w1) as (H1 & _ & H3 & _ & _).
  destruct (ensureWiFi_frame env w) as (_ & _ & _ & _ & H5).
  assert (Hlink : result_of (ensureWiFi env w1) = result_of (ensureWiFi env w))
    by (apply (H5 (uiQ w1))).
  assert (Ha2 : http_requests (trace_of (enqueueStatus announce w)) = [])
    by reflexivity.
  rewrite ?trace_bind, ?world_bind, ?result_bind. fold w1. rewrite Hlink, Hup.
  change (gProUnreachable w1) with (gProUnreachable w) in H3.
  set (ta := trace_of (enqueueStatus announce w)) in *.
  set (tw := trace_of (ensureWiFi env w1)) in *.
  set (w2 := world_of (ensureWiFi env w1)) in *.
  clearbody ta tw w2. clear w1 Hlink H5.
  apply andb_true_iff in Hacc as [Hacc Hcode]. apply andb_true_iff in Hacc as [Hb Hpos].
  unfold httpGET_once. rewrite Hb.
  rewrite !http_requests_app, !ui_offered_app, Ha2, H1.
  cbn -[C.strncpy Queue.xQueueSend baseUrl Z.ltb Z.eqb HTTP_CODE_NO_CONTENT append
        C.u32_add kAfterTriggerDelay].
  rewrite Hpos, Hcode.
  cbn -[C.strncpy Queue.xQueueSend baseUrl append C.u32_add kAfterTriggerDelay].
  rewrite H3. repeat split; auto.
  eexists. rewrite app_assoc. reflexivity.
Qed.

(** X9.  A trigger command served with the link up and answered 204: exactly
    one request goes to the endpoint of that command, the last status
    offered is its "OK" text, the forced poll is scheduled 150 ticks after
    the current tick count (modulo 2^32), and the reachability flag is not
    touched. *)
Theorem trigger_success
        (parse : string -> JSONVar) (cmd : CmdMsg) (env : NetEnv) (w : World) :
  is_trigger (cmd_type cmd) = true ->
  link_up env w = true -> trigger_accepted (reply1 env) = true ->
  let out := handle_cmd parse cmd env w in
  http_requests (trace_of out) = [trigger_url (cmd_type cmd)]
  /\ nextForcedPoll (world_of out) = C.u32 (now_ticks env + 150)
  /\ gProUnreachable (world_of out) = gProUnreachable w
  /\ exists before, ui_offered (trace_of out)
                    = (before ++ [status_msg (trigger_done (cmd_type cmd))])%list.
Proof.
  intros Htrig Hup Hacc. cbv zeta. unfold handle_cmd, trigger_url, trigger_done.
  destruct (cmd_type cmd); try discriminate;
    match goal with
    | |- context [trigger ?a ?p ?d env w] =>
        destruct (trigger_success_effects a p d env w Hup Hacc) as (H1 & H2 & H3 & H4)
    end; repeat split; auto.
Qed.

Lemma trigger_success_witness :
  let env := mkNetEnv true (fun _ => false) 0 4294967290
                      (mkReply true 204 "") (mkReply true 204 "") in
  let out := handle_cmd sample_parse (mkCmd CMD_PREV) env World_init in
  is_trigger CMD_PREV = true
  /\ link_up env World_init = true
  /\ trigger_accepted (reply1 env) = true
  /\ http_requests (trace_of out) = ["http://192.168.1.7:50001/v1/trigger/previous"]
  /\ nextForcedPoll (world_of out) = 144.
Proof.
  intros env out.
  destruct (trigger_success sample_parse (mkCmd CMD_PREV) env World_init
              eq_refl eq_refl eq_refl) as (H1 & H2 & _).
  split; [reflexivity|]. split; [reflexivity|]. split; [reflexivity|].
  split; [exact H1 | exact H2].
Defined.

Lemma admitted_no_slides (tr : list Event) :
  forallb not_slide_send tr = true -> slide_updates tr = [].
Proof.
  intros Hall. unfold slide_updates, ui_offered.
  induction tr as [|e tr IH]; [reflexivity|].
  simpl in Hall. apply andb_true_iff in Hall as [He Hall].
  simpl. rewrite filter_app, (IH Hall).
  destruct e; try reflexivity. simpl. simpl in He. apply negb_true_iff in He. now rewrite He.
Qed.

Lemma ensureWiFi_no_slide (env : NetEnv) : keeps (fun _ => tt) not_slide_send (ensureWiFi env).
Proof.
  apply keeps_ensureWiFi; try keeps_side.
  intros m o Hm. unfold not_slide_send, is_slide_update. now rewrite Hm.
Qed.

Lemma trigger_no_slide (announce path done : string) (env : NetEnv) :
  keeps (fun _ => tt) not_slide_send (trigger announce path done env).
Proof.
  unfold trigger, httpGET_once, enqueueStatus, enqueueStatusCode.
  keeps_tac; apply ensureWiFi_no_slide.
Qed.

(** X10.  Whatever the command, when the link cannot be established nothing is
    requested from the server, no SlideUpdate is offered, no forced poll
    is scheduled and the reachability flag is not touched. *)
Theorem no_link_no_request
        (parse : string -> JSONVar) (cmd : CmdMsg) (env : NetEnv) (w : World) :
  link_up env w = false ->
  let out := handle_cmd parse cmd env w in
  http_requests (trace_of out) = []
  /\ slide_updates (trace_of out) = []
  /\ nextForcedPoll (world_of out) = nextForcedPoll w
  /\ gProUnreachable (world_of out) = gProUnreachable w.
Proof.
  intros Hdown. cbv zeta. unfold handle_cmd.
  destruct (ensureWiFi_frame env w) as (H1 & _ & H3 & H4 & _).
  destruct (ensureWiFi_no_slide env w) as [_ Hns]. apply admitted_no_slides in Hns.
  destruct (cmd_type cmd);
    try (match goal with
         | |- context [trigger ?a ?p ?d env w] =>
             destruct (trigger_effects a p d env w eq_refl) as [Hd _];
             destruct (Hd Hdown) as (T1 & _ & T3 & T4);
             destruct (trigger_no_slide a p d env w) as [_ Tns];
             apply admitted_no_slides in Tns
         end; repeat split; assumption);
    rewrite trace_bind, world_bind; unfold link_up in Hdown; rewrite ?Hdown;
    change (trace_of (ret tt (world_of (ensureWiFi env w)))) with (@nil Event);
    change (world_of (ret tt (world_of (ensureWiFi env w)))) with (world_of (ensureWiFi env w));
    rewrite app_nil_r, H1, H3, H4, Hns; repeat split.
Qed.

Lemma no_link_no_request_witness :
  let env := mkNetEnv false (fun _ => false) 9000 0
                      (mkReply true 200 payload_sermon) (mkReply true 200 payload_sermon) in
  let out := handle_cmd sample_parse (mkCmd CMD_POLL) env World_init in
  link_up env World_init = false
  /\ http_requests (trace_of out) = []
  /\ slide_updates (trace_of out) = [].
Proof.
  intros env out.
  destruct (no_link_no_request sample_parse (mkCmd CMD_POLL) env World_init eq_refl)
    as (H1 & H2 & _).
  split; [reflexivity|]. split; [exact H1 | exact H2].
Defined.

(** ** One turn of the network task ([httpTask]) *)


Lemma httpTask_iter_parts (parse : string -> JSONVar) (envs : nat -> NetEnv)
      (forced bg : NetEnv) (now : Z) :
  httpTask_iter parse envs forced bg now
  = (pending <- get cmdQ ;;
     didWork <- drain_cmds parse envs 0 (List.length pending) ;;
     forced_poll_part parse forced now ;;
     bg_poll_part parse bg now didWork ;;
     vTaskDelay (pdMS_TO_TICKS 10)).
Proof. reflexivity. Qed.



(** X12.  A turn with nothing to do: no command pending, no forced poll due and
    less than the poll interval since the last background poll.  The turn
    is the 10-tick delay and nothing else; the world is as it was. *)
Theorem http_idle_turn (parse : string -> JSONVar) (envs : nat -> NetEnv)
        (forced bg : NetEnv) (now : Z) (w : World) :
  cmdQ w = [] ->
  nextForcedPoll w = 0 \/ now < nextForcedPoll w ->
  C.u32_sub now (lastBgPoll w) < kPollIntervalTicks ->
  httpTask_iter parse envs forced bg now w = (tt, w, [EvDelay 10]).
Proof.
  intros Hq Hf Hb. unfold httpTask_iter.
  destruct w as [cq uq down mt mq la nf lb lk lc ls lt lst wc lr].
  cbn [cmdQ nextForcedPoll lastBgPoll] in Hq, Hf, Hb. subst cq.
  assert (Hfc : negb (nf =? 0) && (nf <=? now) = false).
  { destruct Hf as [-> | Hlt]; [reflexivity|].
    apply andb_false_iff. right. apply Z.leb_gt. exact Hlt. }
  apply Z.leb_gt in Hb.
  unfold bind, get. cbn -[C.u32_sub kPollIntervalTicks Z.leb Z.eqb].
  rewrite Hfc. cbn -[C.u32_sub kPollIntervalTicks Z.leb Z.eqb]. rewrite Hb. reflexivity.
Qed.

Lemma http_idle_turn_witness :
  let up := mkNetEnv true (fun _ => false) 0 0 (mkReply true 200 "{}") (mkReply true 200 "{}") in
  let w := set_lastBgPoll 4800 World_init in
  cmdQ w = []
  /\ C.u32_sub 5000 (lastBgPoll w) < kPollIntervalTicks
  /\ httpTask_iter sample_parse (fun _ => up) up up 5000 w = (tt, w, [EvDelay 10]).
Proof.
  intros up w.
  assert (Hb : C.u32_sub 5000 (lastBgPoll w) < kPollIntervalTicks) by (vm_compute; reflexivity).
  split; [reflexivity|]. split; [exact Hb|].
  exact (http_idle_turn sample_parse (fun _ => up) up up 5000 w eq_refl (or_introl eq_refl) Hb).
Defined.

(** X13.  A forced poll is one shot.  With no command pending and the scheduled
    tick reached, the turn clears the schedule; and with the link up and
    the client set up, the slide-index request is sent in that turn. *)
Theorem forced_poll_one_shot (parse : string -> JSONVar) (envs : nat -> NetEnv)
        (forced bg : NetEnv) (now : Z) (w : World) :
  cmdQ w = [] ->
  nextForcedPoll w <> 0 -> nextForcedPoll w <= now ->
  let out := httpTask_iter parse envs forced bg now w in
  nextForcedPoll (world_of out) = 0
  /\ (wifi_up forced = true -> begin_ok (reply1 forced) = true ->
      In poll_url (http_requests (trace_of out))).
Proof.
  intros Hq Hne Hdue. cbv zeta. rewrite httpTask_iter_parts.
  rewrite ?world_bind, ?result_bind, ?trace_bind.
  change (world_of (get cmdQ w)) with w. change (result_of (get cmdQ w)) with (cmdQ w).
  rewrite Hq.
  change (world_of (drain_cmds parse envs 0 (List.length (@nil CmdMsg)) w)) with w.
  change (result_of (drain_cmds parse envs 0 (List.length (@nil CmdMsg)) w)) with false.
  assert (Hcond : negb (nextForcedPoll w =? 0) && (nextForcedPoll w <=? now) = true).
  { apply andb_true_iff. split.
    - apply negb_true_iff, Z.eqb_neq, Hne.
    - apply Z.leb_le, Hdue. }
  assert (Hb : keeps nextForcedPoll (fun _ => true) (bg_poll_part parse bg now false))
    by (apply keeps_bg_poll_part; keeps_side).
  assert (He : keeps nextForcedPoll (fun _ => true) (ensureWiFi forced))
    by (apply keeps_ensureWiFi; keeps_side).
  assert (Hp : keeps nextForcedPoll (fun _ => true) (poll_with_retry parse forced))
    by (apply keeps_poll_with_retry; keeps_side).
  split.
  - change (nextForcedPoll (world_of (bg_poll_part parse bg now false
                              (world_of (forced_poll_part parse forced now w)))) = 0).
    rewrite (proj1 (Hb _)). unfold forced_poll_part.
    rewrite world_bind. change (result_of (get nextForcedPoll w)) with (nextForcedPoll w).
    change (world_of (get nextForcedPoll w)) with w.
    rewrite Hcond. cbn [when]. rewrite !world_bind.
    change (world_of (modify (set_nextForcedPoll 0) w)) with (set_nextForcedPoll 0 w).
    destruct (result_of (ensureWiFi forced (set_nextForcedPoll 0 w))).
    + rewrite (proj1 (Hp _)), (proj1 (He _)). reflexivity.
    + change (world_of (ret tt ?x)) with x. cbn [world_of ret fst snd].
      rewrite (proj1 (He _)). reflexivity.
  - intros Hup Hbegin.
    rewrite !http_requests_app. apply in_or_app. right. apply in_or_app. right.
    apply in_or_app. left. unfold forced_poll_part. rewrite trace_bind.
    change (result_of (get nextForcedPoll w)) with (nextForcedPoll w).
    change (world_of (get nextForcedPoll w)) with w.
    rewrite Hcond. cbn [when]. rewrite ?trace_bind, ?world_bind, ?result_bind.
    change (world_of (modify (set_nextForcedPoll 0) w)) with (set_nextForcedPoll 0 w).
    destruct (ensure_wifi_quiet_cases_aux forced (set_nextForcedPoll 0 w) Hup) as [Hr Hw].
    rewrite Hr, Hw, !http_requests_app.
    apply in_or_app. right. apply in_or_app. right. apply in_or_app. right.
    unfold poll_with_retry. rewrite trace_bind, http_requests_app.
    apply in_or_app. left.
    destruct (poll_summary parse (reply1 forced) "" (set_nextForcedPoll 0 w))
      as (_ & _ & Hreq & _).
    rewrite Hreq, Hbegin. now left.
Qed.

(** A scheduled poll that has come due is taken in this turn. *)
Lemma forced_poll_one_shot_witness :
  let up := mkNetEnv true (fun _ => false) 0 1000 (mkReply true 200 "{}") (mkReply true 200 "{}") in
  let w := set_nextForcedPoll 100 World_init in
  let out := httpTask_iter sample_parse (fun _ => up) up up 5000 w in
  nextForcedPoll w = 100
  /\ nextForcedPoll (world_of out) = 0
  /\ In poll_url (http_requests (trace_of out)).
Proof.
  intros up w out.
  assert (Hne : nextForcedPoll w <> 0) by discriminate.
  assert (Hdue : nextForcedPoll w <= 5000) by (vm_compute; discriminate).
  destruct (forced_poll_one_shot sample_parse (fun _ => up) up up 5000 w eq_refl Hne Hdue)
    as [H1 H2].
  split; [reflexivity|]. split; [exact H1 | exact (H2 eq_refl eq_refl)].
Defined.

(** ** Input sampler ([loop]) *)

Lemma wifi_texts_app (t1 t2 : list Event) :
  wifi_texts (t1 ++ t2) = (wifi_texts t1 ++ wifi_texts t2)%list.
Proof. unfold wifi_texts. now rewrite ui_offered_app, filter_app, map_app. Qed.

Lemma loop_announcement (env : LoopEnv) (w : World) :
  wifi_texts (trace_of (loop env w))
  = (if Bool.eqb (wifi_at_announce env) (lastConn w) then []
     else [if wifi_at_announce env then "Wi-Fi OK" else "No Wi-Fi"])
  /\ lastConn (world_of (loop env w)) = wifi_at_announce env.
Proof.
  unfold loop, when, enqueueStatus, enqueueWifi.
  destruct w as [cq uq down mt mq la nf lb lk lc ls lt lst wc lr].
  destruct (action_click env), (m5_click env), (axp_press env =? 2);
    cbn -[Queue.xQueueSend C.u32_sub Z.ltb];
    destruct (3000 <? C.u32_sub (loop_ms env) lk);
    cbn -[Queue.xQueueSend C.u32_sub Z.ltb];
    destruct (wifi_at_kick env), (wifi_at_announce env), lc;
    cbn -[Queue.xQueueSend]; split; reflexivity.
Qed.

(** X14.  Over any number of turns of [loop()], the Wi-Fi announcements it
    offers alternate between "Wi-Fi OK" and "No Wi-Fi", the first being
    the opposite of the state last announced: the same state is never
    announced twice in a row. *)
Theorem wifi_announcements_alternate (envs : list LoopEnv) (w : World) :
  alternates (lastConn w) (wifi_texts (trace_of (run_loops envs w))).
Proof.
  revert w. induction envs as [|env rest IH]; intros w; [exact I|].
  change (run_loops (env :: rest)) with (loop env ;; run_loops rest).
  rewrite trace_bind, wifi_texts_app.
  destruct (loop_announcement env w) as [Ht Hc]. rewrite Ht.
  specialize (IH (world_of (loop env w))). rewrite Hc in IH.
  destruct (wifi_at_announce env), (lastConn w); simpl; auto.
Qed.

Lemma keeps_loop_gen (ok : Event -> bool) (env : LoopEnv) :
  (forall s o, In s ["CLICK PREV"; "CLICK NEXT"; "PWR→HOME"] ->
               ok (EvUiSend (status_msg s) o) = true) ->
  (forall s o, In s ["Wi-Fi OK"; "No Wi-Fi"] -> ok (EvUiSend (wifi_msg s) o) = true) ->
  (forall c o, ok (EvCmdSend c o) = true) ->
  (forall t, ok (EvDelay t) = true) ->
  keeps (fun _ => tt) ok (loop env).
Proof.
  intros Hs Hw Hc Hd. unfold loop, enqueueStatus, enqueueWifi.
  destruct (wifi_at_announce env); keeps_tac;
    try (apply keeps_send_ui; [keeps_side | intros o _]);
    first [apply Hs | apply Hw]; simpl; auto.
Qed.

(** X15.  Every message the input sampler offers to the UI queue fits the
    64-byte fields of the message, and the renderer's colour rule gives
    each of them the good colour: the click feedback because it contains
    "NEXT", "PREV" or "HOME", the Wi-Fi texts because they contain
    "Wi-Fi". *)
Theorem loop_messages_good_and_fitting (env : LoopEnv) (w : World) :
  Forall (fun m => fits_fields m = true /\ status_color (text m) = COL_GOOD)
         (ui_offered (trace_of (loop env w))).
Proof.
  assert (Hk : keeps (fun _ => tt) (fun e => sends_fitting e && sends_good e) (loop env)).
  { apply keeps_loop_gen; try reflexivity.
    - intros s o [<- | [<- | [<- | []]]]; reflexivity.
    - intros s o [<- | [<- | []]]; reflexivity. }
  destruct (Hk w) as [_ Hall]. unfold ui_offered.
  induction (trace_of _) as [|e tr IH]; [constructor|].
  simpl in Hall. apply andb_true_iff in Hall as [He Hall].
  simpl. apply Forall_app. split; [|exact (IH Hall)].
  destruct e; try constructor; [|constructor].
  apply andb_true_iff in He as [Hf Hg]. simpl in Hf, Hg.
  split; [exact Hf | now apply Z.eqb_eq].
Qed.

(** ** Messages of the network task *)

Lemma fits_text (t : UiType) (s : string) (i : Z) :
  fits_fields (mkUi t (C.take 63 s) i "") = true.
Proof.
  unfold fits_fields. cbn [text presName]. rewrite take_length.
  apply andb_true_iff. split; [apply Nat.leb_le; lia | reflexivity].
Qed.

Lemma fits_title (i : Z) (s : string) :
  fits_fields (mkUi UI_SLIDE "" i (C.take 63 s)) = true.
Proof.
  unfold fits_fields. cbn [text presName]. rewrite take_length.
  apply andb_true_iff. split; [reflexivity | apply Nat.leb_le; lia].
Qed.

Ltac fits_tac :=
  keeps_tac;
  try (apply keeps_send_ui;
       [keeps_side | intros; first [apply fits_text | apply fits_title]]).

Lemma fits_ensureWiFi_wait (probe : nat -> bool) (n i : nat) :
  keeps (fun _ => tt) sends_fitting (ensureWiFi_wait probe i n).
Proof.
  revert i. induction n as [|n IH]; intros i; cbn [ensureWiFi_wait];
    unfold enqueueWifi; fits_tac. apply IH.
Qed.

Lemma fits_ensureWiFi (env : NetEnv) :
  keeps (fun _ => tt) sends_fitting (ensureWiFi env).
Proof. unfold ensureWiFi, enqueueWifi. fits_tac. apply fits_ensureWiFi_wait. Qed.

Lemma fits_pollSlideOnce (parse : string -> JSONVar) (r : HttpReply) (errMsg : string) :
  keeps (fun _ => tt) sends_fitting (pollSlideOnce parse r errMsg).
Proof.
  unfold pollSlideOnce, httpGET_once, enqueueStatus, enqueueSlide. fits_tac.
Qed.

Lemma fits_handle_cmd (parse : string -> JSONVar) (cmd : CmdMsg) (env : NetEnv) :
  keeps (fun _ => tt) sends_fitting (handle_cmd parse cmd env).
Proof.
  unfold handle_cmd, trigger, poll_with_retry, httpGET_once,
    enqueueStatus, enqueueStatusCode.
  fits_tac; first [apply fits_ensureWiFi | apply fits_pollSlideOnce].
Qed.

(** X16.  Whatever the command, the replies and the presentation name, every
    message the network task offers to the UI queue has a text and a
    title of at most 63 bytes: it fits the 64-byte fields of the message
    with their terminating zero. *)
Theorem network_messages_fit
        (parse : string -> JSONVar) (cmd : CmdMsg) (env : NetEnv) (w : World) :
  Forall (fun m => (String.length (text m) <= 63)%nat
                   /\ (String.length (presName m) <= 63)%nat)
         (ui_offered (trace_of (handle_cmd parse cmd env w))).
Proof.
  destruct (fits_handle_cmd parse cmd env w) as [_ Hall]. unfold ui_offered.
  induction (trace_of _) as [|e tr IH]; [constructor|].
  simpl in Hall. apply andb_true_iff in Hall as [He Hall].
  simpl. apply Forall_app. split; [|exact (IH Hall)].
  destruct e; try constructor; [|constructor].
  simpl in He. apply andb_true_iff in He as [Ht Hn].
  split; now apply Nat.leb_le.
Qed.

(** ** Colour of the failure status *)

Lemma no_marker_start (s : string) (c : ascii) (rest : string) :
  all_chars (fun a => negb (Ascii.eqb a c)) s = true ->
  C.strstr s (String c rest) = false.
Proof.
  induction s as [|a s IH]; intros Hall; [reflexivity|].
  simpl in Hall. apply andb_true_iff in Hall as [Ha Hall].
  apply negb_true_iff, Ascii.eqb_neq in Ha.
  change (C.strstr (String a s) (String c rest))
    with (if String.prefix (String c rest) (String a s) then true
          else C.strstr s (String c rest)).
  simpl. destruct (ascii_dec c a) as [-> | _]; [congruence | exact (IH Hall)].
Qed.

Lemma all_chars_weaken (p q : ascii -> bool) (s : string) :
  (forall c, p c = true -> q c = true) -> all_chars p s = true -> all_chars q s = true.
Proof.
  intros Hpq. induction s as [|a s IH]; [reflexivity|]. simpl.
  intros H. apply andb_true_iff in H as [Ha Hs]. now rewrite (Hpq a Ha), (IH Hs).
Qed.

Lemma all_chars_app (p : ascii -> bool) (s t : string) :
  all_chars p (s ++ t) = all_chars p s && all_chars p t.
Proof. induction s as [|a s IH]; simpl; [reflexivity|]. now rewrite IH, andb_assoc. Qed.

Lemma all_chars_take (p : ascii -> bool) (n : nat) (s : string) :
  all_chars p s = true -> all_chars p (C.take n s) = true.
Proof.
  revert s. induction n as [|n IH]; intros [|a s]; simpl; auto.
  intros H. apply andb_true_iff in H as [Ha Hs]. now rewrite Ha, (IH s Hs).
Qed.

Lemma digits_start_no_marker (d : Decimal.uint) :
  all_chars starts_no_marker (NilEmpty.string_of_uint d) = true.
Proof. induction d; simpl; auto. Qed.

Lemma fmt_d_starts_no_marker (z : Z) : all_chars starts_no_marker (C.fmt_d z) = true.
Proof.
  unfold C.fmt_d, NilZero.string_of_int, NilZero.string_of_uint.
  destruct (Z.to_int z) as [d | d]; destruct d; simpl;
    try reflexivity; apply digits_start_no_marker.
Qed.

(** X17.  Whatever the code, the status "Request Failed <code>" that a failed
    trigger sends is drawn in the bad colour: none of the positive markers
    occurs in it, and "Request Failed" does. *)
Theorem failure_status_is_bad (code : Z) :
  status_color (C.snprintf_s_d 64 "Request Failed" code) = COL_BAD.
Proof.
  assert (Hall : all_chars starts_no_marker (C.snprintf_s_d 64 "Request Failed" code) = true).
  { unfold C.snprintf_s_d. apply all_chars_take. rewrite !all_chars_app.
    rewrite fmt_d_starts_no_marker. reflexivity. }
  assert (Hno : forall c rest, In c ["O"; "C"; "N"; "P"; "H"; "W"]%char ->
                  C.strstr (C.snprintf_s_d 64 "Request Failed" code) (String c rest) = false).
  { intros c rest Hc. apply no_marker_start.
    apply (all_chars_weaken starts_no_marker); [|exact Hall].
    intros a Ha. unfold starts_no_marker in Ha. apply negb_true_iff in Ha.
    apply negb_true_iff. destruct (Ascii.eqb a c) eqn:E; [|reflexivity].
    apply Ascii.eqb_eq in E. subst a.
    simpl in Hc. destruct Hc as [<- | [<- | [<- | [<- | [<- | [<- | []]]]]]]; discriminate. }
  unfold status_color.
  rewrite (Hno "O"%char "K"), (Hno "C"%char "onnected"), (Hno "N"%char "EXT"),
    (Hno "P"%char "REV"), (Hno "H"%char "OME"), (Hno "W"%char "i-Fi")
    by (simpl; tauto).
  cbn [orb].
  assert (Hocc : C.strstr (C.snprintf_s_d 64 "Request Failed" code) "Request Failed" = true)
    by reflexivity.
  now rewrite Hocc, orb_true_r.
Qed.

(** ** Marquee phases *)

(** X18.  The pause phase.  The title is pushed left-aligned at the padding; the
    marquee stays as it is while less than 500 ms have passed since the
    pause began, and at the first tick at or after 500 ms it leaves the
    pause with offset 0 and the tick time as the start of scrolling. *)
Theorem marquee_pause_step (lay : Layout) (now : Z) (w : World) :
  let m := gMarq w in
  mq_needed m = true -> mq_inPause m = true ->
  let out := drawTitleMarqueeTick lay now w in
  pushes (trace_of out) = [PushTitlePaused (mq_text m) (PAD lay)]
  /\ (C.u32_sub now (mq_pauseStart m) < 500 -> gMarq (world_of out) = m)
  /\ (500 <= C.u32_sub now (mq_pauseStart m) ->
      gMarq (world_of out)
      = mkMarquee (mq_text m) 0 (mq_w m) true now (mq_pauseStart m) false).
Proof.
  intros m Hn Hp. subst m. unfold drawTitleMarqueeTick.
  destruct w as [cq uq down mt [tx x wd nd ltk ps ip] la nf lb lk lc ls lt lst wc lr].
  cbn [gMarq mq_needed mq_inPause mq_pauseStart mq_text mq_w] in *. subst nd ip.
  run_ui. destruct (Z.leb_spec 500 (C.u32_sub now ps)); run_ui;
    repeat split; intros; try reflexivity; lia.
Qed.

Lemma marquee_pause_step_witness :
  let w := set_gMarq (mkMarquee "A long title" 0 300 true 1000 1000 true) World_init in
  let out := drawTitleMarqueeTick (initLayoutAndSprites stick_tft) 1500 w in
  mq_needed (gMarq w) = true /\ mq_inPause (gMarq w) = true
  /\ 500 <= C.u32_sub 1500 (mq_pauseStart (gMarq w))
  /\ gMarq (world_of out) = mkMarquee "A long title" 0 300 true 1500 1000 false.
Proof.
  intros w out.
  assert (H : 500 <= C.u32_sub 1500 (mq_pauseStart (gMarq w))) by (vm_compute; discriminate).
  split; [reflexivity|]. split; [reflexivity|]. split; [exact H|].
  exact (proj2 (proj2 (marquee_pause_step (initLayoutAndSprites stick_tft) 1500 w
                         eq_refl eq_refl)) H).
Defined.

(** X19.  When a tick changes nothing.  A title that needs no scrolling is
    pushed centred, never left of the padding, and the marquee is left as
    it is; and in the scroll phase a tick that comes before the 75 ms
    period has elapsed leaves the marquee as it is. *)
Theorem marquee_holds_still (lay : Layout) (now : Z) (w : World) :
  let m := gMarq w in
  let out := drawTitleMarqueeTick lay now w in
  (mq_needed m = false ->
     gMarq (world_of out) = m
     /\ exists x, pushes (trace_of out) = [PushTitleCentered (mq_text m) x] /\ PAD lay <= x)
  /\ (mq_needed m = true -> mq_inPause m = false ->
      C.u32_sub now (mq_lastTick m) < 75 ->
      gMarq (world_of out) = m).
Proof.
  intros m. subst m. unfold drawTitleMarqueeTick.
  destruct w as [cq uq down mt [tx x wd nd ltk ps ip] la nf lb lk lc ls lt lst wc lr].
  cbn [gMarq mq_needed mq_inPause mq_lastTick mq_text mq_w]. split.
  - intros ->. run_ui. split; [reflexivity|].
    destruct (Z.ltb_spec (C.iadd (PAD lay)
                (C.idiv (C.isub (C.isub (LCD_W lay) (C.imul 2 (PAD lay))) wd) 2)) (PAD lay));
      eexists; split; try reflexivity; lia.
  - intros -> -> Hlt. run_ui. apply Z.leb_gt in Hlt. rewrite Hlt. reflexivity.
Qed.

Lemma marquee_holds_still_witness :
  let w := set_gMarq (mkMarquee "A long title" (-10) 300 true 1000 0 false) World_init in
  let out := drawTitleMarqueeTick (initLayoutAndSprites stick_tft) 1040 w in
  mq_needed (gMarq w) = true /\ mq_inPause (gMarq w) = false
  /\ C.u32_sub 1040 (mq_lastTick (gMarq w)) < 75
  /\ gMarq (world_of out) = gMarq w.
Proof.
  intros w out.
  assert (H : C.u32_sub 1040 (mq_lastTick (gMarq w)) < 75) by (vm_compute; reflexivity).
  split; [reflexivity|]. split; [reflexivity|]. split; [exact H|].
  exact (proj2 (marquee_holds_still (initLayoutAndSprites stick_tft) 1040 w)
           eq_refl eq_refl H).
Defined.

(** X20.  A SlideUpdate and the marquee.  With the title unchanged the marquee
    is not touched, so a scroll in progress goes on from where it is.
    With a new title the marquee restarts: offset 0, the measured width of
    the new title in font 4, scrolling needed exactly when that width
    exceeds the panel width less the padding on both sides, and the pause
    begun at the time of the change when scrolling is needed. *)
Theorem title_change_restarts_marquee
        (tft : Tft) (lay : Layout) (msg : UiMsg) (t1 t2 : Z) (w : World) :
  ui_type msg = UI_SLIDE ->
  let out := ui_handle tft lay msg t1 t2 w in
  let width := textWidth tft 4 (presName msg) in
  let needed := C.isub (LCD_W lay) (C.imul 2 (PAD lay)) <? width in
  (lastTitle w = presName msg -> gMarq (world_of out) = gMarq w)
  /\ (lastTitle w <> presName msg -> C.u32_sub t2 t1 < 500 ->
      gMarq (world_of out)
      = mkMarquee (presName msg) 0 width needed t1 (if needed then t1 else 0) needed).
Proof.
  intros Hty. cbv zeta. unfold ui_handle, drawSlideCard, drawTitleMarqueeTick. rewrite Hty.
  destruct w as [cq uq down mt mq la nf lb lk lc ls lt lst wc lr].
  cbn [lastTitle gMarq]. split.
  - intros ->. run_ui.
    destruct (slideIndexOneBased msg =? ls); run_ui; rewrite String.eqb_refl; reflexivity.
  - intros Hne Hlt. apply String.eqb_neq in Hne. apply Z.leb_gt in Hlt.
    run_ui. destruct (slideIndexOneBased msg =? ls); run_ui; rewrite Hne; run_ui;
      (destruct (C.isub (LCD_W lay) (C.imul 2 (PAD lay)) <? textWidth tft 4 (presName msg));
       run_ui; [rewrite Hlt|]; reflexivity).
Qed.

Lemma title_change_restarts_marquee_witness :
  let lay := initLayoutAndSprites stick_tft in
  let msg := slide_msg 2 "A Very Long Presentation Title That Overflows" in
  let out := ui_handle stick_tft lay msg 7000 7001 World_init in
  ui_type msg = UI_SLIDE
  /\ lastTitle World_init <> presName msg
  /\ C.u32_sub 7001 7000 < 500
  /\ gMarq (world_of out)
     = mkMarquee "A Very Long Presentation Title That Overflows" 0 630 true 7000 7000 true.
Proof.
  intros lay msg out.
  assert (Hne : lastTitle World_init <> presName msg) by discriminate.
  assert (Hlt : C.u32_sub 7001 7000 < 500) by (vm_compute; reflexivity).
  split; [reflexivity|]. split; [exact Hne|]. split; [exact Hlt|].
  exact (proj2 (title_change_restarts_marquee stick_tft lay msg 7000 7001 World_init eq_refl)
           Hne Hlt).
Defined.

Lemma last_cons (t : Z) (a : list Z) (l : Z) : last (t :: a) l = last a t.
Proof.
  revert t l. induction a as [|u a IH]; intros t l; [reflexivity|].
  change (last (t :: u :: a) l) with (last (u :: a) l).
  now rewrite !IH.
Qed.

Lemma tick_all_app (lay : Layout) (a b : list Z) (w : World) :
  world_of (tick_all lay (a ++ b) w)
  = world_of (tick_all lay b (world_of (tick_all lay a w))).
Proof.
  revert w. induction a as [|t a IH]; intros w; [reflexivity|].
  change (tick_all lay ((t :: a) ++ b))
    with (drawTitleMarqueeTick lay t ;; tick_all lay (a ++ b)).
  change (tick_all lay (t :: a)) with (drawTitleMarqueeTick lay t ;; tick_all lay a).
  rewrite !world_bind. apply IH.
Qed.

Lemma each_elapsed_app (l : Z) (a b : list Z) :
  each_elapsed l (a ++ b) <-> each_elapsed l a /\ each_elapsed (last a l) b.
Proof.
  revert l. induction a as [|t a IH]; intros l.
  - simpl. tauto.
  - change (each_elapsed l ((t :: a) ++ b))
      with (75 <= C.u32_sub t l /\ each_elapsed t (a ++ b)).
    change (each_elapsed l (t :: a)) with (75 <= C.u32_sub t l /\ each_elapsed t a).
    rewrite IH.
    rewrite last_cons. tauto.
Qed.

Lemma scroll_run_last (lay : Layout) (times : list Z) (w : World) :
  let m := gMarq w in
  mq_needed m = true -> mq_inPause m = false ->
  each_elapsed (mq_lastTick m) times ->
  C.INT_MIN + 24 < mq_w m <= C.INT_MAX - 24 ->
  mq_x m <= C.INT_MAX ->
  - (mq_w m + 24) <= mq_x m - 2 * Z.of_nat (List.length times) ->
  let m' := gMarq (world_of (tick_all lay times w)) in
  mq_x m' = mq_x m - 2 * Z.of_nat (List.length times)
  /\ mq_inPause m' = false /\ mq_needed m' = true /\ mq_w m' = mq_w m
  /\ mq_lastTick m' = last times (mq_lastTick m).
Proof.
  revert w. induction times as [|t rest IH]; intros w m Hn Hp Hel Hw Hx Hlow.
  - subst m. cbn in *. repeat split; try assumption; lia.
  - destruct Hel as [Ht Hrest].
    change (tick_all lay (t :: rest))
      with (drawTitleMarqueeTick lay t ;; tick_all lay rest).
    rewrite world_bind.
    assert (Hlen : Z.of_nat (List.length (t :: rest)) = 1 + Z.of_nat (List.length rest))
      by (simpl List.length; lia).
    rewrite Hlen in *.
    assert (Hx' : C.INT_MIN + 2 <= mq_x m <= C.INT_MAX)
      by (unfold C.INT_MIN, C.INT_MAX in *; lia).
    destruct (scroll_tick lay t w Hn Hp Ht Hx' Hw)
      as (Hstep & _ & Hw' & _ & Hn' & Hlt).
    destruct Hstep as (Hx1 & _ & Hp1); [subst m; lia|].
    set (w1 := world_of (drawTitleMarqueeTick lay t w)) in *.
    fold m in Hx1, Hw'.
    destruct (IH w1) as (Hx2 & Hp2 & Hn2 & Hw2 & Hl2); auto.
    + now rewrite Hlt.
    + now rewrite Hw'.
    + rewrite Hx1. unfold C.INT_MAX in *. lia.
    + rewrite Hx1, Hw'. lia.
    + cbv zeta in Hx2, Hp2, Hn2, Hw2, Hl2 |- *.
      rewrite Hx2, Hx1, Hw2, Hw', Hl2, Hlt. repeat split; auto; [lia|].
      fold m. now rewrite last_cons.
Qed.

(** X21.  The length of the scroll phase.  Starting to scroll at offset 0 with
    text width [W], the offset goes down by 2 at each elapsed tick for
    [(W + 24) / 2] ticks, and the tick after those wraps: the offset is 0
    again and the pause begins at the time of that tick.  So the scroll
    phase lasts exactly [(W + 24) / 2 + 1] elapsed ticks. *)
Theorem marquee_scroll_phase_length
        (lay : Layout) (ticks : list Z) (t_wrap : Z) (w : World) :
  let m := gMarq w in
  mq_needed m = true -> mq_inPause m = false -> mq_x m = 0 ->
  0 <= mq_w m <= C.INT_MAX - 24 ->
  Z.of_nat (List.length ticks) = (mq_w m + 24) / 2 ->
  each_elapsed (mq_lastTick m) (ticks ++ [t_wrap]) ->
  let before := gMarq (world_of (tick_all lay ticks w)) in
  let after := gMarq (world_of (tick_all lay (ticks ++ [t_wrap]) w)) in
  mq_x before = - 2 * ((mq_w m + 24) / 2)
  /\ mq_inPause before = false
  /\ mq_x after = 0
  /\ mq_inPause after = true
  /\ mq_pauseStart after = t_wrap.
Proof.
  intros m Hn Hp Hx0 Hw Hlen Hel. cbv zeta.
  apply each_elapsed_app in Hel as [Hel1 Hel2].
  assert (Hw' : C.INT_MIN + 24 < mq_w m <= C.INT_MAX - 24)
    by (unfold C.INT_MIN, C.INT_MAX in *; lia).
  assert (Hdiv : 2 * ((mq_w m + 24) / 2) <= mq_w m + 24 < 2 * ((mq_w m + 24) / 2) + 2).
  { pose proof (Z.div_mod (mq_w m + 24) 2 ltac:(lia)).
    pose proof (Z.mod_pos_bound (mq_w m + 24) 2 ltac:(lia)). lia. }
  destruct (scroll_run_last lay ticks w Hn Hp Hel1 Hw') as (Hx & Hp1 & Hn1 & Hw1 & Hl1).
  { fold m. rewrite Hx0. unfold C.INT_MAX. lia. }
  { fold m. rewrite Hx0, Hlen. lia. }
  fold m in Hx, Hw1, Hl1. rewrite Hx0, Hlen in Hx.
  rewrite tick_all_app.
  set (w1 := world_of (tick_all lay ticks w)) in *.
  change (tick_all lay [t_wrap]) with (drawTitleMarqueeTick lay t_wrap ;; ret tt).
  rewrite world_bind. change (world_of (ret tt ?x)) with x.
  cbn [world_of ret fst snd].
  destruct Hel2 as [Hel2 _]. rewrite <- Hl1 in Hel2.
  destruct (scroll_tick lay t_wrap w1 Hn1 Hp1 Hel2) as (_ & Hwrap & _).
  { rewrite Hx. unfold C.INT_MIN, C.INT_MAX in *. lia. }
  { now rewrite Hw1. }
  destruct Hwrap as (Ha & Hb & Hc); [rewrite Hx, Hw1; lia|].
  repeat split; auto. rewrite Hx. lia.
Qed.

Lemma marquee_scroll_phase_length_witness :
  let lay := initLayoutAndSprites stick_tft in
  let w := set_gMarq (mkMarquee "wide" 0 3 true 0 0 false) World_init in
  let ticks := map Z.of_nat (seq 1 13) in
  let ms := map (fun t => 100 * t) ticks in
  mq_x (gMarq w) = 0
  /\ Z.of_nat (List.length ms) = (mq_w (gMarq w) + 24) / 2
  /\ mq_inPause (gMarq (world_of (tick_all lay (ms ++ [1400]) w))) = true.
Proof.
  intros lay w ticks ms.
  assert (Hlen : Z.of_nat (List.length ms) = (mq_w (gMarq w) + 24) / 2) by reflexivity.
  assert (Hw : 0 <= mq_w (gMarq w) <= C.INT_MAX - 24) by (vm_compute; split; discriminate).
  assert (Hel : each_elapsed (mq_lastTick (gMarq w)) (ms ++ [1400])).
  { vm_compute. repeat split; discriminate. }
  split; [reflexivity|]. split; [exact Hlen|].
  exact (proj1 (proj2 (proj2 (proj2
    (marquee_scroll_phase_length lay ms 1400 w eq_refl eq_refl eq_refl Hw Hlen Hel))))).
Defined.

(** ** Layout and card font *)

(** X22.  The screen layout.  For a panel whose sizes are non-negative [int]s:
    the card is at least 50 pixels high; the title strip starts one pad
    below the card; status bar and heartbeat strip end at the bottom edge;
    and the title strip, with the pad below it, stays above the status
    bar exactly when the panel is at least 134 pixels high.  On a shorter
    panel the 50-pixel minimum pushes the title strip into the status
    bar.  When the inner width is between 50 and the room left, the card
    is square. *)
Theorem layout_regions_stack (tft : Tft) :
  0 <= lcd_width tft <= C.INT_MAX ->
  0 <= lcd_height tft <= C.INT_MAX ->
  let lay := initLayoutAndSprites tft in
  50 <= CARD_H lay
  /\ TITLE_Y lay = CARD_Y lay + CARD_H lay + PAD lay
  /\ STATUS_Y lay + STATUS_H lay + HEART_H lay = lcd_height tft
  /\ (TITLE_Y lay + TITLE_H lay + PAD lay <= STATUS_Y lay <-> 134 <= lcd_height tft)
  /\ (50 <= lcd_width tft - 16 <= lcd_height tft - 84 ->
      CARD_H lay = lcd_width tft - 16).
Proof.
  intros Hw Hh. unfold initLayoutAndSprites. cbv zeta.
  cbn [CARD_H TITLE_Y CARD_Y PAD STATUS_Y STATUS_H HEART_H TITLE_H].
  unfold C.isub, C.iadd, C.imul. unfold C.INT_MAX in *.
  rewrite (wrap_int_small (lcd_height tft - 12)) by (unfold C.INT_MIN, C.INT_MAX; lia).
  rewrite (wrap_int_small (lcd_height tft - 12 - 20)) by (unfold C.INT_MIN, C.INT_MAX; lia).
  rewrite (wrap_int_small (8 + 8)) by (unfold C.INT_MIN, C.INT_MAX; lia).
  rewrite (wrap_int_small (8 + 8 + 28)) by (unfold C.INT_MIN, C.INT_MAX; lia).
  rewrite (wrap_int_small (8 + 8 + 28 + 8)) by (unfold C.INT_MIN, C.INT_MAX; lia).
  rewrite (wrap_int_small (lcd_height tft - 12 - 20 - (8 + 8 + 28 + 8)))
    by (unfold C.INT_MIN, C.INT_MAX; lia).
  rewrite (wrap_int_small (2 * 8)) by (unfold C.INT_MIN, C.INT_MAX; lia).
  rewrite (wrap_int_small (lcd_width tft - 2 * 8)) by (unfold C.INT_MIN, C.INT_MAX; lia).
  set (rem := if lcd_height tft - 12 - 20 - (8 + 8 + 28 + 8) <? 50 then 50
              else lcd_height tft - 12 - 20 - (8 + 8 + 28 + 8)).
  assert (Hrem : rem = Z.max 50 (lcd_height tft - 84)).
  { subst rem. destruct (Z.ltb_spec (lcd_height tft - 12 - 20 - (8 + 8 + 28 + 8)) 50); lia. }
  set (card := if Z.min (lcd_width tft - 2 * 8) rem <? 50 then 50
               else Z.min (lcd_width tft - 2 * 8) rem).
  assert (Hcard : card = Z.max 50 (Z.min (lcd_width tft - 16) rem)).
  { subst card. destruct (Z.ltb_spec (Z.min (lcd_width tft - 2 * 8) rem) 50); lia. }
  rewrite (wrap_int_small (8 + card)) by (unfold C.INT_MIN, C.INT_MAX; lia).
  rewrite (wrap_int_small (8 + card + 8)) by (unfold C.INT_MIN, C.INT_MAX; lia).
  repeat split; try lia.
Qed.

Lemma layout_regions_stack_witness :
  let lay := initLayoutAndSprites stick_tft in
  CARD_H lay = 119 /\ TITLE_Y lay + TITLE_H lay + PAD lay <= STATUS_Y lay.
Proof.
  intros lay.
  assert (Hw : 0 <= lcd_width stick_tft <= C.INT_MAX) by (vm_compute; split; discriminate).
  assert (Hh : 0 <= lcd_height stick_tft <= C.INT_MAX) by (vm_compute; split; discriminate).
  destruct (layout_regions_stack stick_tft Hw Hh) as (_ & _ & _ & Hs & Hc).
  split.
  - apply Hc. vm_compute. split; discriminate.
  - apply Hs. vm_compute. discriminate.
Defined.

(** X23.  The card's font.  When one of the four built-in sizes fits the inner
    box, the card is drawn at text size 1 in the largest size that fits:
    the chosen font fits, it is at least as large as any candidate that
    fits, and every larger candidate does not fit.  No scaling happens on
    this path. *)
Theorem card_uses_largest_fitting_font (tft : Tft) (lay : Layout) (buf : string) (f : Z) :
  In f [8; 6; 4; 2] -> fits tft lay buf f = true ->
  let chosen := card_font_scale tft lay buf in
  snd chosen = 1
  /\ In (fst chosen) [8; 6; 4; 2]
  /\ fits tft lay buf (fst chosen) = true
  /\ f <= fst chosen
  /\ (forall g, In g [8; 6; 4; 2] -> fst chosen < g -> fits tft lay buf g = false).
Proof.
  intros Hin Hf. unfold card_font_scale. cbv zeta.
  change (first_fit (fits tft lay buf) [8; 6; 4; 2])
    with (if fits tft lay buf 8 then 8
          else if fits tft lay buf 6 then 6
          else if fits tft lay buf 4 then 4
          else if fits tft lay buf 2 then 2 else 0).
  destruct (fits tft lay buf 8) eqn:E8;
    [|destruct (fits tft lay buf 6) eqn:E6;
      [|destruct (fits tft lay buf 4) eqn:E4;
        [|destruct (fits tft lay buf 2) eqn:E2]]];
    cbn [fst snd Z.ltb Z.eqb Z.compare Pos.compare Pos.compare_cont andb negb Pos.eqb].
  all: try (repeat split; [simpl; tauto | assumption | |];
            [ destruct Hin as [<- | [<- | [<- | [<- | []]]]]; try lia; congruence
            | intros g [<- | [<- | [<- | [<- | []]]]] Hg; try lia; assumption ]).
  destruct Hin as [<- | [<- | [<- | [<- | []]]]]; congruence.
Qed.

Lemma card_uses_largest_fitting_font_witness :
  let lay := initLayoutAndSprites stick_tft in
  let buf := card_digits 12 in
  fits stick_tft lay buf 4 = true
  /\ snd (card_font_scale stick_tft lay buf) = 1
  /\ 4 <= fst (card_font_scale stick_tft lay buf).
Proof.
  intros lay buf.
  assert (Hf : fits stick_tft lay buf 4 = true) by (vm_compute; reflexivity).
  destruct (card_uses_largest_fitting_font stick_tft lay buf 4
              (or_intror (or_intror (or_introl eq_refl))) Hf) as (H1 & _ & _ & H4 & _).
  exact (conj Hf (conj H1 H4)).
Defined.
